(** * The ATX builder of go-spacemesh (package [activation])

    A shallow embedding of the orchestration code of [activation.Builder]:
    [BuildNIPostChallenge], [createAtx], [PublishActivationTx], the publish
    loop of [run], [StopSmeshing], [getPositioningAtx] and
    [findFullyValidHighTickAtx], together with the persistence boundary of
    package [nipost] that the builder calls.

    The builder talks to collaborators it only knows as interfaces (the layer
    clock, the syncer, the nipost builder, the validator, the publisher, the
    two databases).  Their answers are the fields of an environment [Env]:
    the answer to the n-th call of a collaborator is [oracle n], and the
    state [World] counts the calls made so far.  State that the builder (or
    the persistence layer) owns is a field of [World]. *)

From stdpp Require Import base gmap list strings.
From Stdlib Require Import ZArith Lia.

Local Open Scope Z_scope.

(** ** Machine integers *)

Definition wrap32 (z : Z) : Z := z mod 2 ^ 32.
Definition wrap64 (z : Z) : Z := z mod 2 ^ 64.

Definition minInt64 : Z := - 2 ^ 63.
Definition maxInt64 : Z := 2 ^ 63 - 1.

(** ** Identifiers and protocol time *)

(** [types.NodeID] and [types.ATXID] are 32-byte arrays, read here as
    256-bit numbers; the zero-filled array is [0]. *)
Abbreviation NodeID := Z (only parsing).
Abbreviation ATXID := Z (only parsing).
Definition EmptyATXID : ATXID := 0.

(** [types.EpochID] and [types.LayerID] are [uint32]. *)
Abbreviation EpochID := Z (only parsing).
Abbreviation LayerID := Z (only parsing).

(** [time.Time] in nanoseconds, [time.Duration] an [int64] of nanoseconds. *)
Abbreviation Time := Z (only parsing).
Abbreviation Duration := Z (only parsing).

(** [Time.Sub]: the difference, saturated to the range of [Duration]. *)
Definition time_Sub (t u : Time) : Duration :=
  Z.max minInt64 (Z.min maxInt64 (t - u)).

(** [Time.Add]. *)
Definition time_Add (t : Time) (d : Duration) : Time := t + d.

(** ** Errors *)

(** The sentinel errors the builder tests for with [errors.Is]. *)
Inductive sentinel :=
| ErrNotFound              (* sql.ErrNotFound *)
| Canceled                 (* context.Canceled *)
| DeadlineExceeded         (* context.DeadlineExceeded *)
| ErrATXChallengeExpired
| ErrPoetServiceUnstable.

Global Instance sentinel_eq_dec : EqDecision sentinel.
Proof. solve_decision. Defined.

(** Go error values: a sentinel, [errors.New msg], [fmt.Errorf] with one
    [%w] verb, [errors.Join], or an error of a collaborator that wraps
    nothing the builder knows ([External]). *)
#[warnings="-register-all"]
Inductive error :=
| Sentinel (s : sentinel)
| ErrorsNew (msg : string)
| Errorf (msg : string) (wrapped : error)
| Joined (errs : list error)
| External (code : Z).

(** [errors.Is err target] for a sentinel target: [err] is the target, or
    wraps it, or is a join with a member that does. *)
Fixpoint errors_Is (err : error) (target : sentinel) : bool :=
  match err with
  | Sentinel s => bool_decide (s = target)
  | ErrorsNew _ => false
  | Errorf _ w => errors_Is w target
  | Joined l => existsb (fun e => errors_Is e target) l
  | External _ => false
  end.

(** [errors.Join(a, b)] where each may be nil: nil values are dropped, and
    the result is nil when nothing remains. *)
Definition errors_Join (a b : option error) : option error :=
  match a, b with
  | None, None => None
  | Some x, None => Some (Joined [x])
  | None, Some y => Some (Joined [y])
  | Some x, Some y => Some (Joined [x; y])
  end.

(** A Go result [(value, err)]. *)
Inductive result (A : Type) :=
| Ok (a : A)
| Err (e : error).
Arguments Ok {A} a.
Arguments Err {A} e.

(** ** Data of package [types] and [nipost] *)

(** [types.Post]. *)
Record Post := {
  post_Nonce : Z;
  post_Indices : list Z;
  post_Pow : Z
}.

(** [types.NIPostChallenge]. *)
Record NIPostChallenge := {
  PublishEpoch : EpochID;
  Sequence : Z;
  PrevATXID : ATXID;
  PositioningATX : ATXID;
  CommitmentATX : option ATXID;
  InitialPost : option Post
}.

(** [nipost.Post], the persisted initial proof. *)
Record InitialPostRecord := {
  ip_Nonce : Z;
  ip_Indices : list Z;
  ip_Pow : Z;
  ip_NumUnits : Z;
  ip_CommitmentATX : ATXID;
  ip_VRFNonce : Z
}.

(** [nipost.NIPostState], what [BuildNIPost] hands back. *)
Record NIPostState := {
  ns_NIPost : Z;
  ns_NumUnits : Z;
  ns_VRFNonce : Z
}.

(** What the builder reads of a stored ATX. *)
Record ATXHeader := {
  hdr_ID : ATXID;
  hdr_NodeID : NodeID;
  hdr_PublishEpoch : EpochID;
  hdr_Sequence : Z;
  hdr_TickHeight : Z
}.

(** [types.ActivationTx] as [types.NewActivationTx] fills it and
    [SignAndFinalizeAtx] completes it. *)
Record ActivationTx := {
  atx_Challenge : NIPostChallenge;
  atx_Coinbase : Z;
  atx_NIPost : Z;
  atx_NumUnits : Z;
  atx_VRFNonce : option Z;
  atx_NodeID : option NodeID;
  atx_SmesherID : NodeID;
  atx_Signature : Z
}.

Inductive PostState := PostStateIdle | PostStateProving.

(** ** Package [nipost]: the persisted challenge table *)

Module nipost.

(** Modelled from the spec: the functions [AddChallenge], [Challenge] and
    [RemoveChallenge] of package [sql/localsql/nipost] belong to code
    outside this development (its test is what the builder relies on).  The table holds one row per
    identity, keyed by the identity; adding a row for an identity that has
    one fails and changes nothing. *)
Definition AddChallenge (db : gmap Z NIPostChallenge) (nodeID : NodeID)
    (ch : NIPostChallenge) : result (gmap Z NIPostChallenge) :=
  match db !! nodeID with
  | Some _ => Err (External 1555)
  | None => Ok (<[nodeID := ch]> db)
  end.

(** Modelled from the spec: reading the row of an identity; a missing row
    is [sql.ErrNotFound]. *)
Definition Challenge (db : gmap Z NIPostChallenge) (nodeID : NodeID)
    : result NIPostChallenge :=
  match db !! nodeID with
  | Some ch => Ok ch
  | None => Err (Sentinel ErrNotFound)
  end.

(** Modelled from the spec: deleting the row of an identity. *)
Definition RemoveChallenge (db : gmap Z NIPostChallenge) (nodeID : NodeID)
    : gmap Z NIPostChallenge :=
  delete nodeID db.

End nipost.

(** ** The environment and the state *)

(** The collaborators whose calls are counted. *)
Inductive Oracle :=
| OCtx | OClock | ONow | ORand | OLocalDB | OReset | OLastAtx | OCdb
| OVerifyChain | OValidatePost | OBuildNIPost | OVRFNonce | OPublish | OEgWait.

Definition oracle_ix (o : Oracle) : nat :=
  match o with
  | OCtx => 0 | OClock => 1 | ONow => 2 | ORand => 3 | OLocalDB => 4
  | OReset => 5 | OLastAtx => 6 | OCdb => 7 | OVerifyChain => 8
  | OValidatePost => 9 | OBuildNIPost => 10 | OVRFNonce => 11
  | OPublish => 12 | OEgWait => 13
  end%nat.

(** Answers of the collaborators.  [ctxErr n] is what the n-th look at the
    context finds: [None] when it is not done (a blocking [select] then
    proceeds on its other channel), [Some e] when it is done with
    [ctx.Err() = e]. *)
Record Env := {
  ctxErr : nat → option error;
  currentLayer : nat → LayerID;          (* layerClock.CurrentLayer *)
  GetEpoch : LayerID → EpochID;          (* LayerID.GetEpoch *)
  FirstLayer : EpochID → LayerID;        (* EpochID.FirstLayer *)
  LayerToTime : LayerID → Time;          (* layerClock.LayerToTime *)
  timeNow : nat → Time;                  (* time.Now *)
  randInt63 : nat → Z;                   (* the random source *)
  localDBFault : nat → option error;     (* a failing access to localDB *)
  resetStateErr : nat → option error;    (* nipostBuilder.ResetState *)
  GetLastAtx : nat → NodeID → result ATXHeader;   (* cdb.GetLastAtx *)
  cdbFault : nat → option error;         (* a failing query on cdb *)
  VerifyChain : nat → ATXID → option error;       (* validator.VerifyChain *)
  validatePost : nat → option error;     (* validator.Post *)
  BuildNIPost : nat → NodeID → NIPostChallenge → result NIPostState;   (* nipostBuilder.BuildNIPost *)
  VRFNonce : nat → NodeID → EpochID → result Z;   (* atxs.VRFNonce *)
  Sign : NodeID → ActivationTx → Z;      (* EdSigner.Sign over SignedBytes *)
  Initialize : ActivationTx → option error;       (* ActivationTx.Initialize *)
  Encode : ActivationTx → result (list Z);        (* codec.Encode *)
  Publish : nat → list Z → option error; (* publisher.Publish *)
  egWait : nat → option error            (* errgroup.Group.Wait *)
}.

(** The configuration the builder reads: fields of [activation.Config], of
    [PoetConfig] and of [Builder] itself. *)
Record Config := {
  GoldenATXID : ATXID;
  LabelsPerUnit : Z;
  PhaseShift : Duration;
  GracePeriod : Duration;
  poetRetryInterval : Duration;
  postValidityDelay : Duration
}.

(** What the builder does to the world, in order. *)
Inductive Event :=
| EvResetState (id : NodeID) (r : option error)
| EvRemoveChallenge (id : NodeID) (r : option error)
| EvAddChallenge (id : NodeID) (ch : NIPostChallenge) (r : option error)
| EvRemoveInitialPost (id : NodeID) (r : option error)
| EvVerifyChain (id : ATXID) (r : option error)
| EvPoetWaitRound (current publish : EpochID) (wait : Time)
| EvTimer (d : Duration)
| EvPublish (buf : list Z) (r : option error)
| EvAtxPublished (publish target : EpochID)
| EvAwaitLayer (l : LayerID)
| EvStop
| EvLogFatal.

Record World := {
  challenges : gmap Z NIPostChallenge;      (* localDB, table challenge *)
  initialPosts : gmap Z InitialPostRecord;  (* localDB, table initial_post *)
  proverState : gset Z;                     (* in-progress state of the nipost builder *)
  postStates : gmap Z PostState;            (* b.postStates *)
  signers : list NodeID;                    (* keys of b.signers, in iteration order *)
  started : bool;                           (* b.stop != nil *)
  coinbaseAccount : Z;
  atxStore : list ATXHeader;                (* the ATXs of cdb *)
  calls : Oracle → nat;
  trace : list Event
}.

Definition set_challenges (f : gmap Z NIPostChallenge → gmap Z NIPostChallenge) (w : World) : World :=
  {| challenges := f (challenges w); initialPosts := initialPosts w;
     proverState := proverState w; postStates := postStates w;
     signers := signers w; started := started w;
     coinbaseAccount := coinbaseAccount w; atxStore := atxStore w;
     calls := calls w; trace := trace w |}.

Definition set_initialPosts (f : gmap Z InitialPostRecord → gmap Z InitialPostRecord) (w : World) : World :=
  {| challenges := challenges w; initialPosts := f (initialPosts w);
     proverState := proverState w; postStates := postStates w;
     signers := signers w; started := started w;
     coinbaseAccount := coinbaseAccount w; atxStore := atxStore w;
     calls := calls w; trace := trace w |}.

Definition set_proverState (f : gset Z → gset Z) (w : World) : World :=
  {| challenges := challenges w; initialPosts := initialPosts w;
     proverState := f (proverState w); postStates := postStates w;
     signers := signers w; started := started w;
     coinbaseAccount := coinbaseAccount w; atxStore := atxStore w;
     calls := calls w; trace := trace w |}.

Definition set_postStates (f : gmap Z PostState → gmap Z PostState) (w : World) : World :=
  {| challenges := challenges w; initialPosts := initialPosts w;
     proverState := proverState w; postStates := f (postStates w);
     signers := signers w; started := started w;
     coinbaseAccount := coinbaseAccount w; atxStore := atxStore w;
     calls := calls w; trace := trace w |}.

Definition set_started (b : bool) (w : World) : World :=
  {| challenges := challenges w; initialPosts := initialPosts w;
     proverState := proverState w; postStates := postStates w;
     signers := signers w; started := b;
     coinbaseAccount := coinbaseAccount w; atxStore := atxStore w;
     calls := calls w; trace := trace w |}.

Definition bump (o : Oracle) (w : World) : World :=
  {| challenges := challenges w; initialPosts := initialPosts w;
     proverState := proverState w; postStates := postStates w;
     signers := signers w; started := started w;
     coinbaseAccount := coinbaseAccount w; atxStore := atxStore w;
     calls := fun o' => if Nat.eqb (oracle_ix o') (oracle_ix o)
                        then S (calls w o') else calls w o';
     trace := trace w |}.

Definition record (ev : Event) (w : World) : World :=
  {| challenges := challenges w; initialPosts := initialPosts w;
     proverState := proverState w; postStates := postStates w;
     signers := signers w; started := started w;
     coinbaseAccount := coinbaseAccount w; atxStore := atxStore w;
     calls := calls w; trace := trace w ++ [ev] |}.

(** ** The monad of builder code *)

(** How a call ends: with a value, with a Go error, with the end of the
    process ([logger.Fatal]), or not within the iterations granted to its
    loops. *)
Inductive outcome (A : Type) :=
| Return (a : A)
| Fail (e : error)
| Exit
| Running.
Arguments Return {A} a.
Arguments Fail {A} e.
Arguments Exit {A}.
Arguments Running {A}.

Definition M (A : Type) : Type := World → outcome A * World.

Definition ret {A} (a : A) : M A := fun w => (Return a, w).
Definition fail {A} (e : error) : M A := fun w => (Fail e, w).
Definition exit {A} : M A := fun w => (Exit, w).
Definition running {A} : M A := fun w => (Running, w).

Definition bind {A B} (m : M A) (k : A → M B) : M B :=
  fun w =>
    match m w with
    | (Return a, w') => k a w'
    | (Fail e, w') => (Fail e, w')
    | (Exit, w') => (Exit, w')
    | (Running, w') => (Running, w')
    end.

Declare Scope go_scope.
Delimit Scope go_scope with go.
Notation "'do' x <- m ; k" := (bind m (fun x => k))
  (at level 10, x name, m at level 100, k at level 200) : go_scope.
Notation "m ;; k" := (bind m (fun _ => k))
  (at level 100, k at level 200, right associativity) : go_scope.

Definition get {A} (f : World → A) : M A := fun w => (Return (f w), w).
Definition modify (f : World → World) : M unit := fun w => (Return tt, f w).

(** The number of the call about to be made to [o]. *)
Definition ask (o : Oracle) : M nat := fun w => (Return (calls w o), bump o w).

Definition emit (ev : Event) : M unit := modify (record ev).

(** [if err != nil { return fmt.Errorf("msg: %w", err) }] around a call. *)
Definition wrapping {A} (msg : string) (m : M A) : M A :=
  fun w =>
    match m w with
    | (Fail e, w') => (Fail (Errorf msg e), w')
    | r => r
    end.

(** A call whose error the caller inspects instead of returning it. *)
Definition try {A} (m : M A) : M (result A) :=
  fun w =>
    match m w with
    | (Return a, w') => (Return (Ok a), w')
    | (Fail e, w') => (Return (Err e), w')
    | (Exit, w') => (Exit, w')
    | (Running, w') => (Running, w')
    end.

(** ** Package [atxs]: the query behind the positioning ATX *)

Module atxs.

(** Modelled from the spec: the search behind [atxs.GetIDWithMaxHeight],
    which belongs to code outside this development.  The stored ATX of
    greatest tick height among those [filter] accepts; of several of that
    height, the first in store order. *)
Fixpoint maxHeight (filter : ATXID → bool) (store : list ATXHeader)
    (best : option ATXHeader) : option ATXHeader :=
  match store with
  | [] => best
  | h :: rest =>
      if filter (hdr_ID h) then
        match best with
        | Some b =>
            if hdr_TickHeight b <? hdr_TickHeight h
            then maxHeight filter rest (Some h)
            else maxHeight filter rest best
        | None => maxHeight filter rest (Some h)
        end
      else maxHeight filter rest best
  end.

(** Modelled from the spec: [atxs.GetIDWithMaxHeight] belongs to code
    outside this development.  It selects the known ATX of highest tick
    height that the filter does not exclude, and reports [sql.ErrNotFound]
    when no candidate remains.  The preferred identity plays no part in
    which height is highest. *)
Definition GetIDWithMaxHeight (store : list ATXHeader) (pref : NodeID)
    (filter : ATXID → bool) : result ATXID :=
  match maxHeight filter store None with
  | Some h => Ok (hdr_ID h)
  | None => Err (Sentinel ErrNotFound)
  end.

End atxs.

Local Open Scope string_scope.
Local Open Scope Z_scope.
Local Open Scope go_scope.

(** ** The builder *)

Section Builder.

Context (env : Env) (conf : Config).

(** *** Calls to the collaborators *)

(** One look at the context: [ctx.Err()] if [ctx.Done()] is ready. *)
Definition ctx_Err : M (option error) :=
  do n <- ask OCtx; ret (ctxErr env n).

Definition CurrentLayer : M LayerID :=
  do n <- ask OClock; ret (currentLayer env n).

Definition time_Now : M Time :=
  do n <- ask ONow; ret (timeNow env n).

(** [time.Until(t)] is [t.Sub(time.Now())]. *)
Definition time_Until (t : Time) : M Duration :=
  do now <- time_Now; ret (time_Sub t now).

(** [b.postStates.Set(nodeID, state)]. *)
Definition postStates_Set (nodeID : NodeID) (st : PostState) : M unit :=
  modify (set_postStates (fun m => <[nodeID := st]> m)).

(** Modelled from the spec: [nipostBuilder.ResetState] is an interface
    method; when it succeeds the identity has no proving progress left. *)
Definition ResetState (nodeID : NodeID) : M (option error) :=
  do n <- ask OReset;
  let r := resetStateErr env n in
  (match r with
   | Some _ => ret tt
   | None => modify (set_proverState (fun s => s ∖ {[nodeID]}))
   end);;
  emit (EvResetState nodeID r);;
  ret r.

(** [nipost.Challenge(b.localDB, nodeID)], which a failing database can
    answer with any error. *)
Definition localDB_Challenge (nodeID : NodeID) : M (result NIPostChallenge) :=
  do n <- ask OLocalDB;
  match localDBFault env n with
  | Some e => ret (Err e)
  | None => do db <- get challenges; ret (nipost.Challenge db nodeID)
  end.

(** [nipost.RemoveChallenge(b.localDB, nodeID)]. *)
Definition localDB_RemoveChallenge (nodeID : NodeID) : M (option error) :=
  do n <- ask OLocalDB;
  let r := localDBFault env n in
  (match r with
   | Some _ => ret tt
   | None => modify (set_challenges (fun db => nipost.RemoveChallenge db nodeID))
   end);;
  emit (EvRemoveChallenge nodeID r);;
  ret r.

(** [nipost.AddChallenge(b.localDB, nodeID, challenge)]. *)
Definition localDB_AddChallenge (nodeID : NodeID) (ch : NIPostChallenge)
    : M (option error) :=
  do n <- ask OLocalDB;
  do db <- get challenges;
  let r :=
    match localDBFault env n with
    | Some e => Err e
    | None => nipost.AddChallenge db nodeID ch
    end in
  match r with
  | Ok db' =>
      modify (set_challenges (fun _ => db'));;
      emit (EvAddChallenge nodeID ch None);;
      ret None
  | Err e =>
      emit (EvAddChallenge nodeID ch (Some e));;
      ret (Some e)
  end.

(** Modelled from the spec: [nipost.InitialPost(b.localDB, nodeID)] reads
    the one initial proof of the identity, [sql.ErrNotFound] if none. *)
Definition localDB_InitialPost (nodeID : NodeID) : M InitialPostRecord :=
  do n <- ask OLocalDB;
  match localDBFault env n with
  | Some e => fail e
  | None =>
      do db <- get initialPosts;
      match db !! nodeID with
      | Some p => ret p
      | None => fail (Sentinel ErrNotFound)
      end
  end.

(** Modelled from the spec: [nipost.RemoveInitialPost(b.localDB, nodeID)]
    discards the initial proof of the identity. *)
Definition localDB_RemoveInitialPost (nodeID : NodeID) : M (option error) :=
  do n <- ask OLocalDB;
  let r := localDBFault env n in
  (match r with
   | Some _ => ret tt
   | None => modify (set_initialPosts (fun db => delete nodeID db))
   end);;
  emit (EvRemoveInitialPost nodeID r);;
  ret r.

(** [b.cdb.GetLastAtx(nodeID)]. *)
Definition cdb_GetLastAtx (nodeID : NodeID) : M (result ATXHeader) :=
  do n <- ask OLastAtx; ret (GetLastAtx env n nodeID).

(** [atxs.GetIDWithMaxHeight(db, prefNodeID, filter)], which a failing
    database can answer with any error. *)
Definition cdb_GetIDWithMaxHeight (pref : NodeID) (filter : ATXID → bool)
    : M (result ATXID) :=
  do n <- ask OCdb;
  match cdbFault env n with
  | Some e => ret (Err e)
  | None => do store <- get atxStore; ret (atxs.GetIDWithMaxHeight store pref filter)
  end.

(** [validator.VerifyChain(ctx, id, goldenATXID, opts...)]. *)
Definition validator_VerifyChain (id golden : ATXID) : M (option error) :=
  do n <- ask OVerifyChain;
  let r := VerifyChain env n id in
  emit (EvVerifyChain id r);;
  ret r.

(** [validator.Post(...)] on the initial proof. *)
Definition validator_Post (nodeID : NodeID) (p : InitialPostRecord) : M (option error) :=
  do n <- ask OValidatePost; ret (validatePost env n).

(** Modelled from the spec: [nipostBuilder.BuildNIPost] is an interface
    method; the prover keeps its progress for the identity from the first
    phase on, until [ResetState]. *)
Definition nipostBuilder_BuildNIPost (nodeID : NodeID) (ch : NIPostChallenge)
    : M NIPostState :=
  do n <- ask OBuildNIPost;
  modify (set_proverState (fun s => {[nodeID]} ∪ s));;
  match BuildNIPost env n nodeID ch with
  | Ok st => ret st
  | Err e => fail e
  end.

(** *** Timing of the poet round *)

(** [b.poetRoundStart(epoch)]. *)
Definition poetRoundStart (epoch : EpochID) : Time :=
  time_Add (LayerToTime env (FirstLayer env epoch)) (PhaseShift conf).

(** [maxNipostChallengeBuildJitter = 1.0], a percentage of the grace
    period.  In [gracePeriod*maxNipostChallengeBuildJitter/100.0] both
    constants are converted to [time.Duration], so the arithmetic is that
    of [int64]. *)
Definition maxNipostChallengeBuildJitter : Z := 1.

(** Modelled from the spec: [randomDurationInRange] belongs to code
    outside this development.  It draws a duration uniformly from [[min, max]]: the
    draw of the random source is reduced to the [max - min + 1] values of
    the range. *)
Definition randomDurationInRange (min max : Duration) : M Duration :=
  do n <- ask ORand;
  ret (min + randInt63 env n mod (max - min + 1)).

Definition buildNipostChallengeStartDeadline (roundStart : Time)
    (gracePeriod : Duration) : M Time :=
  do jitter <- randomDurationInRange 0
      (Z.quot (gracePeriod * maxNipostChallengeBuildJitter) 100);
  ret (time_Add (time_Add roundStart jitter) (- gracePeriod)).

(** *** The positioning ATX *)

(** The closure [filter] of [findFullyValidHighTickAtx]: the id is not
    a key of [rejectedAtxs]. *)
Definition notRejected (rejectedAtxs : gset Z) (id : ATXID) : bool :=
  bool_decide (id ∉ rejectedAtxs).

(** The loop of [findFullyValidHighTickAtx], granted [fuel] iterations,
    with the rejection set built so far. *)
Fixpoint findLoop (fuel : nat) (prefNodeID : NodeID) (goldenATXID : ATXID)
    (rejectedAtxs : gset Z) : M ATXID :=
  match fuel with
  | O => running
  | S fuel' =>
      do c <- ctx_Err;
      match c with
      | Some e => fail e
      | None =>
          do r <- cdb_GetIDWithMaxHeight prefNodeID (notRejected rejectedAtxs);
          match r with
          | Err e => fail e
          | Ok id =>
              do v <- validator_VerifyChain id goldenATXID;
              match v with
              | Some _ => findLoop fuel' prefNodeID goldenATXID ({[id]} ∪ rejectedAtxs)
              | None => ret id
              end
          end
      end
  end.

(** The loop runs at most once per stored ATX and once more: that many
    iterations are granted (see [findLoop_frame] and [findLoop_fuel]). *)
Definition findFullyValidHighTickAtx (prefNodeID : NodeID)
    (goldenATXID : ATXID) : M ATXID :=
  do store <- get atxStore;
  findLoop (S (length store)) prefNodeID goldenATXID ∅.

Definition getPositioningAtx (nodeID : NodeID) : M ATXID :=
  do _ <- time_Now;   (* AssumeValidBefore(time.Now().Add(-b.postValidityDelay)) *)
  do r <- try (findFullyValidHighTickAtx nodeID (GoldenATXID conf));
  match r with
  | Err err =>
      if errors_Is err ErrNotFound then ret (GoldenATXID conf) else fail err
  | Ok id => ret id
  end.

(** *** Building the challenge *)

(** [BuildNIPostChallenge], the choice of the epoch to build for: from
    [b.cdb.GetLastAtx] to the second reading of [b.poetRoundStart]. *)
Definition chooseEpoch (nodeID : NodeID) (current : EpochID) : M EpochID :=
  do prev <- cdb_GetLastAtx nodeID;
  do current <-
    match prev with
    | Ok prev => ret (Z.max current (hdr_PublishEpoch prev))
    | Err err =>
        if errors_Is err ErrNotFound then ret current
        else fail (Errorf "get last ATX" err)
    end;
  do until <- time_Until (poetRoundStart current);
  if until <=? 0 then
    do _ <- time_Until (poetRoundStart (wrap32 (current + 1)));
    ret (wrap32 (current + 1))                   (* current++ *)
  else ret current.

(** [BuildNIPostChallenge], the wait for the start of the build: from
    [buildNipostChallengeStartDeadline] to the end of the [select]. *)
Definition awaitBuildStart (current : EpochID) : M unit :=
  do wait <- buildNipostChallengeStartDeadline (poetRoundStart current) (GracePeriod conf);
  do d <- time_Until wait;
  if 0 <? d then
    do _ <- time_Until wait;            (* the "wait" field of the log line *)
    emit (EvPoetWaitRound current (wrap32 (current + 1)) wait);;
    do d <- time_Until wait;
    emit (EvTimer d);;                  (* time.After(time.Until(wait)) *)
    do c <- ctx_Err;
    match c with
    | Some e => fail e
    | None => ret tt
    end
  else ret tt.

(** [BuildNIPostChallenge], the challenge itself: the [switch] on the
    second [b.cdb.GetLastAtx]. *)
Definition makeChallenge (nodeID : NodeID) (current : EpochID)
    (posAtx : ATXID) : M NIPostChallenge :=
  do prevAtx <- cdb_GetLastAtx nodeID;
  match prevAtx with
  | Err err =>
      if errors_Is err ErrNotFound then
        (* initial ATX challenge *)
        do post <- wrapping "get initial post" (localDB_InitialPost nodeID);
        do v <- validator_Post nodeID post;
        match v with
        | Some err =>
            do r <- localDB_RemoveInitialPost nodeID;
            match r with
            | Some _ => emit EvLogFatal;; exit
            | None => fail (Errorf "initial POST is invalid" err)
            end
        | None =>
            ret {| PublishEpoch := wrap32 (current + 1);
                   Sequence := 0;
                   PrevATXID := EmptyATXID;
                   PositioningATX := posAtx;
                   CommitmentATX := Some (ip_CommitmentATX post);
                   InitialPost := Some {| post_Nonce := ip_Nonce post;
                                          post_Indices := ip_Indices post;
                                          post_Pow := ip_Pow post |} |}
        end
      else fail (Errorf "get last ATX" err)
  | Ok prevAtx =>
      (* regular ATX challenge *)
      ret {| PublishEpoch := wrap32 (current + 1);
             Sequence := wrap64 (hdr_Sequence prevAtx + 1);
             PrevATXID := hdr_ID prevAtx;
             PositioningATX := posAtx;
             CommitmentATX := None;
             InitialPost := None |}
  end.

(** [BuildNIPostChallenge] from "building new NiPOST challenge" on. *)
Definition buildNewChallenge (nodeID : NodeID) (current : EpochID)
    : M NIPostChallenge :=
  do current <- chooseEpoch nodeID current;
  awaitBuildStart current;;
  do posAtx <- wrapping "failed to get positioning ATX" (getPositioningAtx nodeID);
  do challenge <- makeChallenge nodeID current posAtx;
  do e <- localDB_AddChallenge nodeID challenge;
  match e with
  | Some err => fail (Errorf "add nipost challenge" err)
  | None => ret challenge
  end.

Definition BuildNIPostChallenge (nodeID : NodeID) : M NIPostChallenge :=
  do c <- ctx_Err;          (* select: ctx.Done() or RegisterForATXSynced() *)
  match c with
  | Some e => fail e
  | None =>
      do layer <- CurrentLayer;
      let current := GetEpoch env layer in
      do r <- localDB_Challenge nodeID;
      match r with
      | Err err =>
          if errors_Is err ErrNotFound then buildNewChallenge nodeID current
          else fail (Errorf "get nipost challenge" err)
      | Ok challenge =>
          if PublishEpoch challenge <? current then
            (* existing NiPOST challenge is stale, resetting state *)
            postStates_Set nodeID PostStateIdle;;
            do e <- ResetState nodeID;
            match e with
            | Some err => fail (Errorf "reset nipost builder state" err)
            | None =>
                do e <- localDB_RemoveChallenge nodeID;
                match e with
                | Some err => fail (Errorf "remove stale nipost challenge" err)
                | None => buildNewChallenge nodeID current
                end
            end
          else
            (* challenge is fresh *)
            ret challenge
      end
  end.

(** *** Creating and publishing the ATX *)

(** [b.Coinbase()]. *)
Definition Coinbase : M Z := get coinbaseAccount.

(** Modelled from the spec: [types.NewActivationTx] belongs to code
    outside this development; it assembles the artifact from the challenge, the
    coinbase, the proving output and the optional VRF nonce. *)
Definition NewActivationTx (challenge : NIPostChallenge) (coinbase : Z)
    (nipost numUnits : Z) (nonce : option Z) : ActivationTx :=
  {| atx_Challenge := challenge; atx_Coinbase := coinbase;
     atx_NIPost := nipost; atx_NumUnits := numUnits;
     atx_VRFNonce := nonce; atx_NodeID := None;
     atx_SmesherID := 0; atx_Signature := 0 |}.

Definition set_atx_NodeID (n : option NodeID) (atx : ActivationTx) : ActivationTx :=
  {| atx_Challenge := atx_Challenge atx; atx_Coinbase := atx_Coinbase atx;
     atx_NIPost := atx_NIPost atx; atx_NumUnits := atx_NumUnits atx;
     atx_VRFNonce := atx_VRFNonce atx; atx_NodeID := n;
     atx_SmesherID := atx_SmesherID atx; atx_Signature := atx_Signature atx |}.

(** [SignAndFinalizeAtx(signer, atx)]: the signature is taken over the
    ATX as it stands, then the smesher id is set and the id computed. *)
Definition SignAndFinalizeAtx (signer : NodeID) (atx : ActivationTx)
    : ActivationTx * option error :=
  let atx' :=
    {| atx_Challenge := atx_Challenge atx; atx_Coinbase := atx_Coinbase atx;
       atx_NIPost := atx_NIPost atx; atx_NumUnits := atx_NumUnits atx;
       atx_VRFNonce := atx_VRFNonce atx; atx_NodeID := atx_NodeID atx;
       atx_SmesherID := signer; atx_Signature := Sign env signer atx |} in
  (atx', Initialize env atx').

Definition createAtx (sig : NodeID) (challenge : NIPostChallenge)
    : M ActivationTx :=
  let pubEpoch := PublishEpoch challenge in
  do nipostState <- wrapping "build NIPost" (nipostBuilder_BuildNIPost sig challenge);
  do _ <- CurrentLayer;                 (* the "current_layer" field of the log line *)
  emit (EvAwaitLayer (FirstLayer env pubEpoch));;
  do c <- ctx_Err;
  match c with
  | Some e => fail (Errorf "wait for publication epoch" e)
  | None =>
      do layer <- CurrentLayer;
      if PublishEpoch challenge <? GetEpoch env layer then
        match InitialPost challenge with
        | Some _ =>
            (* initial post is not discarded; don't return ErrATXChallengeExpired *)
            fail (ErrorsNew "atx publish epoch has passed during nipost construction")
        | None =>
            fail (Errorf "atx publish epoch has passed during nipost construction"
                    (Sentinel ErrATXChallengeExpired))
        end
      else
        do na <-
          (if decide (PrevATXID challenge = EmptyATXID) then
             ret (Some (ns_VRFNonce nipostState), Some sig)
           else
             do n <- ask OVRFNonce;
             match VRFNonce env n sig (PublishEpoch challenge) with
             | Err _ => ret (None, None)          (* logged; break *)
             | Ok oldNonce =>
                 if decide (ns_VRFNonce nipostState ≠ oldNonce)
                 then ret (Some (ns_VRFNonce nipostState), None)
                 else ret (None, None)
             end);
        do coinbase <- Coinbase;
        let atx := NewActivationTx challenge coinbase (ns_NIPost nipostState)
                     (ns_NumUnits nipostState) (fst na) in
        let atx := set_atx_NodeID (snd na) atx in
        match SignAndFinalizeAtx sig atx with
        | (_, Some err) => fail (Errorf "sign atx" err)
        | (atx, None) => ret atx
        end
  end.

Definition broadcast (atx : ActivationTx) : M (result nat) :=
  match Encode env atx with
  | Err err => ret (Err (Errorf "failed to serialize ATX" err))
  | Ok buf =>
      do n <- ask OPublish;
      let r := Publish env n buf in
      emit (EvPublish buf r);;
      match r with
      | Some err => ret (Err (Errorf "failed to broadcast ATX" err))
      | None => ret (Ok (length buf))
      end
  end.

(** The broadcast loop of [PublishActivationTx], granted [fuel]
    iterations. *)
Fixpoint broadcastLoop (fuel : nat) (atx : ActivationTx) : M unit :=
  match fuel with
  | O => running
  | S fuel' =>
      do r <- broadcast atx;
      match r with
      | Ok _ => ret tt          (* atx published; break *)
      | Err _ =>
          do c <- ctx_Err;
          match c with
          | Some e => fail (Errorf "broadcast" e)
          | None => broadcastLoop fuel' atx    (* try again *)
          end
      end
  end.

(** [TargetEpoch()] of a challenge or an ATX. *)
Definition TargetEpoch (ch : NIPostChallenge) : EpochID :=
  wrap32 (PublishEpoch ch + 1).

(** [PublishActivationTx] once the ATX is created: the broadcast loop,
    then the clearing of the proving progress and of the challenge. *)
Definition publishAtx (fuel : nat) (sig : NodeID) (atx : ActivationTx) : M unit :=
  broadcastLoop fuel atx;;
  do e <- ResetState sig;
  match e with
  | Some err => fail (Errorf "reset nipost builder state" err)
  | None =>
      do e <- localDB_RemoveChallenge sig;
      match e with
      | Some err => fail (Errorf "discarding challenge after published ATX" err)
      | None =>
          emit (EvAtxPublished (PublishEpoch (atx_Challenge atx))
                               (TargetEpoch (atx_Challenge atx)));;
          ret tt
      end
  end.

(** The looks at the context after [context.WithDeadline] are looks at
    the derived context. *)
Definition PublishActivationTx (fuel : nat) (sig : NodeID) : M unit :=
  do challenge <- BuildNIPostChallenge sig;
  do _ <- CurrentLayer;                 (* the "current_epoch" field of the log line *)
  do atx <- wrapping "create ATX" (createAtx sig challenge);
  publishAtx fuel sig atx.

(** *** The run loop *)

(** What [run] does with an error of [PublishActivationTx] that is not
    [context.Canceled] (the [switch] of the second loop): [true] to go
    round the loop again, [false] to return. *)
Definition run_recover (sig : NodeID) (err : error) : M bool :=
  if errors_Is err ErrATXChallengeExpired then
    (* retrying with new challenge after waiting for a layer *)
    do _ <- ResetState sig;               (* a failure is logged *)
    do _ <- localDB_RemoveChallenge sig;  (* a failure is logged *)
    do currentLayer <- CurrentLayer;
    emit (EvAwaitLayer (wrap32 (currentLayer + 1)));;
    do c <- ctx_Err;
    match c with
    | Some _ => ret false
    | None => ret true
    end
  else if errors_Is err ErrPoetServiceUnstable then
    emit (EvTimer (poetRetryInterval conf));;
    do c <- ctx_Err;
    match c with
    | Some _ => ret false
    | None => ret true
    end
  else
    do currentLayer <- CurrentLayer;
    emit (EvAwaitLayer (wrap32 (currentLayer + 1)));;
    do c <- ctx_Err;
    match c with
    | Some _ => ret false
    | None => ret true
    end.

(** The second loop of [run], granted [fuel] iterations (and as many to
    each broadcast loop). *)
Fixpoint run_publish (fuel : nat) (sig : NodeID) : M unit :=
  match fuel with
  | O => running
  | S fuel' =>
      do r <- try (PublishActivationTx fuel sig);
      match r with
      | Ok _ => run_publish fuel' sig
      | Err err =>
          if errors_Is err Canceled then ret tt
          else
            do again <- run_recover sig err;
            if again then run_publish fuel' sig else ret tt
      end
  end.

(** *** Stopping *)

(** The [for _, sig := range b.signers] loop of [StopSmeshing]. *)
Fixpoint resetSigners (sigs : list NodeID) (resetErr : option error)
    : M (option error) :=
  match sigs with
  | [] => ret resetErr
  | sig :: rest =>
      postStates_Set sig PostStateIdle;;
      do e <- ResetState sig;
      match e with
      | Some err =>
          let err := Errorf "reset builder state for id" err in
          resetSigners rest (errors_Join resetErr (Some err))    (* continue *)
      | None =>
          do e <- localDB_RemoveChallenge sig;
          match e with
          | Some err =>
              let err := Errorf "remove nipost challenge for id" err in
              resetSigners rest (errors_Join resetErr (Some err))
          | None => resetSigners rest resetErr
          end
      end
  end.

Definition StopSmeshing (deleteFiles : bool) : M unit :=
  do st <- get started;
  if negb st then fail (ErrorsNew "not started")
  else
    emit EvStop;;                 (* b.stop() *)
    do n <- ask OEgWait;
    let err := egWait env n in    (* b.eg.Wait() *)
    modify (set_started false);;
    let reset : M unit :=         (* case err == nil || errors.Is(err, context.Canceled) *)
      if negb deleteFiles then ret tt
      else
        do sigs <- get signers;
        do resetErr <- resetSigners sigs None;
        match resetErr with
        | Some e => fail e
        | None => ret tt
        end in
    match err with
    | None => reset
    | Some e =>
        if errors_Is e Canceled then reset
        else fail (Errorf "failed to stop smeshing" e)
    end.

End Builder.


(** ** The lifecycle of the builder *)

Definition set_signers (f : list NodeID → list NodeID) (w : World) : World :=
  {| challenges := challenges w; initialPosts := initialPosts w;
     proverState := proverState w; postStates := postStates w;
     signers := f (signers w); started := started w;
     coinbaseAccount := coinbaseAccount w; atxStore := atxStore w;
     calls := calls w; trace := trace w |}.

Definition set_coinbaseAccount (a : Z) (w : World) : World :=
  {| challenges := challenges w; initialPosts := initialPosts w;
     proverState := proverState w; postStates := postStates w;
     signers := signers w; started := started w;
     coinbaseAccount := a; atxStore := atxStore w;
     calls := calls w; trace := trace w |}.

(** The context a goroutine of the builder is given: [b.parentCtx], or
    the context that [StartSmeshing] derives from it and [b.stop] cancels. *)
Inductive BuilderCtx := ParentCtx | SmeshingCtx.

(** A goroutine handed to [b.eg]: the run loop of an identity, or the
    ticker that re-gossips its ATX. *)
Inductive Task :=
| RunLoop (ctx : BuilderCtx) (sig : NodeID)
| RegossipLoop (ctx : BuilderCtx) (sig : NodeID).

Section Lifecycle.

Context (RegossipInterval : Duration).     (* b.conf.RegossipInterval *)

(** [b.startID(ctx, sig)]: the goroutines it hands to [b.eg]. *)
Definition startID (ctx : BuilderCtx) (sig : NodeID) : list Task :=
  RunLoop ctx sig ::
  (if decide (RegossipInterval = 0) then [] else [RegossipLoop ctx sig]).

(** [b.Register(sig)], with the goroutines it starts. *)
Definition Register (sig : NodeID) : M (list Task) :=
  do sigs <- get signers;
  if decide (sig ∈ sigs) then
    ret []                                  (* signing key already registered *)
  else
    modify (set_signers (fun l => (l ++ [sig])%list));;
    postStates_Set sig PostStateIdle;;
    do st <- get started;
    if st then ret (startID ParentCtx sig)  (* b.startID(b.parentCtx, sig) *)
    else ret [].

(** [b.Smeshing()]. *)
Definition Smeshing : M bool := get started.

(** [b.PostStates()]: the states of the identities that are registered. *)
Definition PostStates : M (gmap Z PostState) :=
  do states <- get postStates;
  do sigs <- get signers;
  ret (filter (fun kv => kv.1 ∈ sigs) states).

(** [b.StartSmeshing(coinbase)], with the goroutines it starts. *)
Definition StartSmeshing (coinbase : Z) : M (list Task) :=
  do st <- get started;
  if st then fail (ErrorsNew "already started")
  else
    modify (set_coinbaseAccount coinbase);;
    modify (set_started true);;             (* b.stop = stop *)
    do sigs <- get signers;
    ret (concat (startID SmeshingCtx <$> sigs)).

(** [b.SmesherIDs()]. *)
Definition SmesherIDs : M (list NodeID) := get signers.

(** [b.SetCoinbase(rewardAddress)]. *)
Definition SetCoinbase (rewardAddress : Z) : M unit :=
  modify (set_coinbaseAccount rewardAddress).

End Lifecycle.

(** ** The initial proof *)

(** [types.PostInfo], the fields [buildInitialPost] reads; [Nonce] is a
    pointer. *)
Record PostInfo := {
  pi_NumUnits : Z;
  pi_CommitmentATX : ATXID;
  pi_Nonce : option Z;
  pi_LabelsPerUnit : Z
}.

Section InitialPost.

Context (env : Env) (conf : Config).

(** Modelled from the spec: [nipost.AddInitialPost(b.localDB, nodeID, post)]
    belongs to code outside this development.  An identity has one initial
    proof, which is not overwritten. *)
Definition localDB_AddInitialPost (nodeID : NodeID) (post : InitialPostRecord)
    : M (option error) :=
  do n <- ask OLocalDB;
  match localDBFault env n with
  | Some e => ret (Some e)
  | None =>
      do db <- get initialPosts;
      match db !! nodeID with
      | Some _ => ret (Some (External 1555))
      | None =>
          modify (set_initialPosts (fun db => <[nodeID := post]> db));;
          ret None
      end
  end.

(** [b.buildInitialPost(ctx, nodeID)]; [proof] is what
    [b.nipostBuilder.Proof(ctx, nodeID, shared.ZeroChallenge)] answers if it
    is called. *)
Definition buildInitialPost (proof : result (Post * PostInfo))
    (nodeID : NodeID) : M unit :=
  (* Generate the initial POST if we don't have an ATX... *)
  do last <- cdb_GetLastAtx env nodeID;
  match last with
  | Ok _ => ret tt
  | Err _ =>
      (* ...and if we haven't stored an initial post yet. *)
      do stored <- try (localDB_InitialPost env nodeID);
      match stored with
      | Ok _ => ret tt                      (* load initial post from db *)
      | Err err =>
          if errors_Is err ErrNotFound then
            (* Create the initial post and save it. *)
            do _ <- time_Now env;           (* startTime *)
            match proof with
            | Err err => fail (Errorf "post execution" err)
            | Ok (post, postInfo) =>
                match pi_Nonce postInfo with
                | None => exit              (* *postInfo.Nonce on a nil pointer *)
                | Some vrfNonce =>
                    let initialPost :=
                      {| ip_Nonce := post_Nonce post;
                         ip_Indices := post_Indices post;
                         ip_Pow := post_Pow post;
                         ip_NumUnits := pi_NumUnits postInfo;
                         ip_CommitmentATX := pi_CommitmentATX postInfo;
                         ip_VRFNonce := vrfNonce |} in
                    do v <- validator_Post env nodeID initialPost;
                    match v with
                    | Some err =>
                        do r <- localDB_RemoveInitialPost env nodeID;
                        match r with
                        | Some _ => emit EvLogFatal;; exit
                        | None => fail (Errorf "initial POST is invalid" err)
                        end
                    | None =>
                        do _ <- time_Now env;     (* time.Since(startTime) *)
                        do _ <- time_Now env;     (* time.Since(startTime) *)
                        do e <- localDB_AddInitialPost nodeID initialPost;
                        match e with
                        | Some err => fail err
                        | None => ret tt
                        end
                    end
                end
            end
          else fail (Errorf "get initial post" err)
      end
  end.

(** The first loop of [run], granted [fuel] iterations; [proofs n] is what
    the prover answers in the n-th turn of the loop, [attempt] the number of
    the turn.  [true]: the initial proof is there; [false]: the context is
    done. *)
Fixpoint run_initial (fuel : nat) (proofs : nat → result (Post * PostInfo))
    (attempt : nat) (sig : NodeID) : M bool :=
  match fuel with
  | O => running
  | S fuel' =>
      do r <- try (buildInitialPost (proofs attempt) sig);
      match r with
      | Ok _ => ret true                    (* break *)
      | Err _ =>
          (* failed to generate initial proof *)
          do currentLayer <- CurrentLayer env;
          emit (EvAwaitLayer (wrap32 (currentLayer + 1)));;
          do c <- ctx_Err env;
          match c with
          | Some _ => ret false             (* return *)
          | None => run_initial fuel' proofs (S attempt) sig
          end
      end
  end.

(** [b.run(ctx, sig)]. *)
Definition run (fuel : nat) (proofs : nat → result (Post * PostInfo))
    (sig : NodeID) : M unit :=
  do ready <- run_initial fuel proofs 0 sig;
  if ready then run_publish env conf fuel sig else ret tt.

End InitialPost.

(** ** Re-gossip *)

Section Regossip.

Context (env : Env).

(** What [b.cdb] answers to [atxs.GetIDByEpochAndNodeID] and to
    [atxs.GetBlob] when [Regossip] runs. *)
Context (GetIDByEpochAndNodeID : EpochID → NodeID → result ATXID).
Context (GetBlob : ATXID → result (list Z)).

(** [b.Regossip(ctx, nodeID)]. *)
Definition Regossip (nodeID : NodeID) : M unit :=
  do layer <- CurrentLayer env;
  let epoch := GetEpoch env layer in
  match GetIDByEpochAndNodeID epoch nodeID with
  | Err err =>
      if errors_Is err ErrNotFound then ret tt else fail err
  | Ok atx =>
      match GetBlob atx with
      | Err err => fail (Errorf "get blob" err)
      | Ok blob =>
          if decide (length blob = 0%nat) then ret tt      (* checkpoint *)
          else
            do n <- ask OPublish;
            let r := Publish env n blob in
            emit (EvPublish blob r);;
            match r with
            | Some err => fail (Errorf "republish" err)
            | None => ret tt
            end
      end
  end.

End Regossip.
(** * Reasoning about builder code *)

Local Close Scope string_scope.

#[local] Set Warnings "-clear-no-such-hyp".

Arguments notRejected _ _ /.

(** Unfolding the monad and the calls to collaborators, then reading the
    fields of the resulting world. *)
Ltac go_fields :=
  cbn [record bump
       set_challenges set_initialPosts set_proverState set_postStates set_started
       challenges initialPosts proverState postStates signers started
       coinbaseAccount atxStore calls trace fst snd oracle_ix Nat.eqb].

Ltac go_code :=
  cbv beta iota delta
    [bind ret fail exit running get modify ask emit wrapping try
     ctx_Err CurrentLayer time_Now time_Until postStates_Set ResetState
     localDB_Challenge localDB_RemoveChallenge localDB_AddChallenge
     localDB_InitialPost localDB_RemoveInitialPost cdb_GetLastAtx
     cdb_GetIDWithMaxHeight validator_VerifyChain validator_Post
     nipostBuilder_BuildNIPost Coinbase randomDurationInRange
     buildNipostChallengeStartDeadline].

Ltac go := go_code; go_fields.

(** Case analysis on the answer that blocks the execution. *)
Ltac split_answer :=
  match goal with
  | |- context [match ?x with _ => _ end] =>
      lazymatch x with
      | context [match _ with _ => _ end] => fail
      | _ => destruct x eqn:?
      end
  end.

(** What a call leaves alone: everything the builder persists or owns,
    except the call counters and the trace. *)
Definition same_state (w w' : World) : Prop :=
  challenges w' = challenges w ∧ initialPosts w' = initialPosts w ∧
  proverState w' = proverState w ∧ postStates w' = postStates w ∧
  signers w' = signers w ∧ started w' = started w ∧
  coinbaseAccount w' = coinbaseAccount w ∧ atxStore w' = atxStore w.

(** The stored ATXs that a rejection set still lets through: what bounds
    the iterations of [findFullyValidHighTickAtx]. *)
Definition candidates (store : list ATXHeader) (rejectedAtxs : gset Z) : nat :=
  length (filter (λ h, hdr_ID h ∉ rejectedAtxs) store).

(** The trace of a rejected candidate. *)
Definition rejection (r : ATXID * error) : Event :=
  EvVerifyChain r.1 (Some r.2).

(** The trace only grows. *)
Definition extends (w w' : World) : Prop :=
  ∃ tr, trace w' = trace w ++ tr.

(** A call that ended, with a value or with an error. *)
Definition ended {A} (o : outcome A) : Prop :=
  match o with
  | Return _ | Fail _ => True
  | Exit | Running => False
  end.

(** In the words of the spec: [id] is the id of a known ATX of highest tick
    height among those not in the rejection set. *)
Definition highest (store : list ATXHeader) (rejected : list ATXID)
    (id : ATXID) : Prop :=
  (id ∉ rejected) ∧
  (∃ h, h ∈ store ∧ hdr_ID h = id ∧
        ∀ h', h' ∈ store → hdr_ID h' ∉ rejected →
              hdr_TickHeight h' ≤ hdr_TickHeight h).

(** In the words of the spec: the epoch a fresh challenge is built for.
    Take the maximum of the current epoch and the epoch of the last known
    ATX of the identity; if the poet round of that epoch does not start
    strictly in the future, advance to the next epoch. *)
Definition spec_targetEpoch (env : Env) (conf : Config) (current : EpochID)
    (last : option EpochID) (now : Time) : EpochID :=
  let e := match last with
           | Some l => Z.max current l
           | None => current
           end in
  if decide (now < poetRoundStart env conf e) then e else e + 1.

(** The publish epoch of the last known ATX, if [GetLastAtx] found one. *)
Definition lastEpoch (prev : result ATXHeader) : option EpochID :=
  match prev with
  | Ok p => Some (hdr_PublishEpoch p)
  | Err _ => None
  end.

(** Epochs for which the [uint32] arithmetic of the builder does not wrap. *)
Definition epoch_in_range (e : EpochID) : Prop := 0 ≤ e ∧ e + 2 < 2 ^ 32.

(** The deadline of [buildNipostChallengeStartDeadline] for a given draw of
    the random source. *)
Definition jitterOf (gracePeriod : Duration) (draw : Z) : Duration :=
  draw mod (Z.quot gracePeriod 100 + 1).

(** Collaborators that do not fail: a context that is never done, databases
    that answer, a prover whose state can be reset. *)
Definition healthy (env : Env) : Prop :=
  (∀ n, ctxErr env n = None) ∧ (∀ n, localDBFault env n = None) ∧
  (∀ n, resetStateErr env n = None) ∧ (∀ n, cdbFault env n = None).

(** The identity can be given a challenge: it has a last ATX, or it has
    none and its initial proof is stored and valid. *)
Definition can_build (env : Env) (w : World) (nodeID : NodeID) : Prop :=
  ∀ n, match GetLastAtx env n nodeID with
       | Ok _ => True
       | Err e => errors_Is e ErrNotFound = true ∧
                  is_Some (initialPosts w !! nodeID) ∧
                  ∀ m, validatePost env m = None
       end.

(** In the words of the spec: the VRF nonce an ATX carries.  An initial
    ATX always carries the fresh nonce; another one carries it only if it
    differs from the nonce recorded for the identity, and carries none when
    that record cannot be read. *)
Definition spec_nonce (ch : NIPostChallenge) (fresh : Z) (recorded : result Z)
    : option Z :=
  if decide (PrevATXID ch = EmptyATXID) then Some fresh
  else match recorded with
       | Ok old => if decide (fresh = old) then None else Some fresh
       | Err _ => None
       end.

(** The two errors of [createAtx] for a publish epoch that has passed. *)
Definition expiredError (ch : NIPostChallenge) : error :=
  match InitialPost ch with
  | Some _ => ErrorsNew "atx publish epoch has passed during nipost construction"
  | None => Errorf "atx publish epoch has passed during nipost construction"
              (Sentinel ErrATXChallengeExpired)
  end.

(** The trace of a broadcast of [buf] that failed with [e]. *)
Definition failedPublish (buf : list Z) (e : error) : Event :=
  EvPublish buf (Some e).

(** What the loop of [StopSmeshing] does for one identity: a reset of the
    prover that fails, or one that succeeds followed by the removal of the
    challenge. *)
Definition resetSteps (sig : NodeID) (evs : list Event) : Prop :=
  (∃ e, evs = [EvResetState sig (Some e)]) ∨
  (∃ r, evs = [EvResetState sig None; EvRemoveChallenge sig r]).

(** The error [StopSmeshing] makes of a failed call. *)
Definition failure_of (ev : Event) : option error :=
  match ev with
  | EvResetState _ (Some e) => Some (Errorf "reset builder state for id" e)
  | EvRemoveChallenge _ (Some e) => Some (Errorf "remove nipost challenge for id" e)
  | _ => None
  end.

(** The failures of a trace, joined in order onto [acc]. *)
Definition joinFailures (acc : option error) (tr : list Event) : option error :=
  foldl (λ acc ev, match failure_of ev with
                   | Some e => errors_Join acc (Some e)
                   | None => acc
                   end) acc tr.

(** ** Concrete collaborators and states

    A node with layers of one second and epochs of ten layers, at layer 70
    unless the clock says otherwise; a publisher that fails twice before it
    accepts a message; a store of three ATXs, 100 above 101 above 102, of
    which 100 does not verify. *)

Definition demo_hdr (id height : Z) : ATXHeader :=
  {| hdr_ID := id; hdr_NodeID := 9; hdr_PublishEpoch := 6;
     hdr_Sequence := 3; hdr_TickHeight := height |}.

Definition demo_env (ctx : nat → option error) (clock : nat → LayerID)
    (reset : nat → option error) (last : result ATXHeader)
    (vrf : result Z) : Env :=
  {| ctxErr := ctx;
     currentLayer := clock;
     GetEpoch := λ l, l / 10;
     FirstLayer := λ e, wrap32 (e * 10);
     LayerToTime := λ l, l * 1000;
     timeNow := λ _, 71000;
     randInt63 := λ _, 12345;
     localDBFault := λ _, None;
     resetStateErr := reset;
     GetLastAtx := λ _ _, last;
     cdbFault := λ _, None;
     VerifyChain := λ _ id, if decide (id = 100) then Some (External 7) else None;
     validatePost := λ _, None;
     BuildNIPost := λ _ _ _, Ok {| ns_NIPost := 1; ns_NumUnits := 2; ns_VRFNonce := 3 |};
     VRFNonce := λ _ _ _, vrf;
     Sign := λ _ _, 9;
     Initialize := λ _, None;
     Encode := λ a, Ok [PublishEpoch (atx_Challenge a); atx_NIPost a;
                        atx_NumUnits a; atx_Signature a];
     Publish := λ n _, if (n <? 2)%nat then Some (External 5) else None;
     egWait := λ _, None |}.

Definition demo_conf : Config :=
  {| GoldenATXID := 42; LabelsPerUnit := 1; PhaseShift := 500;
     GracePeriod := 200; poetRetryInterval := 5; postValidityDelay := 1 |}.

(** A challenge for epoch 5, stale at epoch 7, and one for epoch 8. *)
Definition demo_stale : NIPostChallenge :=
  {| PublishEpoch := 5; Sequence := 2; PrevATXID := 11; PositioningATX := 12;
     CommitmentATX := None; InitialPost := None |}.

Definition demo_fresh : NIPostChallenge :=
  {| PublishEpoch := 8; Sequence := 4; PrevATXID := 11; PositioningATX := 101;
     CommitmentATX := None; InitialPost := None |}.

Definition demo_world (ch : NIPostChallenge) : World :=
  {| challenges := {[ 1 := ch ]};
     initialPosts := ∅;
     proverState := {[ 1 ]};
     postStates := ∅;
     signers := [1; 2];
     started := true;
     coinbaseAccount := 77;
     atxStore := [demo_hdr 100 30; demo_hdr 101 20; demo_hdr 102 10];
     calls := λ _, 0%nat;
     trace := [] |}.

(** A clock that stays in epoch 7, and one that is in epoch 9 from its
    third reading on. *)
Definition clock_steady : nat → LayerID := λ _, 70.
Definition clock_late : nat → LayerID := λ n, if (n <? 2)%nat then 70 else 95.

(** A prover whose state can be reset, and one whose first reset fails. *)
Definition reset_ok : nat → option error := λ _, None.
Definition reset_fails_once : nat → option error :=
  λ n, if (n <? 1)%nat then Some (External 3) else None.

(** A context that is never done, and one that is cancelled. *)
Definition ctx_open : nat → option error := λ _, None.
Definition ctx_cancelled : nat → option error := λ _, Some (Sentinel Canceled).

(** The last ATX of the identity: one of epoch 6, or none. *)
Definition last_known : result ATXHeader := Ok (demo_hdr 11 5).
Definition last_none : result ATXHeader := Err (Sentinel ErrNotFound).

Definition env_steady : Env :=
  demo_env ctx_open clock_steady reset_ok last_known (Ok 3).
Definition env_late : Env :=
  demo_env ctx_open clock_late reset_ok last_known (Ok 3).
Definition env_unreadable : Env :=
  demo_env ctx_open clock_steady reset_ok last_known (Err (External 8)).
Definition env_reset_fails : Env :=
  demo_env ctx_open clock_steady reset_fails_once last_known (Ok 3).
Definition env_cancelled : Env :=
  demo_env ctx_cancelled clock_steady reset_ok last_known (Ok 3).
Definition env_initial : Env :=
  demo_env ctx_open clock_steady reset_ok last_none (Ok 3).

(** An identity without ATX and without challenge, its initial proof
    stored. *)
Definition demo_initial_post : InitialPostRecord :=
  {| ip_Nonce := 4; ip_Indices := [1; 2; 3]; ip_Pow := 6; ip_NumUnits := 2;
     ip_CommitmentATX := 55; ip_VRFNonce := 3 |}.

Definition world_initial : World :=
  {| challenges := ∅;
     initialPosts := {[ 1 := demo_initial_post ]};
     proverState := ∅;
     postStates := ∅;
     signers := [1];
     started := true;
     coinbaseAccount := 77;
     atxStore := [];
     calls := λ _, 0%nat;
     trace := [] |}.

(** The state in which [createAtx] is entered for the challenge of epoch 8,
    the ATX it returns with a steady clock, and the state it leaves. *)
Definition world_built (env : Env) : World :=
  snd (BuildNIPostChallenge env demo_conf 1 (demo_world demo_fresh)).

Definition demo_atx (nonce : option Z) : ActivationTx :=
  {| atx_Challenge := demo_fresh; atx_Coinbase := 77; atx_NIPost := 1;
     atx_NumUnits := 2; atx_VRFNonce := nonce; atx_NodeID := None;
     atx_SmesherID := 1; atx_Signature := 9 |}.

Definition world_created (env : Env) : World :=
  snd (createAtx env 1 demo_fresh (bump OClock (world_built env))).


(** ** Reasoning about the lifecycle, the initial proof and re-gossip *)

Ltac run_fields :=
  cbn [record bump
       set_challenges set_initialPosts set_proverState set_postStates set_started
       set_signers set_coinbaseAccount
       challenges initialPosts proverState postStates signers started
       coinbaseAccount atxStore calls trace fst snd oracle_ix Nat.eqb].

Ltac run_code :=
  cbv beta iota delta
    [bind ret fail exit running get modify ask emit wrapping try
     ctx_Err CurrentLayer time_Now time_Until postStates_Set ResetState
     localDB_Challenge localDB_RemoveChallenge localDB_AddChallenge
     localDB_InitialPost localDB_RemoveInitialPost localDB_AddInitialPost
     cdb_GetLastAtx
     cdb_GetIDWithMaxHeight validator_VerifyChain validator_Post
     nipostBuilder_BuildNIPost Coinbase SetCoinbase Smeshing SmesherIDs
     randomDurationInRange buildNipostChallengeStartDeadline].

Ltac run_go := run_code; run_fields.

(** The context and the identity of a goroutine. *)
Definition task_ctx (t : Task) : BuilderCtx :=
  match t with
  | RunLoop ctx _ | RegossipLoop ctx _ => ctx
  end.

Definition task_sig (t : Task) : NodeID :=
  match t with
  | RunLoop _ sig | RegossipLoop _ sig => sig
  end.

(** What the work for one identity leaves alone: what is kept for the
    other identities, and what the builder keeps for all of them. *)
Definition isolated (id : NodeID) (w w' : World) : Prop :=
  (∀ id', id' ≠ id → challenges w' !! id' = challenges w !! id') ∧
  (∀ id', id' ≠ id → initialPosts w' !! id' = initialPosts w !! id') ∧
  (∀ id', id' ≠ id → postStates w' !! id' = postStates w !! id') ∧
  (∀ id', id' ≠ id → id' ∈ proverState w' ↔ id' ∈ proverState w) ∧
  signers w' = signers w ∧ started w' = started w ∧
  coinbaseAccount w' = coinbaseAccount w ∧ atxStore w' = atxStore w.

(** The record [buildInitialPost] makes of what the prover returned. *)
Definition initialPostOf (post : Post) (info : PostInfo) (vrfNonce : Z)
    : InitialPostRecord :=
  {| ip_Nonce := post_Nonce post; ip_Indices := post_Indices post;
     ip_Pow := post_Pow post; ip_NumUnits := pi_NumUnits info;
     ip_CommitmentATX := pi_CommitmentATX info; ip_VRFNonce := vrfNonce |}.

(** The waits of the first loop of [run] after [k] failed attempts,
    beginning with the reading number [n] of the layer clock: each one for
    the layer after the current one. *)
Definition awaitedLayers (env : Env) (n k : nat) : list Event :=
  (λ j, EvAwaitLayer (wrap32 (currentLayer env (n + j)%nat + 1))) <$> seq 0 k.

(** ** More concrete collaborators and states *)

(** The concrete node with some of its collaborators replaced: the
    context, the validator of proofs, the NIPost builder and the encoder. *)
Definition env_with (ctx : nat → option error) (validate : nat → option error)
    (build : nat → NodeID → NIPostChallenge → result NIPostState)
    (encode : ActivationTx → result (list Z)) (env : Env) : Env :=
  {| ctxErr := ctx;
     currentLayer := currentLayer env;
     GetEpoch := GetEpoch env;
     FirstLayer := FirstLayer env;
     LayerToTime := LayerToTime env;
     timeNow := timeNow env;
     randInt63 := randInt63 env;
     localDBFault := localDBFault env;
     resetStateErr := resetStateErr env;
     GetLastAtx := GetLastAtx env;
     cdbFault := cdbFault env;
     VerifyChain := VerifyChain env;
     validatePost := validate;
     BuildNIPost := build;
     VRFNonce := VRFNonce env;
     Sign := Sign env;
     Initialize := Initialize env;
     Encode := encode;
     Publish := Publish env;
     egWait := egWait env |}.

(** A context that is done from its [n]-th look on. *)
Definition ctx_cancelled_from (n : nat) : nat → option error :=
  λ k, if (k <? n)%nat then None else Some (Sentinel Canceled).

(** The builder before [StartSmeshing], with identities 1 and 2. *)
Definition world_stopped : World := set_started false (demo_world demo_stale).

Definition demo_tasks : list Task :=
  [RunLoop SmeshingCtx 1; RegossipLoop SmeshingCtx 1;
   RunLoop SmeshingCtx 2; RegossipLoop SmeshingCtx 2].

Definition world_started : World :=
  set_started true (set_coinbaseAccount 88 world_stopped).

(** An identity without ATX and without initial proof; what the prover
    returns for it; a prover that fails twice before it returns that; and
    the node with a context that is done. *)
Definition world_no_proof : World := set_initialPosts (λ _, ∅) world_initial.

Definition demo_post : Post :=
  {| post_Nonce := 4; post_Indices := [1; 2; 3]; post_Pow := 6 |}.

Definition demo_info : PostInfo :=
  {| pi_NumUnits := 2; pi_CommitmentATX := 55; pi_Nonce := Some 3;
     pi_LabelsPerUnit := 1 |}.

Definition demo_proofs : nat → result (Post * PostInfo) :=
  λ n, if (n <? 2)%nat then Err (External 1) else Ok (demo_post, demo_info).

Definition env_initial_cancelled : Env :=
  demo_env ctx_cancelled clock_steady reset_ok last_none (Ok 3).

(** The node with a validator that rejects the initial proof; with an
    encoder that fails and a context that is done at its third look; with a
    poet that is not ready; and with a context that is done from its second
    look on. *)
Definition env_invalid : Env :=
  env_with ctx_open (λ _, Some (External 4)) (BuildNIPost env_initial)
    (Encode env_initial) env_initial.

Definition env_unserialisable : Env :=
  env_with (ctx_cancelled_from 2) (validatePost env_steady)
    (BuildNIPost env_steady) (λ _, Err (External 6)) env_steady.

Definition env_poet_unstable : Env :=
  env_with ctx_open (validatePost env_steady)
    (λ _ _ _, Err (Errorf "poet" (Sentinel ErrPoetServiceUnstable)))
    (Encode env_steady) env_steady.

Definition env_cancelled_late : Env :=
  env_with (ctx_cancelled_from 1) (validatePost env_steady)
    (BuildNIPost env_steady) (Encode env_steady) env_steady.

Definition world_reset_failed : World :=
  snd (BuildNIPostChallenge env_reset_fails demo_conf 1 (demo_world demo_stale)).

(** An identity without ATX whose first challenge, for epoch 8 and with
    its initial proof, is persisted; the node with the clock that is in
    epoch 9 from its third reading on; and the state in which [createAtx]
    is entered for that challenge. *)
Definition demo_initial_challenge : NIPostChallenge :=
  {| PublishEpoch := 8; Sequence := 0; PrevATXID := EmptyATXID;
     PositioningATX := 42; CommitmentATX := Some 55;
     InitialPost := Some demo_post |}.

Definition world_initial_challenge : World :=
  set_challenges (λ _, {[ 1 := demo_initial_challenge ]}) world_initial.

Definition env_initial_late : Env :=
  demo_env ctx_open clock_late reset_ok last_none (Ok 3).

Definition world_initial_built : World :=
  snd (BuildNIPostChallenge env_initial_late demo_conf 1 world_initial_challenge).

(** One turn of the second loop of [run] for that challenge, and two. *)
Definition initial_turn : outcome unit * World :=
  PublishActivationTx env_initial_late demo_conf 2 1 world_initial_challenge.

Definition initial_loop : outcome unit * World :=
  run_publish env_initial_late demo_conf 2 1 world_initial_challenge.

Ltac same_state_now := unfold same_state; go_fields; repeat split; done.

Lemma same_state_refl w : same_state w w.
Proof. repeat split. Qed.

Lemma same_state_trans w1 w2 w3 :
  same_state w1 w2 → same_state w2 w3 → same_state w1 w3.
Proof.
  unfold same_state. intros (?&?&?&?&?&?&?&?) (?&?&?&?&?&?&?&?).
  repeat split; congruence.
Qed.

(** ** errors.Is *)

Lemma errors_Is_Errorf msg e s : errors_Is (Errorf msg e) s = errors_Is e s.
Proof. reflexivity. Qed.

(** ** The challenge table *)

Lemma AddChallenge_taken db nodeID ch1 ch2 :
  db !! nodeID = Some ch1 → ∃ e, nipost.AddChallenge db nodeID ch2 = Err e.
Proof. intros H. unfold nipost.AddChallenge. rewrite H. eauto. Qed.

Lemma AddChallenge_free db nodeID ch :
  db !! nodeID = None →
  nipost.AddChallenge db nodeID ch = Ok (<[nodeID := ch]> db).
Proof. intros H. unfold nipost.AddChallenge. by rewrite H. Qed.

(** C2. A second challenge for an identity that has one persisted is
    refused: [AddChallenge] returns an error, the table is left as it was and
    the first challenge is still what [Challenge] returns; the same holds of
    the builder's call, which leaves the whole state as it was.  Adding a
    challenge for another identity that has none succeeds, and both
    challenges can then be read back. *)
Theorem AddChallenge_second_refused (env : Env) (w : World)
    (nodeID other : NodeID) (ch1 ch2 : NIPostChallenge) :
  challenges w !! nodeID = Some ch1 →
  challenges w !! other = None →
  (∃ e, nipost.AddChallenge (challenges w) nodeID ch2 = Err e) ∧
  nipost.Challenge (challenges w) nodeID = Ok ch1 ∧
  (∃ e w', localDB_AddChallenge env nodeID ch2 w = (Return (Some e), w') ∧
           same_state w w' ∧ nipost.Challenge (challenges w') nodeID = Ok ch1) ∧
  (∃ db', nipost.AddChallenge (challenges w) other ch2 = Ok db' ∧
          nipost.Challenge db' other = Ok ch2 ∧
          nipost.Challenge db' nodeID = Ok ch1).
Proof.
  intros H1 H2.
  assert (Hne : other ≠ nodeID) by congruence.
  split; [by eapply AddChallenge_taken|].
  split; [unfold nipost.Challenge; by rewrite H1|].
  split.
  - unfold localDB_AddChallenge. go.
    destruct (localDBFault env (calls w OLocalDB)) as [e|].
    + go. eexists _, _. split; [reflexivity|]. go.
      split; [same_state_now|].
      unfold nipost.Challenge. by rewrite H1.
    + destruct (AddChallenge_taken _ _ _ ch2 H1) as [e He]. rewrite He. go.
      eexists _, _. split; [reflexivity|]. go.
      split; [same_state_now|].
      unfold nipost.Challenge. by rewrite H1.
  - eexists. split; [by apply AddChallenge_free|].
    unfold nipost.Challenge.
    rewrite lookup_insert_eq, lookup_insert_ne, H1 by done. done.
Qed.

(** ** The positioning ATX *)

Lemma maxHeight_Some f store : ∀ best h,
  atxs.maxHeight f store best = Some h →
  ((h ∈ store ∧ f (hdr_ID h) = true) ∨ best = Some h) ∧
  (∀ h', h' ∈ store → f (hdr_ID h') = true →
         hdr_TickHeight h' ≤ hdr_TickHeight h) ∧
  (∀ b, best = Some b → hdr_TickHeight b ≤ hdr_TickHeight h).
Proof.
  induction store as [|x store IH]; intros best h Hm; cbn in Hm.
  - subst best. split; [by right|]. split.
    + intros h' Hin. by apply elem_of_nil in Hin.
    + intros b [= ->]. lia.
  - destruct (f (hdr_ID x)) eqn:Hfx.
    + destruct best as [b|].
      * destruct (Z.ltb_spec (hdr_TickHeight b) (hdr_TickHeight x)) as [Hlt|Hge].
        -- destruct (IH _ _ Hm) as (Hsrc & Hmax & Hbest).
           specialize (Hbest x eq_refl).
           split; [|split].
           ++ left. destruct Hsrc as [[Hin Hf]|[= <-]].
              ** split; [by apply elem_of_cons; right|done].
              ** split; [by apply elem_of_cons; left|done].
           ++ intros h' Hin Hf. apply elem_of_cons in Hin as [->|Hin]; auto.
           ++ intros b' [= <-]. lia.
        -- destruct (IH _ _ Hm) as (Hsrc & Hmax & Hbest).
           specialize (Hbest b eq_refl).
           split; [|split].
           ++ destruct Hsrc as [[Hin Hf]|Heq]; [left|by right].
              split; [by apply elem_of_cons; right|done].
           ++ intros h' Hin Hf. apply elem_of_cons in Hin as [->|Hin]; auto. lia.
           ++ intros b' [= <-]. lia.
      * destruct (IH _ _ Hm) as (Hsrc & Hmax & Hbest).
        specialize (Hbest x eq_refl).
        split; [|split].
        -- left. destruct Hsrc as [[Hin Hf]|[= <-]].
           ++ split; [by apply elem_of_cons; right|done].
           ++ split; [by apply elem_of_cons; left|done].
        -- intros h' Hin Hf. apply elem_of_cons in Hin as [->|Hin]; auto.
        -- intros b' [=].
    + destruct (IH _ _ Hm) as (Hsrc & Hmax & Hbest).
      split; [|split]; [|intros h' Hin Hf|done].
      * destruct Hsrc as [[Hin Hf]|Heq]; [left|by right].
        split; [by apply elem_of_cons; right|done].
      * apply elem_of_cons in Hin as [->|Hin]; [congruence|auto].
Qed.

Lemma maxHeight_None f store : ∀ best,
  atxs.maxHeight f store best = None →
  best = None ∧ ∀ h, h ∈ store → f (hdr_ID h) = false.
Proof.
  induction store as [|x store IH]; intros best Hm; cbn in Hm.
  - split; [done|]. intros h Hin. by apply elem_of_nil in Hin.
  - destruct (f (hdr_ID x)) eqn:Hfx.
    + destruct best as [b|].
      * destruct (hdr_TickHeight b <? hdr_TickHeight x);
          by destruct (IH _ Hm) as [? _].
      * by destruct (IH _ Hm) as [? _].
    + destruct (IH _ Hm) as [-> Hall]. split; [done|].
      intros h Hin. apply elem_of_cons in Hin as [->|Hin]; auto.
Qed.

Lemma GetIDWithMaxHeight_Ok store pref f id :
  atxs.GetIDWithMaxHeight store pref f = Ok id →
  f id = true ∧
  ∃ h, h ∈ store ∧ hdr_ID h = id ∧
       ∀ h', h' ∈ store → f (hdr_ID h') = true →
             hdr_TickHeight h' ≤ hdr_TickHeight h.
Proof.
  unfold atxs.GetIDWithMaxHeight.
  destruct (atxs.maxHeight f store None) as [h|] eqn:Hm; [|done].
  intros [= <-]. destruct (maxHeight_Some _ _ _ _ Hm) as ([[Hin Hf]|?] & Hmax & _); [|done].
  split; [done|]. by exists h.
Qed.

Lemma GetIDWithMaxHeight_Err store pref f e :
  atxs.GetIDWithMaxHeight store pref f = Err e →
  e = Sentinel ErrNotFound ∧ ∀ h, h ∈ store → f (hdr_ID h) = false.
Proof.
  unfold atxs.GetIDWithMaxHeight.
  destruct (atxs.maxHeight f store None) as [h|] eqn:Hm; [done|].
  intros [= <-]. by destruct (maxHeight_None _ _ _ Hm) as [_ ?].
Qed.

Lemma candidates_le store rej : (candidates store rej ≤ length store)%nat.
Proof. apply length_filter. Qed.

Lemma candidates_mono store rej id :
  (candidates store ({[id]} ∪ rej) ≤ candidates store rej)%nat.
Proof.
  unfold candidates. induction store as [|x store IH]; [done|].
  rewrite !filter_cons.
  destruct (decide (hdr_ID x ∉ {[id]} ∪ rej)) as [Hx|Hx].
  - rewrite decide_True by set_solver. cbn. lia.
  - destruct (decide (hdr_ID x ∉ rej)); cbn; lia.
Qed.

Lemma candidates_decrease store rej id :
  (∃ h, h ∈ store ∧ hdr_ID h = id) → id ∉ rej →
  (candidates store ({[id]} ∪ rej) < candidates store rej)%nat.
Proof.
  intros (h & Hin & Hid) Hrej. unfold candidates.
  induction store as [|x store IH]; [by apply elem_of_nil in Hin|].
  rewrite !filter_cons.
  apply elem_of_cons in Hin as [<-|Hin].
  - rewrite decide_False by set_solver.
    rewrite decide_True by (by rewrite Hid).
    cbn. pose proof (candidates_mono store rej id) as Hm.
    unfold candidates in Hm. lia.
  - specialize (IH Hin).
    destruct (decide (hdr_ID x ∉ {[id]} ∪ rej)) as [Hx|Hx].
    + rewrite decide_True by set_solver. cbn. lia.
    + destruct (decide (hdr_ID x ∉ rej)); cbn; lia.
Qed.

(** The loop, with a context that is never done and a database that
    answers: it ends, within the iterations that the candidates allow, on the
    first candidate that verifies or on [sql.ErrNotFound]; the candidates it
    tried before are each the highest not yet rejected, all different. *)
Lemma findLoop_run env pref golden : ∀ fuel rej w,
  (∀ n, ctxErr env n = None) → (∀ n, cdbFault env n = None) →
  (candidates (atxStore w) rej < fuel)%nat →
  ∃ (failed : list (ATXID * error)) (out : outcome ATXID) (w' : World),
    findLoop env fuel pref golden rej w = (out, w') ∧
    same_state w w' ∧
    NoDup failed.*1 ∧ (∀ id, id ∈ failed.*1 → id ∉ rej) ∧
    (∀ k r, failed !! k = Some r →
       atxs.GetIDWithMaxHeight (atxStore w) pref
         (notRejected (list_to_set (take k failed.*1) ∪ rej)) = Ok r.1 ∧
       VerifyChain env (calls w OVerifyChain + k)%nat r.1 = Some r.2) ∧
    ((∃ id, out = Return id ∧
        atxs.GetIDWithMaxHeight (atxStore w) pref
          (notRejected (list_to_set failed.*1 ∪ rej)) = Ok id ∧
        VerifyChain env (calls w OVerifyChain + length failed)%nat id = None ∧
        trace w' = trace w ++ (rejection <$> failed) ++ [EvVerifyChain id None])
     ∨ (out = Fail (Sentinel ErrNotFound) ∧
        atxs.GetIDWithMaxHeight (atxStore w) pref
          (notRejected (list_to_set failed.*1 ∪ rej)) = Err (Sentinel ErrNotFound) ∧
        trace w' = trace w ++ (rejection <$> failed))).
Proof.
  induction fuel as [|fuel IH]; intros rej w Hctx Hcdb Hfuel; [lia|].
  cbn [findLoop]. go. rewrite Hctx, Hcdb. go.
  destruct (atxs.GetIDWithMaxHeight (atxStore w) pref (notRejected rej))
    as [id|e] eqn:Hget; go.
  - destruct (VerifyChain env (calls w OVerifyChain) id) as [e|] eqn:Hv; go.
    + (* rejected: one more round *)
      destruct (GetIDWithMaxHeight_Ok _ _ _ _ Hget) as (Hf & h & Hin & Hid & _).
      assert (Hnot : id ∉ rej) by (cbn in Hf; by apply bool_decide_eq_true in Hf).
      set (w1 := record _ _).
      assert (Hs1 : same_state w w1) by (subst w1; same_state_now).
      assert (Hst : atxStore w1 = atxStore w) by apply Hs1.
      destruct (IH ({[id]} ∪ rej) w1 Hctx Hcdb) as
        (failed & out & w' & Hrun & Hs & Hnd & Hrej & Hsteps & Hend).
      { rewrite Hst.
        assert (Hd := candidates_decrease (atxStore w) rej id
                        (ex_intro _ h (conj Hin Hid)) Hnot).
        lia. }
      exists ((id, e) :: failed), out, w'.
      split; [exact Hrun|].
      split; [by eapply same_state_trans|].
      split.
      { cbn. apply NoDup_cons. split; [|done].
        intros Hin'. apply Hrej in Hin'. set_solver. }
      split.
      { intros i Hi. cbn in Hi. apply elem_of_cons in Hi as [->|Hi]; [done|].
        apply Hrej in Hi. set_solver. }
      assert (Hset : ∀ l : list Z,
                 list_to_set (C := gset Z) (id :: l) ∪ rej
                 = list_to_set l ∪ ({[id]} ∪ rej)) by (intros; set_solver).
      split.
      { intros [|k] r Hk.
        - cbn in Hk. injection Hk as <-. cbn [fst snd]. rewrite take_0.
          replace (list_to_set (C := gset Z) [] ∪ rej) with rej by set_solver.
          rewrite Nat.add_0_r. done.
        - cbn in Hk. destruct (Hsteps k r Hk) as [Hg Hvk].
          cbn [fmap list_fmap fst]. rewrite firstn_cons, Hset.
          rewrite Hst in Hg. split; [exact Hg|].
          subst w1. revert Hvk. go_fields.
          by replace (S (calls w OVerifyChain) + k)%nat
            with (calls w OVerifyChain + S k)%nat by lia. }
      cbn [fmap list_fmap fst]. rewrite Hset. rewrite Hst in Hend.
      assert (Htr : trace w1 = trace w ++ [rejection (id, e)])
        by (subst w1; reflexivity).
      assert (Hcalls : calls w1 OVerifyChain = S (calls w OVerifyChain))
        by (subst w1; reflexivity).
      rewrite Htr, Hcalls in Hend.
      destruct Hend as [(i & -> & Hg & Hvi & Ht)|(-> & Hg & Ht)].
      * left. exists i. split; [done|]. split; [done|]. split.
        -- cbn [length]. by replace (calls w OVerifyChain + S (length failed))%nat
             with (S (calls w OVerifyChain) + length failed)%nat by lia.
        -- rewrite Ht. cbn [fmap list_fmap]. by rewrite <- !app_assoc.
      * right. split; [done|]. split; [done|].
        rewrite Ht. cbn [fmap list_fmap]. by rewrite <- !app_assoc.
    + (* verified *)
      exists [], (Return id), (record (EvVerifyChain id None)
                  (bump OVerifyChain (bump OCdb (bump OCtx w)))).
      split; [done|]. split; [same_state_now|].
      split; [constructor|]. split; [intros i Hi; by apply elem_of_nil in Hi|].
      split; [intros k r Hk; done|].
      left. exists id. cbn [fmap list_fmap length].
      replace (list_to_set (C := gset Z) [] ∪ rej) with rej by set_solver.
      rewrite Nat.add_0_r. done.
  - destruct (GetIDWithMaxHeight_Err _ _ _ _ Hget) as [-> _].
    exists [], (Fail (Sentinel ErrNotFound)), (bump OCdb (bump OCtx w)).
    split; [done|]. split; [same_state_now|].
    split; [constructor|]. split; [intros i Hi; by apply elem_of_nil in Hi|].
    split; [intros k r Hk; done|].
    right. cbn [fmap list_fmap].
    replace (list_to_set (C := gset Z) [] ∪ rej) with rej by set_solver.
    split; [done|]. split; [done|]. go_fields. by rewrite app_nil_r.
Qed.

Lemma extends_refl w : extends w w.
Proof. exists []. by rewrite app_nil_r. Qed.

Lemma extends_trans w1 w2 w3 : extends w1 w2 → extends w2 w3 → extends w1 w3.
Proof.
  intros [t1 H1] [t2 H2]. exists (t1 ++ t2). by rewrite H2, H1, app_assoc.
Qed.

Lemma extends_record w w' ev : extends w w' → extends w (record ev w').
Proof.
  intros [t H]. exists (t ++ [ev]). cbn. by rewrite H, app_assoc.
Qed.

Ltac extends_now :=
  repeat (apply extends_record); go_fields;
  first [apply extends_refl | exists []; go_fields; by rewrite app_nil_r].

(** Whatever the collaborators answer, the loop ends within the
    iterations that the candidates allow, and touches nothing but the call
    counters and the trace. *)
Lemma findLoop_frame env pref golden : ∀ fuel rej w,
  (candidates (atxStore w) rej < fuel)%nat →
  ∃ out w', findLoop env fuel pref golden rej w = (out, w') ∧
            same_state w w' ∧ extends w w' ∧ ended out.
Proof.
  induction fuel as [|fuel IH]; intros rej w Hfuel; [lia|].
  cbn [findLoop]. go.
  destruct (ctxErr env (calls w OCtx)); go.
  { eexists _, _. split; [done|]. split; [same_state_now|]. split; [extends_now|done]. }
  destruct (cdbFault env (calls w OCdb)); go.
  { eexists _, _. split; [done|]. split; [same_state_now|]. split; [extends_now|done]. }
  destruct (atxs.GetIDWithMaxHeight (atxStore w) pref (notRejected rej))
    as [id|e] eqn:Hget; go.
  - destruct (VerifyChain env (calls w OVerifyChain) id) as [e|] eqn:Hv; go.
    + destruct (GetIDWithMaxHeight_Ok _ _ _ _ Hget) as (Hf & h & Hin & Hid & _).
      assert (Hnot : id ∉ rej) by (cbn in Hf; by apply bool_decide_eq_true in Hf).
      set (w1 := record _ _).
      assert (Hs1 : same_state w w1) by (subst w1; same_state_now).
      assert (He1 : extends w w1) by (subst w1; extends_now).
      destruct (IH ({[id]} ∪ rej) w1) as (out & w' & Hrun & Hs & He & Hend).
      { replace (atxStore w1) with (atxStore w) by (symmetry; apply Hs1).
        assert (Hd := candidates_decrease (atxStore w) rej id
                        (ex_intro _ h (conj Hin Hid)) Hnot).
        lia. }
      exists out, w'. split; [done|].
      split; [by eapply same_state_trans|]. split; [by eapply extends_trans|done].
    + eexists _, _. split; [done|]. split; [same_state_now|]. split; [extends_now|done].
  - eexists _, _. split; [done|]. split; [same_state_now|]. split; [extends_now|done].
Qed.

(** Iterations granted beyond what the candidates allow change nothing. *)
Lemma findLoop_fuel env pref golden : ∀ fuel fuel' rej w,
  (candidates (atxStore w) rej < fuel)%nat → (fuel ≤ fuel')%nat →
  findLoop env fuel' pref golden rej w = findLoop env fuel pref golden rej w.
Proof.
  induction fuel as [|fuel IH]; intros fuel' rej w Hfuel Hle; [lia|].
  destruct fuel' as [|fuel']; [lia|].
  cbn [findLoop]. go.
  destruct (ctxErr env (calls w OCtx)); go; [done|].
  destruct (cdbFault env (calls w OCdb)); go; [done|].
  destruct (atxs.GetIDWithMaxHeight (atxStore w) pref (notRejected rej))
    as [id|e] eqn:Hget; go; [|done].
  destruct (VerifyChain env (calls w OVerifyChain) id) as [e|]; go; [|done].
  destruct (GetIDWithMaxHeight_Ok _ _ _ _ Hget) as (Hf & h & Hin & Hid & _).
  assert (Hnot : id ∉ rej) by (cbn in Hf; by apply bool_decide_eq_true in Hf).
  apply IH; [|lia]. go_fields.
  assert (Hd := candidates_decrease (atxStore w) rej id
                  (ex_intro _ h (conj Hin Hid)) Hnot).
  lia.
Qed.

Lemma getPositioningAtx_frame env conf nodeID w :
  ∃ out w', getPositioningAtx env conf nodeID w = (out, w') ∧
            same_state w w' ∧ extends w w' ∧ ended out.
Proof.
  unfold getPositioningAtx, findFullyValidHighTickAtx. go.
  destruct (findLoop_frame env nodeID (GoldenATXID conf)
              (S (length (atxStore w))) ∅ (bump ONow w))
    as (out & w' & Hrun & Hs & He & Hend).
  { go_fields. pose proof (candidates_le (atxStore w) ∅). lia. }
  rewrite Hrun.
  assert (Hs0 : same_state w (bump ONow w)) by same_state_now.
  assert (He0 : extends w (bump ONow w)) by extends_now.
  destruct out as [id|e| |]; try done.
  - exists (Return id), w'. split; [done|].
    split; [by eapply same_state_trans|]. split; [by eapply extends_trans|done].
  - destruct (errors_Is e ErrNotFound).
    + exists (Return (GoldenATXID conf)), w'. split; [done|].
      split; [by eapply same_state_trans|]. split; [by eapply extends_trans|done].
    + exists (Fail e), w'. split; [done|].
      split; [by eapply same_state_trans|]. split; [by eapply extends_trans|done].
Qed.

Lemma notRejected_list (l : list Z) id :
  notRejected (list_to_set l ∪ ∅) id = true ↔ id ∉ l.
Proof.
  cbn. rewrite bool_decide_eq_true. set_solver.
Qed.

Lemma GetIDWithMaxHeight_highest store pref (l : list Z) id :
  atxs.GetIDWithMaxHeight store pref (notRejected (list_to_set l ∪ ∅)) = Ok id →
  highest store l id.
Proof.
  intros H. destruct (GetIDWithMaxHeight_Ok _ _ _ _ H) as (Hf & h & Hin & Hid & Hmax).
  split; [by apply notRejected_list|].
  exists h. split; [done|]. split; [done|].
  intros h' Hin' Hn. apply Hmax; [done|]. by apply notRejected_list.
Qed.

Lemma GetIDWithMaxHeight_exhausted store pref (l : list Z) e :
  atxs.GetIDWithMaxHeight store pref (notRejected (list_to_set l ∪ ∅)) = Err e →
  ∀ h, h ∈ store → hdr_ID h ∈ l.
Proof.
  intros H h Hin. destruct (GetIDWithMaxHeight_Err _ _ _ _ H) as [_ Hall].
  specialize (Hall h Hin). destruct (decide (hdr_ID h ∈ l)) as [|Hn]; [done|].
  apply notRejected_list in Hn. congruence.
Qed.

(** What [getPositioningAtx] does when the context is never done and the
    database answers. *)
Lemma getPositioningAtx_run env conf nodeID w :
  (∀ n, ctxErr env n = None) → (∀ n, cdbFault env n = None) →
  ∃ (rejected : list (ATXID * error)) (res : ATXID) (w' : World),
    getPositioningAtx env conf nodeID w = (Return res, w') ∧
    same_state w w' ∧
    NoDup rejected.*1 ∧
    (∀ k r, rejected !! k = Some r →
       highest (atxStore w) (take k rejected.*1) r.1 ∧
       VerifyChain env (calls w OVerifyChain + k)%nat r.1 = Some r.2) ∧
    ((highest (atxStore w) rejected.*1 res ∧
      VerifyChain env (calls w OVerifyChain + length rejected)%nat res = None ∧
      trace w' = trace w ++ (rejection <$> rejected) ++ [EvVerifyChain res None])
     ∨ ((∀ h, h ∈ atxStore w → hdr_ID h ∈ rejected.*1) ∧
        res = GoldenATXID conf ∧
        trace w' = trace w ++ (rejection <$> rejected))).
Proof.
  intros Hctx Hcdb.
  unfold getPositioningAtx, findFullyValidHighTickAtx. go.
  destruct (findLoop_run env nodeID (GoldenATXID conf)
              (S (length (atxStore w))) ∅ (bump ONow w) Hctx Hcdb)
    as (failed & out & w' & Hrun & Hs & Hnd & _ & Hsteps & Hend).
  { go_fields. pose proof (candidates_le (atxStore w) ∅). lia. }
  rewrite Hrun. revert Hsteps Hend. go_fields. intros Hsteps Hend.
  assert (Hs' : same_state w w').
  { eapply same_state_trans; [|exact Hs]. same_state_now. }
  assert (Hk : ∀ k r, failed !! k = Some r →
             highest (atxStore w) (take k failed.*1) r.1 ∧
             VerifyChain env (calls w OVerifyChain + k)%nat r.1 = Some r.2).
  { intros k r Hr. destruct (Hsteps k r Hr) as [Hg Hv].
    split; [by eapply GetIDWithMaxHeight_highest|done]. }
  destruct Hend as [(id & -> & Hg & Hv & Ht)|(-> & Hg & Ht)].
  - exists failed, id, w'. split; [done|]. split; [done|]. split; [done|].
    split; [done|]. left.
    split; [by eapply GetIDWithMaxHeight_highest|done].
  - cbn [errors_Is]. rewrite bool_decide_eq_true_2 by done.
    exists failed, (GoldenATXID conf), w'. split; [done|]. split; [done|].
    split; [done|]. split; [done|]. right.
    split; [by eapply GetIDWithMaxHeight_exhausted|done].
Qed.

(** C6. With a context that is never done and a database that answers,
    [getPositioningAtx] returns without error.  The candidates it validated
    and rejected are, each in its turn, an ATX of highest tick height among
    those not rejected before, and no id is validated twice.  The result is
    the first candidate whose chain verifies, itself of highest tick height
    among those not rejected; or the golden ATX when every stored ATX has
    been rejected.  In particular, when the store holds A above B above all
    the others, A never verifies and B does, the result is B and exactly A
    was rejected. *)
Theorem getPositioningAtx_rejection_loop env conf nodeID w :
  (∀ n, ctxErr env n = None) → (∀ n, cdbFault env n = None) →
  (∃ (rejected : list (ATXID * error)) (res : ATXID) (w' : World),
    getPositioningAtx env conf nodeID w = (Return res, w') ∧
    same_state w w' ∧
    NoDup rejected.*1 ∧
    (∀ k r, rejected !! k = Some r →
       highest (atxStore w) (take k rejected.*1) r.1 ∧
       VerifyChain env (calls w OVerifyChain + k)%nat r.1 = Some r.2) ∧
    ((highest (atxStore w) rejected.*1 res ∧
      VerifyChain env (calls w OVerifyChain + length rejected)%nat res = None ∧
      trace w' = trace w ++ (rejection <$> rejected) ++ [EvVerifyChain res None])
     ∨ ((∀ h, h ∈ atxStore w → hdr_ID h ∈ rejected.*1) ∧
        res = GoldenATXID conf ∧
        trace w' = trace w ++ (rejection <$> rejected)))) ∧
  (∀ (a b : ATXHeader) (ea : error),
     a ∈ atxStore w → b ∈ atxStore w → hdr_ID a ≠ hdr_ID b →
     hdr_TickHeight b < hdr_TickHeight a →
     (∀ h, h ∈ atxStore w → h = a ∨ h = b ∨ hdr_TickHeight h < hdr_TickHeight b) →
     (∀ n, VerifyChain env n (hdr_ID a) = Some ea) →
     (∀ n, VerifyChain env n (hdr_ID b) = None) →
     ∃ w', getPositioningAtx env conf nodeID w = (Return (hdr_ID b), w') ∧
           trace w' = trace w ++ [EvVerifyChain (hdr_ID a) (Some ea);
                                  EvVerifyChain (hdr_ID b) None]).
Proof.
  intros Hctx Hcdb.
  destruct (getPositioningAtx_run env conf nodeID w Hctx Hcdb)
    as (rejected & res & w' & Hrun & Hs & Hnd & Hsteps & Hend).
  split; [by exists rejected, res, w'|].
  intros a b ea Ha Hb Hab Hlt Hothers Hva Hvb.
  (* the highest of all is A *)
  assert (Hfirst : ∀ id, highest (atxStore w) [] id → id = hdr_ID a).
  { intros id (_ & h & Hin & <- & Hmax).
    assert (hdr_TickHeight a ≤ hdr_TickHeight h)
      by (apply Hmax; [done|by apply not_elem_of_nil]).
    destruct (Hothers h Hin) as [->|[->|?]]; [done|lia|lia]. }
  (* the highest once A is rejected is B *)
  assert (Hsecond : ∀ id, highest (atxStore w) [hdr_ID a] id → id = hdr_ID b).
  { intros id (Hn & h & Hin & <- & Hmax).
    assert (hdr_TickHeight b ≤ hdr_TickHeight h).
    { apply Hmax; [done|]. intros Hx. apply list_elem_of_singleton in Hx. congruence. }
    destruct (Hothers h Hin) as [->|[->|?]]; [|done|lia].
    exfalso. apply Hn. by apply list_elem_of_singleton. }
  exists w'. destruct rejected as [|[i0 e0] rest].
  - (* nothing rejected: A would have verified, or the store would be empty *)
    exfalso. destruct Hend as [(Hh & Hv & _)|(Hall & _)].
    + cbn in Hh. apply Hfirst in Hh as ->. rewrite Hva in Hv. done.
    + specialize (Hall a Ha). by apply elem_of_nil in Hall.
  - destruct (Hsteps 0%nat (i0, e0) eq_refl) as [Hh0 Hv0].
    rewrite take_0 in Hh0. apply Hfirst in Hh0. cbn in Hh0, Hv0. subst i0.
    rewrite Hva in Hv0. injection Hv0 as <-.
    destruct rest as [|[i1 e1] rest].
    + destruct Hend as [(Hh & Hv & Ht)|(Hall & _)].
      * cbn in Hh. apply Hsecond in Hh as ->. split; [done|]. exact Ht.
      * exfalso. specialize (Hall b Hb). cbn in Hall.
        apply list_elem_of_singleton in Hall. congruence.
    + exfalso. destruct (Hsteps 1%nat (i1, e1) eq_refl) as [Hh1 Hv1].
      cbn in Hh1. apply Hsecond in Hh1. cbn in Hh1, Hv1. subst i1.
      rewrite Hvb in Hv1. done.
Qed.

(** ** Building the challenge *)

Lemma time_Sub_nonpos t u : (time_Sub t u <=? 0) = (t <=? u).
Proof.
  unfold time_Sub, minInt64, maxInt64.
  destruct (Z.leb_spec t u); apply Z.leb_le || apply Z.leb_gt; lia.
Qed.

Lemma time_Sub_pos t u : (0 <? time_Sub t u) = (u <? t).
Proof.
  unfold time_Sub, minInt64, maxInt64.
  destruct (Z.ltb_spec u t); apply Z.ltb_lt || apply Z.ltb_ge; lia.
Qed.

Lemma wrap32_in_range z : 0 ≤ z < 2 ^ 32 → wrap32 z = z.
Proof. intros. unfold wrap32. by apply Z.mod_small. Qed.

(** The epoch chosen by the code, with its wrap-around. *)
Lemma chooseEpoch_run env conf nodeID current w :
  let prev := GetLastAtx env (calls w OLastAtx) nodeID in
  let e := match lastEpoch prev with
           | Some l => Z.max current l
           | None => current
           end in
  ∃ out w', chooseEpoch env conf nodeID current w = (out, w') ∧
    same_state w w' ∧ trace w' = trace w ∧
    out = match prev with
          | Err err =>
              if errors_Is err ErrNotFound
              then Return (if decide (timeNow env (calls w ONow) < poetRoundStart env conf e)
                           then e else wrap32 (e + 1))
              else Fail (Errorf "get last ATX" err)
          | Ok _ =>
              Return (if decide (timeNow env (calls w ONow) < poetRoundStart env conf e)
                      then e else wrap32 (e + 1))
          end.
Proof.
  intros prev e. subst prev e. unfold chooseEpoch. go.
  destruct (GetLastAtx env (calls w OLastAtx) nodeID) as [p|err]; cbn [lastEpoch]; go.
  - rewrite time_Sub_nonpos.
    destruct (Z.leb_spec (poetRoundStart env conf (Z.max current (hdr_PublishEpoch p)))
                (timeNow env (calls w ONow))); go.
    + rewrite decide_False by lia. eexists _, _.
      split; [done|]. split; [same_state_now|]. done.
    + rewrite decide_True by lia. eexists _, _.
      split; [done|]. split; [same_state_now|]. done.
  - destruct (errors_Is err ErrNotFound); go.
    + rewrite time_Sub_nonpos.
      destruct (Z.leb_spec (poetRoundStart env conf current)
                  (timeNow env (calls w ONow))); go.
      * rewrite decide_False by lia. eexists _, _.
        split; [done|]. split; [same_state_now|]. done.
      * rewrite decide_True by lia. eexists _, _.
        split; [done|]. split; [same_state_now|]. done.
    + eexists _, _. split; [done|]. split; [same_state_now|]. done.
Qed.

(** Without wrap-around the code chooses the epoch of the spec. *)
Lemma chosen_is_spec env conf current last now :
  epoch_in_range current →
  (∀ l, last = Some l → epoch_in_range l) →
  let e := match last with
           | Some l => Z.max current l
           | None => current
           end in
  (if decide (now < poetRoundStart env conf e) then e else wrap32 (e + 1))
  = spec_targetEpoch env conf current last now
  ∧ current ≤ spec_targetEpoch env conf current last now
  ∧ spec_targetEpoch env conf current last now + 1 < 2 ^ 32.
Proof.
  intros Hc Hl e. unfold epoch_in_range in *.
  assert (He : 0 ≤ e ∧ e + 2 < 2 ^ 32 ∧ current ≤ e).
  { subst e. destruct last as [l|]; [|lia]. specialize (Hl l eq_refl). lia. }
  unfold spec_targetEpoch. fold e.
  destruct (decide (now < poetRoundStart env conf e)).
  - split; [done|]. lia.
  - rewrite wrap32_in_range by lia. split; [done|]. lia.
Qed.

(** The wait for the start of the build. *)
Lemma awaitBuildStart_run env conf current w :
  let roundStart := poetRoundStart env conf current in
  let jitter := jitterOf (GracePeriod conf) (randInt63 env (calls w ORand)) in
  let wait := roundStart + jitter - GracePeriod conf in
  ∃ out w', awaitBuildStart env conf current w = (out, w') ∧ same_state w w' ∧
    if decide (timeNow env (calls w ONow) < wait) then
      trace w' = trace w ++
        [EvPoetWaitRound current (wrap32 (current + 1)) wait;
         EvTimer (time_Sub wait (timeNow env (calls w ONow + 2)%nat))] ∧
      out = match ctxErr env (calls w OCtx) with
            | Some e => Fail e
            | None => Return tt
            end
    else
      trace w' = trace w ∧ out = Return tt ∧ calls w' OCtx = calls w OCtx.
Proof.
  intros roundStart jitter wait. unfold awaitBuildStart. go.
  unfold maxNipostChallengeBuildJitter, time_Add.
  rewrite Z.mul_1_r, Z.sub_0_r, Z.add_0_l.
  fold (jitterOf (GracePeriod conf) (randInt63 env (calls w ORand))).
  fold roundStart. fold jitter.
  replace (roundStart + jitter + - GracePeriod conf) with wait by (subst wait; lia).
  rewrite time_Sub_pos.
  destruct (decide (timeNow env (calls w ONow) < wait)) as [Hlt|Hge].
  - rewrite (proj2 (Z.ltb_lt _ _) Hlt). go.
    replace (S (S (calls w ONow))) with (calls w ONow + 2)%nat by lia.
    destruct (ctxErr env (calls w OCtx)); go.
    + eexists _, _. split; [done|]. split; [same_state_now|].
      go_fields. by rewrite <- app_assoc.
    + eexists _, _. split; [done|]. split; [same_state_now|].
      go_fields. by rewrite <- app_assoc.
  - rewrite (proj2 (Z.ltb_ge _ _)) by lia. go.
    eexists _, _. split; [done|]. split; [same_state_now|]. done.
Qed.

(** The challenge made for the chosen epoch: whatever the collaborators
    answer, the challenge table and the prover are left alone; a challenge
    that is returned is for the epoch after the chosen one. *)
Lemma makeChallenge_frame env nodeID current posAtx w :
  ∃ out w', makeChallenge env nodeID current posAtx w = (out, w') ∧
    challenges w' = challenges w ∧ proverState w' = proverState w ∧
    postStates w' = postStates w ∧ extends w w' ∧
    (∀ ch, out = Return ch →
       same_state w w' ∧ trace w' = trace w ∧
       PublishEpoch ch = wrap32 (current + 1) ∧ PositioningATX ch = posAtx).
Proof.
  unfold makeChallenge. go.
  destruct (GetLastAtx env (calls w OLastAtx) nodeID) as [p|err]; go.
  { eexists _, _. split; [done|]. go_fields. repeat split; try done.
    - extends_now.
    - by injection H as <-.
    - by injection H as <-. }
  destruct (errors_Is err ErrNotFound); go.
  2: { eexists _, _. split; [done|]. go_fields. repeat split; try done. extends_now. }
  destruct (localDBFault env (calls w OLocalDB)); go.
  { eexists _, _. split; [done|]. go_fields. repeat split; try done. extends_now. }
  destruct (initialPosts w !! nodeID) as [post|]; go.
  2: { eexists _, _. split; [done|]. go_fields. repeat split; try done. extends_now. }
  destruct (validatePost env (calls w OValidatePost)); go.
  2: { eexists _, _. split; [done|]. go_fields. repeat split; try done.
       - extends_now.
       - by injection H as <-.
       - by injection H as <-. }
  destruct (localDBFault env (S (calls w OLocalDB))); go.
  - eexists _, _. split; [done|]. go_fields. repeat split; try done. extends_now.
  - eexists _, _. split; [done|]. go_fields. repeat split; try done. extends_now.
Qed.

Lemma makeChallenge_returns env nodeID current posAtx w :
  (∀ n, localDBFault env n = None) → can_build env w nodeID →
  ∃ ch w', makeChallenge env nodeID current posAtx w = (Return ch, w').
Proof.
  intros Hdb Hcan. unfold makeChallenge. go.
  specialize (Hcan (calls w OLastAtx)).
  destruct (GetLastAtx env (calls w OLastAtx) nodeID) as [p|err]; go.
  { by eexists _, _. }
  destruct Hcan as (-> & [post Hpost] & Hvalid). go.
  rewrite Hdb. go. rewrite Hpost. go. rewrite Hvalid. go. by eexists _, _.
Qed.

Lemma awaitBuildStart_frame env conf current w :
  ∃ out w', awaitBuildStart env conf current w = (out, w') ∧
            same_state w w' ∧ extends w w' ∧ ended out.
Proof.
  destruct (awaitBuildStart_run env conf current w) as (out & w' & E & Hs & H).
  exists out, w'. split; [done|]. split; [done|].
  destruct (decide _).
  - destruct H as [Ht ->]. split; [by eexists|].
    by destruct (ctxErr env (calls w OCtx)).
  - destruct H as (Ht & -> & _). split; [|done].
    exists []. by rewrite app_nil_r.
Qed.

(** A fresh challenge: the prover and the post states are left alone; a
    challenge that is returned was added to a table that had none for the
    identity, by the last call traced, and is for the epoch after the one
    chosen. *)
Lemma buildNewChallenge_frame env conf nodeID current w :
  let prev := GetLastAtx env (calls w OLastAtx) nodeID in
  let e := match lastEpoch prev with
           | Some l => Z.max current l
           | None => current
           end in
  let target := if decide (timeNow env (calls w ONow) < poetRoundStart env conf e)
                then e else wrap32 (e + 1) in
  ∃ out w', buildNewChallenge env conf nodeID current w = (out, w') ∧
    proverState w' = proverState w ∧ postStates w' = postStates w ∧
    extends w w' ∧
    (∀ ch, out = Return ch →
       challenges w !! nodeID = None ∧
       challenges w' = <[nodeID := ch]> (challenges w) ∧
       initialPosts w' = initialPosts w ∧
       (∃ tr, trace w' = trace w ++ tr ++ [EvAddChallenge nodeID ch None]) ∧
       PublishEpoch ch = wrap32 (target + 1)).
Proof.
  intros prev e target.
  destruct (chooseEpoch_run env conf nodeID current w)
    as (o1 & w1 & E1 & S1 & T1 & O1).
  cbv zeta in O1. fold prev in O1. fold e in O1. fold target in O1.
  unfold buildNewChallenge. cbv beta iota delta [bind]. rewrite E1.
  assert (X1 : extends w w1) by (exists []; by rewrite app_nil_r).
  destruct S1 as (C1 & I1 & P1 & Q1 & _).
  assert (O1' : o1 = Return target ∨ ∃ err, o1 = Fail err).
  { destruct prev; [by left|]. destruct (errors_Is _ _); [by left|right; by eexists]. }
  clear O1. destruct O1' as [->|[err ->]].
  2: { eexists _, _. split; [done|]. repeat split; try done. }
  destruct (awaitBuildStart_frame env conf target w1)
    as (o2 & w2 & E2 & S2 & X2 & N2).
  rewrite E2. destruct S2 as (C2 & I2 & P2 & Q2 & _).
  assert (X12 : extends w w2) by (by eapply extends_trans).
  destruct o2 as [[]|err| |]; try done.
  2: { eexists _, _. split; [done|]. repeat split; try congruence; done. }
  destruct (getPositioningAtx_frame env conf nodeID w2)
    as (o3 & w3 & E3 & S3 & X3 & N3).
  unfold wrapping. rewrite E3. destruct S3 as (C3 & I3 & P3 & Q3 & _).
  assert (X13 : extends w w3) by (by eapply extends_trans).
  destruct o3 as [posAtx|err| |]; try done.
  2: { eexists _, _. split; [done|]. repeat split; try congruence; done. }
  destruct (makeChallenge_frame env nodeID target posAtx w3)
    as (o4 & w4 & E4 & C4 & P4 & Q4 & X4 & R4).
  rewrite E4.
  assert (X14 : extends w w4) by (by eapply extends_trans).
  destruct o4 as [ch|err| |].
  2-4: eexists _, _; (split; [done|]); repeat split; try congruence; done.
  destruct (R4 ch eq_refl) as (S4 & T4 & Ep & _).
  destruct S4 as (_ & I4 & _).
  go. destruct (localDBFault env (calls w4 OLocalDB)) as [err|]; go.
  { eexists _, _. split; [done|]. go_fields.
    repeat split; try congruence; try done. by apply extends_record. }
  unfold nipost.AddChallenge.
  destruct (challenges w4 !! nodeID) as [old|] eqn:Hold; go.
  { eexists _, _. split; [done|]. go_fields.
    repeat split; try congruence; try done. by apply extends_record. }
  eexists _, _. split; [done|]. go_fields.
  split; [congruence|]. split; [congruence|]. split; [by apply extends_record|].
  intros ch' [= <-].
  split; [congruence|]. split; [congruence|]. split; [congruence|].
  split; [|done].
  destruct X14 as [tr Htr]. exists tr. by rewrite Htr, app_assoc.
Qed.

Lemma can_build_same env w w' nodeID :
  initialPosts w' = initialPosts w → can_build env w nodeID → can_build env w' nodeID.
Proof.
  intros Hi Hc n. specialize (Hc n). rewrite Hi. exact Hc.
Qed.

(** With collaborators that do not fail, a fresh challenge is built. *)
Lemma buildNewChallenge_returns env conf nodeID current w :
  healthy env → can_build env w nodeID → challenges w !! nodeID = None →
  ∃ ch w', buildNewChallenge env conf nodeID current w = (Return ch, w').
Proof.
  intros (Hctx & Hdb & Hreset & Hcdb) Hcan Hnone.
  destruct (chooseEpoch_run env conf nodeID current w)
    as (o1 & w1 & E1 & S1 & T1 & O1).
  cbv zeta in O1.
  unfold buildNewChallenge. cbv beta iota delta [bind]. rewrite E1.
  destruct S1 as (C1 & I1 & _).
  assert (O1' : ∃ target, o1 = Return target).
  { pose proof (Hcan (calls w OLastAtx)) as Hc.
    destruct (GetLastAtx env (calls w OLastAtx) nodeID); [by eexists|].
    destruct Hc as [Hc _]. rewrite Hc in O1. by eexists. }
  clear O1. destruct O1' as [target ->].
  destruct (awaitBuildStart_run env conf target w1)
    as (o2 & w2 & E2 & S2 & O2).
  rewrite E2. destruct S2 as (C2 & I2 & _).
  assert (o2 = Return tt) as ->.
  { destruct (decide _); [|by destruct O2 as (_ & -> & _)].
    destruct O2 as [_ ->]. by rewrite Hctx. }
  destruct (getPositioningAtx_run env conf nodeID w2 Hctx Hcdb)
    as (rejected & posAtx & w3 & E3 & S3 & _).
  unfold wrapping. rewrite E3. destruct S3 as (C3 & I3 & _).
  destruct (makeChallenge_returns env nodeID target posAtx w3 Hdb)
    as (ch & w4 & E4).
  { eapply can_build_same; [|exact Hcan]. congruence. }
  rewrite E4.
  destruct (makeChallenge_frame env nodeID target posAtx w3)
    as (o4 & w4' & E4' & C4 & _).
  rewrite E4 in E4'. injection E4' as <- <-.
  go. rewrite Hdb. unfold nipost.AddChallenge.
  replace (challenges w4 !! nodeID) with (@None NIPostChallenge) by congruence.
  go. by eexists _, _.
Qed.

(** ** C1: reuse of a persisted challenge, and its renewal when stale *)

(** C1. For an identity with a persisted challenge that the sync wait and
    the read of the table let through: if the publish epoch of the challenge
    is the current epoch or a later one, [BuildNIPostChallenge] returns it and
    changes nothing (no state, no call traced).  If it is an earlier epoch,
    the post state of the identity is set to idle and the reset of the prover
    is the first call made; whenever a challenge is then returned, the prover
    state was reset, the stale challenge was deleted, and the challenge
    returned is the one now persisted, added by the last call traced; its
    publish epoch is later than the current epoch as long as epochs do not
    wrap around; and with collaborators that do not fail a challenge is
    returned. *)
Theorem BuildNIPostChallenge_persisted env conf nodeID w ch :
  ctxErr env (calls w OCtx) = None →
  localDBFault env (calls w OLocalDB) = None →
  challenges w !! nodeID = Some ch →
  let current := GetEpoch env (currentLayer env (calls w OClock)) in
  ∃ out w', BuildNIPostChallenge env conf nodeID w = (out, w') ∧
    (current ≤ PublishEpoch ch →
       out = Return ch ∧ same_state w w' ∧ trace w' = trace w) ∧
    (PublishEpoch ch < current →
       postStates w' !! nodeID = Some PostStateIdle ∧
       (∃ r tr, trace w' = trace w ++ EvResetState nodeID r :: tr) ∧
       (∀ ch', out = Return ch' →
          (nodeID ∉ proverState w') ∧
          challenges w' = <[nodeID := ch']> (delete nodeID (challenges w)) ∧
          (∃ tr, trace w' = trace w ++
                   [EvResetState nodeID None; EvRemoveChallenge nodeID None] ++
                   tr ++ [EvAddChallenge nodeID ch' None]) ∧
          (epoch_in_range current →
           (∀ l, lastEpoch (GetLastAtx env (calls w OLastAtx) nodeID) = Some l →
                 epoch_in_range l) →
           current < PublishEpoch ch')) ∧
       (healthy env → can_build env w nodeID → ∃ ch', out = Return ch')).
Proof.
  intros Hctx Hdb Hch current.
  unfold BuildNIPostChallenge. go. rewrite Hctx. go. rewrite Hdb. go.
  unfold nipost.Challenge. rewrite Hch. fold current.
  destruct (Z.ltb_spec (PublishEpoch ch) current) as [Hlt|Hge].
  2: { eexists _, _. split; [done|]. split; [|lia].
       intros _. split; [done|]. split; [same_state_now|done]. }
  go. destruct (resetStateErr env (calls w OReset)) as [err|] eqn:Hreset; go.
  { eexists _, _. split; [done|]. split; [lia|]. intros _. go_fields.
    split; [by rewrite lookup_insert_eq|]. split; [by exists (Some err), []|].
    split; [done|]. intros (_ & _ & Hr & _) _. by rewrite Hr in Hreset. }
  destruct (localDBFault env (S (calls w OLocalDB))) as [err|] eqn:Hrm; go.
  { eexists _, _. split; [done|]. split; [lia|]. intros _. go_fields.
    split; [by rewrite lookup_insert_eq|].
    split; [exists None, [EvRemoveChallenge nodeID (Some err)]; by rewrite <- app_assoc|].
    split; [done|]. intros (_ & Hd & _) _. by rewrite Hd in Hrm. }
  set (w1 := record _ _).
  destruct (buildNewChallenge_frame env conf nodeID current w1)
    as (out & w' & E & P & Q & [tr X] & R).
  exists out, w'. split; [exact E|]. split; [lia|]. intros _.
  assert (T1 : trace w1 = trace w ++ [EvResetState nodeID None; EvRemoveChallenge nodeID None])
    by (subst w1; go_fields; by rewrite <- app_assoc).
  split; [rewrite Q; subst w1; go_fields; by rewrite lookup_insert_eq|].
  split.
  { exists None, (EvRemoveChallenge nodeID None :: tr).
    rewrite X, T1. by rewrite <- app_assoc. }
  split.
  - intros ch' ->. destruct (R ch' eq_refl) as (_ & C & _ & [tr' T] & Ep).
    split; [rewrite P; subst w1; go_fields; set_solver|].
    split; [rewrite C; by subst w1|].
    split; [exists tr'; rewrite T, T1; by rewrite <- app_assoc|].
    intros Hcur Hlast. rewrite Ep.
    destruct (chosen_is_spec env conf current
                (lastEpoch (GetLastAtx env (calls w1 OLastAtx) nodeID))
                (timeNow env (calls w1 ONow)) Hcur) as (-> & Hle & Hlt').
    { subst w1. exact Hlast. }
    rewrite wrap32_in_range; unfold epoch_in_range in Hcur; lia.
  - intros Hh Hcan.
    destruct (buildNewChallenge_returns env conf nodeID current w1 Hh)
      as (ch' & w'' & E').
    + eapply can_build_same; [|exact Hcan]. by subst w1.
    + subst w1. go_fields. unfold nipost.RemoveChallenge. apply lookup_delete_eq.
    + rewrite E in E'. injection E' as -> _. by exists ch'.
Qed.

(** ** C5: the epoch a fresh challenge is built for *)

Lemma buildNewChallenge_epoch env conf nodeID current w out w' ch :
  buildNewChallenge env conf nodeID current w = (out, w') →
  out = Return ch →
  let e := match lastEpoch (GetLastAtx env (calls w OLastAtx) nodeID) with
           | Some l => Z.max current l
           | None => current
           end in
  let target := if decide (timeNow env (calls w ONow) < poetRoundStart env conf e)
                then e else wrap32 (e + 1) in
  PublishEpoch ch = wrap32 (target + 1) ∧ challenges w' !! nodeID = Some ch.
Proof.
  intros E -> e target.
  destruct (buildNewChallenge_frame env conf nodeID current w)
    as (out & w'' & E' & _ & _ & _ & R).
  rewrite E in E'. injection E' as <- <-.
  destruct (R ch eq_refl) as (_ & C & _ & _ & Ep).
  split; [exact Ep|rewrite C; apply lookup_insert_eq].
Qed.

(** C5. When [BuildNIPostChallenge] builds a fresh challenge (none is
    persisted for the identity, or the persisted one is stale), let [e] be
    the maximum of the current epoch and the publish epoch of the last known
    ATX of the identity (the current epoch when there is none).  The target
    epoch is [e] if the poet round of [e] starts strictly in the future, and
    [e] incremented by one otherwise; the publish epoch of the challenge
    returned, which is the one persisted, is the target epoch plus one.  The
    additions are those of [uint32]; for epochs that do not make them wrap
    the target is the one the spec describes and the sums are plain.  With
    collaborators that do not fail the challenge is returned. *)
Theorem BuildNIPostChallenge_target_epoch env conf nodeID w :
  let current := GetEpoch env (currentLayer env (calls w OClock)) in
  let prev := GetLastAtx env (calls w OLastAtx) nodeID in
  let now := timeNow env (calls w ONow) in
  let e := match lastEpoch prev with
           | Some l => Z.max current l
           | None => current
           end in
  let target := if decide (now < poetRoundStart env conf e)
                then e else wrap32 (e + 1) in
  match challenges w !! nodeID with
  | Some ch => PublishEpoch ch < current
  | None => True
  end →
  ∃ out w', BuildNIPostChallenge env conf nodeID w = (out, w') ∧
    (∀ ch', out = Return ch' →
       challenges w' !! nodeID = Some ch' ∧
       PublishEpoch ch' = wrap32 (target + 1) ∧
       (epoch_in_range current →
        (∀ l, lastEpoch prev = Some l → epoch_in_range l) →
        target = spec_targetEpoch env conf current (lastEpoch prev) now ∧
        PublishEpoch ch' = target + 1 ∧
        (now < poetRoundStart env conf e → target = e) ∧
        (poetRoundStart env conf e ≤ now → target = e + 1))) ∧
    (healthy env → can_build env w nodeID → ∃ ch', out = Return ch').
Proof.
  intros current prev now e target Hstale.
  assert (Hspec : ∀ (out : outcome NIPostChallenge) w1 w' ch',
             calls w1 OLastAtx = calls w OLastAtx → calls w1 ONow = calls w ONow →
             buildNewChallenge env conf nodeID current w1 = (out, w') →
             out = Return ch' →
             challenges w' !! nodeID = Some ch' ∧
             PublishEpoch ch' = wrap32 (target + 1) ∧
             (epoch_in_range current →
              (∀ l, lastEpoch prev = Some l → epoch_in_range l) →
              target = spec_targetEpoch env conf current (lastEpoch prev) now ∧
              PublishEpoch ch' = target + 1 ∧
              (now < poetRoundStart env conf e → target = e) ∧
              (poetRoundStart env conf e ≤ now → target = e + 1))).
  { intros out w1 w' ch' H1 H2 E Ho.
    destruct (buildNewChallenge_epoch env conf nodeID current w1 out w' ch' E Ho)
      as [Ep C].
    rewrite H1, H2 in Ep. fold prev now e target in Ep.
    split; [done|]. split; [done|]. intros Hcur Hlast.
    destruct (chosen_is_spec env conf current (lastEpoch prev) now Hcur Hlast)
      as (Ht & Hle & Hlt).
    fold e target in Ht.
    split; [done|]. rewrite Ep.
    split; [rewrite wrap32_in_range; unfold epoch_in_range in Hcur; lia|].
    rewrite Ht. unfold spec_targetEpoch. fold e.
    destruct (decide (now < poetRoundStart env conf e)); split; intros; lia. }
  unfold BuildNIPostChallenge. go.
  destruct (ctxErr env (calls w OCtx)) as [err|] eqn:Hctx; go.
  { eexists _, _. split; [done|]. split; [done|].
    intros (Hc & _) _. by rewrite Hc in Hctx. }
  fold current.
  destruct (localDBFault env (calls w OLocalDB)) as [err|] eqn:Hdb; go.
  { destruct (errors_Is err ErrNotFound).
    - set (w1 := bump _ _).
      destruct (buildNewChallenge env conf nodeID current w1) as [out w'] eqn:E.
      exists out, w'. split; [done|]. split.
      + intros ch' Ho. by eapply (Hspec out w1 w' ch').
      + intros (_ & Hd & _) _. by rewrite Hd in Hdb.
    - eexists _, _. split; [done|]. split; [done|].
      intros (_ & Hd & _) _. by rewrite Hd in Hdb. }
  unfold nipost.Challenge.
  destruct (challenges w !! nodeID) as [ch|] eqn:Hch; cbn [errors_Is].
  - destruct (Z.ltb_spec (PublishEpoch ch) current) as [_|Hge]; [|lia]. go.
    destruct (resetStateErr env (calls w OReset)) as [err|] eqn:Hreset; go.
    { eexists _, _. split; [done|]. split; [done|].
      intros (_ & _ & Hr & _) _. by rewrite Hr in Hreset. }
    destruct (localDBFault env (S (calls w OLocalDB))) as [err|] eqn:Hrm; go.
    { eexists _, _. split; [done|]. split; [done|].
      intros (_ & Hd & _) _. by rewrite Hd in Hrm. }
    set (w1 := record _ _).
    destruct (buildNewChallenge env conf nodeID current w1) as [out w'] eqn:E.
    exists out, w'. split; [done|]. split.
    + intros ch' Ho. by eapply (Hspec out w1 w' ch').
    + intros Hh Hcan.
      destruct (buildNewChallenge_returns env conf nodeID current w1 Hh)
        as (ch' & w'' & E').
      * eapply can_build_same; [|exact Hcan]. by subst w1.
      * subst w1. go_fields. unfold nipost.RemoveChallenge. apply lookup_delete_eq.
      * rewrite E in E'. injection E' as -> _. by exists ch'.
  - rewrite bool_decide_eq_true_2 by done.
    set (w1 := bump _ _).
    destruct (buildNewChallenge env conf nodeID current w1) as [out w'] eqn:E.
    exists out, w'. split; [done|]. split.
    + intros ch' Ho. by eapply (Hspec out w1 w' ch').
    + intros Hh Hcan.
      destruct (buildNewChallenge_returns env conf nodeID current w1 Hh)
        as (ch' & w'' & E').
      * eapply can_build_same; [|exact Hcan]. by subst w1.
      * by subst w1.
      * rewrite E in E'. injection E' as -> _. by exists ch'.
Qed.

(** ** C9: the deadline of the wait before the positioning ATX *)

Lemma jitterOf_range gp draw :
  0 ≤ gp →
  0 ≤ jitterOf gp draw ∧ jitterOf gp draw ≤ Z.quot gp 100 ∧
  100 * jitterOf gp draw ≤ gp.
Proof.
  intros Hgp. unfold jitterOf.
  rewrite Z.quot_div_nonneg by lia.
  assert (0 ≤ gp / 100) by (apply Z.div_pos; lia).
  pose proof (Z.mod_pos_bound draw (gp / 100 + 1)) as Hm.
  pose proof (Z.mul_div_le gp 100). lia.
Qed.

Lemma jitterOf_small gp j : 0 ≤ j ≤ Z.quot gp 100 → jitterOf gp j = j.
Proof. intros. unfold jitterOf. apply Z.mod_small. lia. Qed.

Lemma jitterOf_period gp draw :
  jitterOf gp (draw + (Z.quot gp 100 + 1)) = jitterOf gp draw.
Proof.
  unfold jitterOf.
  replace (draw + (gp ÷ 100 + 1)) with (draw + 1 * (gp ÷ 100 + 1)) by lia.
  apply Z_mod_plus_full.
Qed.

(** C9. The deadline computed before the positioning ATX is resolved is
    [roundStart + jitter - gracePeriod].  The jitter is the draw of the
    random source reduced to the durations from [0] to the grace period
    times the jitter constant [1] divided by [100]: it lies in that interval,
    every duration of the interval is the jitter of some draw, and draws that
    differ by the number of durations in the interval give the same jitter
    (so a uniform draw gives a uniform jitter).  The builder waits only if
    that deadline is later than the present time: it then arms a timer and
    returns the error of the context if the context is done first; otherwise
    it neither waits nor looks at the context. *)
Theorem awaitBuildStart_deadline env conf current w :
  0 ≤ GracePeriod conf →
  let gp := GracePeriod conf in
  let roundStart := poetRoundStart env conf current in
  let jitter := jitterOf gp (randInt63 env (calls w ORand)) in
  let wait := roundStart + jitter - gp in
  buildNipostChallengeStartDeadline env roundStart gp w
    = (Return wait, bump ORand w) ∧
  (0 ≤ jitter ∧ jitter ≤ Z.quot (gp * maxNipostChallengeBuildJitter) 100 ∧
   100 * jitter ≤ gp * maxNipostChallengeBuildJitter) ∧
  (∀ j, 0 ≤ j ≤ Z.quot (gp * maxNipostChallengeBuildJitter) 100 → jitterOf gp j = j) ∧
  (∀ draw, jitterOf gp (draw + (Z.quot (gp * maxNipostChallengeBuildJitter) 100 + 1))
           = jitterOf gp draw) ∧
  ∃ out w', awaitBuildStart env conf current w = (out, w') ∧ same_state w w' ∧
    if decide (timeNow env (calls w ONow) < wait) then
      trace w' = trace w ++
        [EvPoetWaitRound current (wrap32 (current + 1)) wait;
         EvTimer (time_Sub wait (timeNow env (calls w ONow + 2)%nat))] ∧
      out = match ctxErr env (calls w OCtx) with
            | Some e => Fail e
            | None => Return tt
            end
    else
      trace w' = trace w ∧ out = Return tt ∧ calls w' OCtx = calls w OCtx.
Proof.
  intros Hgp gp roundStart jitter wait.
  unfold maxNipostChallengeBuildJitter. rewrite Z.mul_1_r.
  split.
  { unfold buildNipostChallengeStartDeadline, randomDurationInRange. go.
    unfold maxNipostChallengeBuildJitter, time_Add.
    rewrite Z.mul_1_r, Z.sub_0_r, Z.add_0_l.
    fold (jitterOf gp (randInt63 env (calls w ORand))). fold jitter.
    by replace (roundStart + jitter + - gp) with wait by (subst wait; lia). }
  split; [by apply jitterOf_range|].
  split; [by apply jitterOf_small|].
  split; [by apply jitterOf_period|].
  apply awaitBuildStart_run.
Qed.

(** ** Creating the ATX *)

Ltac atx_fields :=
  cbn [atx_Challenge atx_Coinbase atx_NIPost atx_NumUnits atx_VRFNonce
       atx_NodeID atx_SmesherID atx_Signature fst snd].

(** The end of a run of [createAtx] that reached the signature. *)
Ltac created Hi :=
  eexists _, _; split; [done|]; go_fields;
  do 7 (split; [done|]);
  split; [intros; lia|]; intros _; split;
  [ intros atx' [= <-]; atx_fields; repeat split; done
  | intros Hall; first [by rewrite Hall in Hi | by eexists] ].

Lemma createAtx_run env sig ch w st :
  BuildNIPost env (calls w OBuildNIPost) sig ch = Ok st →
  ctxErr env (calls w OCtx) = None →
  let cur := GetEpoch env (currentLayer env (S (calls w OClock))) in
  ∃ out w', createAtx env sig ch w = (out, w') ∧
    challenges w' = challenges w ∧ initialPosts w' = initialPosts w ∧
    postStates w' = postStates w ∧
    calls w' OReset = calls w OReset ∧ calls w' OLocalDB = calls w OLocalDB ∧
    calls w' OClock = S (S (calls w OClock)) ∧
    trace w' = trace w ++ [EvAwaitLayer (FirstLayer env (PublishEpoch ch))] ∧
    (PublishEpoch ch < cur → out = Fail (expiredError ch)) ∧
    (cur ≤ PublishEpoch ch →
       (∀ atx, out = Return atx →
          atx_VRFNonce atx
            = spec_nonce ch (ns_VRFNonce st)
                (VRFNonce env (calls w OVRFNonce) sig (PublishEpoch ch)) ∧
          atx_Challenge atx = ch ∧ atx_SmesherID atx = sig ∧
          atx_Coinbase atx = coinbaseAccount w ∧
          atx_NIPost atx = ns_NIPost st ∧ atx_NumUnits atx = ns_NumUnits st) ∧
       ((∀ a, Initialize env a = None) → ∃ atx, out = Return atx)).
Proof.
  intros Hb Hctx cur. unfold createAtx. go. rewrite Hb. go. rewrite Hctx. go.
  fold cur.
  destruct (Z.ltb_spec (PublishEpoch ch) cur) as [Hlt|Hge].
  { unfold expiredError. destruct (InitialPost ch); go.
    - eexists _, _. split; [done|]. go_fields. repeat split; try done; lia.
    - eexists _, _. split; [done|]. go_fields. repeat split; try done; lia. }
  unfold spec_nonce, SignAndFinalizeAtx, set_atx_NodeID, NewActivationTx.
  assert (Hdec : ∀ old, (if decide (ns_VRFNonce st ≠ old)
                         then Some (ns_VRFNonce st) else None)
                        = (if decide (ns_VRFNonce st = old)
                           then None else Some (ns_VRFNonce st))).
  { intros old. destruct (decide (ns_VRFNonce st = old)).
    - by rewrite decide_False by auto.
    - by rewrite decide_True by auto. }
  destruct (decide (PrevATXID ch = EmptyATXID)) as [Hinit|Hreg]; go; atx_fields.
  - match goal with
    | |- context [Initialize env ?a] => destruct (Initialize env a) eqn:Hi
    end; go; created Hi.
  - destruct (VRFNonce env (calls w OVRFNonce) sig (PublishEpoch ch)) as [old|err];
      go; atx_fields.
    + rewrite <- Hdec.
      destruct (decide (ns_VRFNonce st ≠ old)) as [Hne|Heq]; go; atx_fields.
      * match goal with
        | |- context [Initialize env ?a] => destruct (Initialize env a) eqn:Hi
        end; go; created Hi.
      * match goal with
        | |- context [Initialize env ?a] => destruct (Initialize env a) eqn:Hi
        end; go; created Hi.
    + match goal with
      | |- context [Initialize env ?a] => destruct (Initialize env a) eqn:Hi
      end; go; created Hi.
Qed.

(** [PublishActivationTx] once the challenge is there. *)
Lemma PublishActivationTx_steps env conf fuel sig w ch w1 :
  BuildNIPostChallenge env conf sig w = (Return ch, w1) →
  PublishActivationTx env conf fuel sig w =
    match createAtx env sig ch (bump OClock w1) with
    | (Return atx, w2) => publishAtx env fuel sig atx w2
    | (Fail e, w2) => (Fail (Errorf "create ATX" e), w2)
    | (Exit, w2) => (Exit, w2)
    | (Running, w2) => (Running, w2)
    end.
Proof.
  intros E. unfold PublishActivationTx. go. rewrite E.
  by destruct (createAtx env sig ch (bump OClock w1)) as [[atx|e| |] w2].
Qed.

(** One turn of the second loop of [run] on an error that is not
    [context.Canceled]. *)
Lemma run_publish_recover env conf fuel sig w e w2 :
  PublishActivationTx env conf (S fuel) sig w = (Fail e, w2) →
  errors_Is e Canceled = false →
  run_publish env conf (S fuel) sig w =
    match run_recover env conf sig e w2 with
    | (Return true, w3) => run_publish env conf fuel sig w3
    | (Return false, w3) => (Return tt, w3)
    | (Fail e', w3) => (Fail e', w3)
    | (Exit, w3) => (Exit, w3)
    | (Running, w3) => (Running, w3)
    end.
Proof.
  intros E Hc. cbn [run_publish]. go. rewrite E, Hc.
  by destruct (run_recover env conf sig e w2) as [[[]|e'| |] w3].
Qed.

(** ** C8 and C10: the VRF nonce of the ATX *)

(** C8. When the NIPost is built, the wait for the publication epoch is
    not cut short and the publish epoch has not passed, the ATX that
    [createAtx] returns (and it returns one when the finalisation of the ATX
    succeeds) is built on the challenge and carries: for an initial challenge
    (empty previous ATX id) the fresh VRF nonce, always; for another
    challenge, given the nonce recorded for the identity at the publish
    epoch, the fresh nonce if it differs from the recorded one and no nonce
    if they are equal. *)
Theorem createAtx_vrf_nonce env sig ch w st :
  BuildNIPost env (calls w OBuildNIPost) sig ch = Ok st →
  ctxErr env (calls w OCtx) = None →
  GetEpoch env (currentLayer env (S (calls w OClock))) ≤ PublishEpoch ch →
  let fresh := ns_VRFNonce st in
  let recorded := VRFNonce env (calls w OVRFNonce) sig (PublishEpoch ch) in
  ∃ out w', createAtx env sig ch w = (out, w') ∧
    (∀ atx, out = Return atx →
       atx_Challenge atx = ch ∧
       (PrevATXID ch = EmptyATXID → atx_VRFNonce atx = Some fresh) ∧
       (PrevATXID ch ≠ EmptyATXID → ∀ old, recorded = Ok old →
          (fresh ≠ old → atx_VRFNonce atx = Some fresh) ∧
          (fresh = old → atx_VRFNonce atx = None))) ∧
    ((∀ a, Initialize env a = None) → ∃ atx, out = Return atx).
Proof.
  intros Hb Hctx Hge fresh recorded.
  destruct (createAtx_run env sig ch w st Hb Hctx)
    as (out & w' & E & _ & _ & _ & _ & _ & _ & _ & _ & Hok).
  destruct (Hok Hge) as [Hatx Hret].
  exists out, w'. split; [done|]. split; [|done].
  intros atx Ho. destruct (Hatx atx Ho) as (Hn & Hc & _).
  fold fresh recorded in Hn. unfold spec_nonce in Hn.
  split; [done|]. split.
  - intros Hinit. by rewrite decide_True in Hn.
  - intros Hreg old Hrec. rewrite decide_False, Hrec in Hn by done.
    split; intros Hcmp.
    + by rewrite decide_False in Hn.
    + by rewrite decide_True in Hn.
Qed.

(** The broadcast loop and what follows it only add to the trace. *)
Lemma broadcastLoop_extends env atx : ∀ fuel w,
  ∃ out w', broadcastLoop env fuel atx w = (out, w') ∧ extends w w'.
Proof.
  induction fuel as [|fuel IH]; intros w.
  { eexists _, _. split; [done|]. apply extends_refl. }
  cbn [broadcastLoop]. unfold broadcast.
  destruct (Encode env atx) as [buf|e]; go.
  - destruct (Publish env (calls w OPublish) buf); go.
    + destruct (ctxErr env (calls w OCtx)); go.
      * eexists _, _. split; [done|]. extends_now.
      * match goal with |- context [broadcastLoop env fuel atx ?v] =>
          destruct (IH v) as (out & w' & E & X) end.
        exists out, w'. split; [done|].
        eapply extends_trans; [|exact X]. extends_now.
    + eexists _, _. split; [done|]. extends_now.
  - destruct (ctxErr env (calls w OCtx)); go.
    + eexists _, _. split; [done|]. extends_now.
    + match goal with |- context [broadcastLoop env fuel atx ?v] =>
        destruct (IH v) as (out & w' & E & X) end.
      exists out, w'. split; [done|].
      eapply extends_trans; [|exact X]. extends_now.
Qed.

Lemma publishAtx_extends env fuel sig atx w :
  ∃ out w', publishAtx env fuel sig atx w = (out, w') ∧ extends w w'.
Proof.
  unfold publishAtx. cbv beta iota delta [bind].
  destruct (broadcastLoop_extends env atx fuel w) as (o1 & w1 & E1 & X1).
  rewrite E1. destruct o1 as [[]|e| |].
  2-4: eexists _, _; (split; [done|]); done.
  go. destruct (resetStateErr env (calls w1 OReset)); go.
  { eexists _, _. split; [done|]. by apply extends_record. }
  destruct (localDBFault env (calls w1 OLocalDB)); go.
  - eexists _, _. split; [done|]. by do 2 apply extends_record.
  - eexists _, _. split; [done|]. by do 3 apply extends_record.
Qed.

(** The first thing [PublishActivationTx] does with an ATX that can be
    serialised is to hand its bytes to the publisher. *)
Lemma publishAtx_first_publish env fuel sig atx buf w :
  Encode env atx = Ok buf →
  ∃ out w' tr, publishAtx env (S fuel) sig atx w = (out, w') ∧
    trace w' = trace w ++ EvPublish buf (Publish env (calls w OPublish) buf) :: tr.
Proof.
  intros Henc.
  destruct (Publish env (calls w OPublish) buf) as [e|] eqn:Hp.
  - destruct (ctxErr env (calls w OCtx)) as [c|] eqn:Hc.
    + unfold publishAtx. cbv beta iota delta [bind]. cbn [broadcastLoop].
      unfold broadcast. rewrite Henc. go. rewrite Hp. go. rewrite Hc. go.
      eexists _, _, []. split; [done|]. done.
    + destruct (publishAtx_extends env fuel sig atx
                  (bump OCtx (record (EvPublish buf (Some e)) (bump OPublish w))))
        as (out & w' & E & [tr X]).
      exists out, w', tr. split.
      * rewrite <- E. unfold publishAtx. cbv beta iota delta [bind].
        cbn [broadcastLoop]. unfold broadcast. rewrite Henc. go.
        rewrite Hp. go. rewrite Hc. done.
      * rewrite X. go_fields. by rewrite <- app_assoc.
  - unfold publishAtx. cbv beta iota delta [bind]. cbn [broadcastLoop].
    unfold broadcast. rewrite Henc. go. rewrite Hp. go.
    destruct (resetStateErr env (calls w OReset)); go.
    { eexists _, _, _. split; [done|]. go_fields. by rewrite <- app_assoc. }
    destruct (localDBFault env (calls w OLocalDB)); go.
    + eexists _, _, _. split; [done|]. go_fields. by rewrite <- !app_assoc.
    + eexists _, _, _. split; [done|]. go_fields. by rewrite <- !app_assoc.
Qed.

(** C10. For a challenge with a previous ATX, when the nonce recorded for
    the identity cannot be read from the ATX store, [createAtx] goes on: with
    the NIPost built, the wait not cut short, the publish epoch not passed and
    the finalisation of the ATX succeeding, it returns an ATX on the challenge
    that carries no VRF nonce, whatever the fresh nonce is.  That ATX is
    built: it carries the NIPost and the units of the proving output and the
    coinbase of the builder, and names no node id.  It is signed: the smesher
    is the identity, and the signature is the one of its signer over the ATX
    so built, without nonce.  And it is published: [PublishActivationTx]
    goes on with it, and the first thing it then does, the ATX being
    serialised, is to hand its bytes to the publisher; when the publisher
    accepts them and the clearing succeeds, the call returns without error,
    the proving progress and the challenge cleared and the publication
    announced. *)
Theorem createAtx_nonce_unreadable env conf fuel sig w ch w1 st err :
  BuildNIPostChallenge env conf sig w = (Return ch, w1) →
  PrevATXID ch ≠ EmptyATXID →
  BuildNIPost env (calls w1 OBuildNIPost) sig ch = Ok st →
  ctxErr env (calls w1 OCtx) = None →
  GetEpoch env (currentLayer env (S (S (calls w1 OClock)))) ≤ PublishEpoch ch →
  VRFNonce env (calls w1 OVRFNonce) sig (PublishEpoch ch) = Err err →
  (∀ a, Initialize env a = None) →
  ∃ atx w2,
    createAtx env sig ch (bump OClock w1) = (Return atx, w2) ∧
    atx_VRFNonce atx = None ∧ atx_Challenge atx = ch ∧
    PublishActivationTx env conf fuel sig w = publishAtx env fuel sig atx w2 ∧
    atx_NIPost atx = ns_NIPost st ∧ atx_NumUnits atx = ns_NumUnits st ∧
    atx_Coinbase atx = coinbaseAccount w1 ∧ atx_NodeID atx = None ∧
    atx_SmesherID atx = sig ∧
    atx_Signature atx
      = Sign env sig (NewActivationTx ch (coinbaseAccount w1) (ns_NIPost st)
                        (ns_NumUnits st) None) ∧
    trace w2 = trace w1 ++ [EvAwaitLayer (FirstLayer env (PublishEpoch ch))] ∧
    calls w2 OPublish = calls w1 OPublish ∧
    ∀ buf, Encode env atx = Ok buf →
      (∃ out w3 tr,
         PublishActivationTx env conf (S fuel) sig w = (out, w3) ∧
         trace w3 = trace w2
                      ++ EvPublish buf (Publish env (calls w2 OPublish) buf) :: tr) ∧
      (Publish env (calls w2 OPublish) buf = None →
       resetStateErr env (calls w2 OReset) = None →
       localDBFault env (calls w2 OLocalDB) = None →
       ∃ w3, PublishActivationTx env conf (S fuel) sig w = (Return tt, w3) ∧
         trace w3 = trace w2 ++
           [EvPublish buf None; EvResetState sig None; EvRemoveChallenge sig None;
            EvAtxPublished (PublishEpoch ch) (TargetEpoch ch)] ∧
         (sig ∉ proverState w3) ∧ challenges w3 !! sig = None).
Proof.
  intros Eb Hreg Hb Hctx Hge Hrec Hinit.
  assert (Ec : createAtx env sig ch (bump OClock w1)
    = (Return {| atx_Challenge := ch; atx_Coinbase := coinbaseAccount w1;
                 atx_NIPost := ns_NIPost st; atx_NumUnits := ns_NumUnits st;
                 atx_VRFNonce := None; atx_NodeID := None; atx_SmesherID := sig;
                 atx_Signature :=
                   Sign env sig (NewActivationTx ch (coinbaseAccount w1)
                                   (ns_NIPost st) (ns_NumUnits st) None) |},
       bump OVRFNonce (bump OClock (bump OCtx
         (record (EvAwaitLayer (FirstLayer env (PublishEpoch ch)))
            (bump OClock (set_proverState (λ s, {[sig]} ∪ s)
               (bump OBuildNIPost (bump OClock w1))))))))).
  { unfold createAtx. go. rewrite Hb. go. rewrite Hctx. go.
    destruct (Z.ltb_spec (PublishEpoch ch)
                (GetEpoch env (currentLayer env (S (S (calls w1 OClock))))));
      [lia|].
    destruct (decide (PrevATXID ch = EmptyATXID)); [done|]. go.
    rewrite Hrec. go.
    unfold SignAndFinalizeAtx, set_atx_NodeID, NewActivationTx.
    cbn [atx_Challenge atx_Coinbase atx_NIPost atx_NumUnits atx_VRFNonce
         atx_NodeID atx_SmesherID atx_Signature fst snd].
    rewrite Hinit. reflexivity. }
  match type of Ec with
  | _ = (Return ?a, ?v) => set (atx := a) in *; set (w2 := v) in *
  end.
  assert (Ep : ∀ f, PublishActivationTx env conf f sig w
                    = publishAtx env f sig atx w2).
  { intros f. rewrite (PublishActivationTx_steps _ _ _ _ _ _ _ Eb).
    by rewrite Ec. }
  exists atx, w2. split; [exact Ec|].
  split; [done|]. split; [done|]. split; [apply Ep|].
  repeat (split; [done|]).
  intros buf Henc. split.
  - rewrite Ep. destruct (publishAtx_first_publish env fuel sig atx buf w2 Henc)
      as (out & w3 & tr & E & Ht).
    by exists out, w3, tr.
  - intros Hp Hr Hd. rewrite Ep.
    unfold publishAtx. cbv beta iota delta [bind]. cbn [broadcastLoop].
    unfold broadcast. rewrite Henc. go. rewrite Hp. go. rewrite Hr. go.
    rewrite Hd. go. eexists. split; [done|]. go_fields.
    split; [by rewrite <- !app_assoc|].
    split; [set_solver|]. unfold nipost.RemoveChallenge. apply lookup_delete_eq.
Qed.

(** ** C4: the broadcast loop *)

(** Attempts that fail while the context is not done: the loop goes
    round, each time publishing the same bytes. *)
Lemma broadcastLoop_failures env atx buf : ∀ (errs : list error) fuel w,
  Encode env atx = Ok buf →
  (∀ j e, errs !! j = Some e →
          Publish env (calls w OPublish + j)%nat buf = Some e ∧
          ctxErr env (calls w OCtx + j)%nat = None) →
  ∃ w1, same_state w w1 ∧
        trace w1 = trace w ++ (failedPublish buf <$> errs) ∧
        calls w1 OPublish = (calls w OPublish + length errs)%nat ∧
        calls w1 OCtx = (calls w OCtx + length errs)%nat ∧
        calls w1 OReset = calls w OReset ∧
        calls w1 OLocalDB = calls w OLocalDB ∧
        broadcastLoop env (length errs + fuel) atx w = broadcastLoop env fuel atx w1.
Proof.
  induction errs as [|e errs IH]; intros fuel w Henc Hfail.
  - exists w. split; [apply same_state_refl|]. cbn. rewrite app_nil_r, !Nat.add_0_r. done.
  - destruct (Hfail 0%nat e eq_refl) as [Hp Hc]. rewrite Nat.add_0_r in Hp, Hc.
    cbn [length Nat.add broadcastLoop]. unfold broadcast. rewrite Henc. go.
    rewrite Hp. go. rewrite Hc. go.
    set (w0 := bump OCtx _).
    destruct (IH fuel w0 Henc) as (w1 & Hs & Ht & Hcp & Hcc & Hcr & Hcd & Hloop).
    { intros j e' Hj. destruct (Hfail (S j) e' Hj) as [Hp' Hc'].
      subst w0. go_fields.
      by replace (S (calls w OPublish) + j)%nat with (calls w OPublish + S j)%nat by lia;
         replace (S (calls w OCtx) + j)%nat with (calls w OCtx + S j)%nat by lia. }
    exists w1. split; [eapply same_state_trans; [|exact Hs]; subst w0; same_state_now|].
    split; [rewrite Ht; subst w0; go_fields; cbn; by rewrite <- app_assoc|].
    split; [rewrite Hcp; subst w0; go_fields; lia|].
    split; [rewrite Hcc; subst w0; go_fields; lia|].
    split; [rewrite Hcr; by subst w0|].
    split; [rewrite Hcd; by subst w0|done].
Qed.

(** C4. Once the challenge is built and the ATX created, [PublishActivationTx]
    broadcasts the encoding of that one ATX.  While the attempts fail and the
    context is not done the loop goes on, however many iterations it is
    granted, and every attempt publishes the same bytes.  On the first
    attempt that succeeds the loop ends: [ResetState] is called, then, if it
    succeeded, [RemoveChallenge]; when both succeed the call returns without
    error, the proving progress is cleared and no challenge is persisted for
    the identity; a failure of either is returned and stops the clearing.  If
    an attempt fails and the context is then done, the call returns an error
    that wraps the error of the context, and nothing was cleared. *)
Theorem PublishActivationTx_broadcast env conf fuel sig w ch w1 atx w2 buf
    (errs : list error) :
  BuildNIPostChallenge env conf sig w = (Return ch, w1) →
  createAtx env sig ch (bump OClock w1) = (Return atx, w2) →
  Encode env atx = Ok buf →
  (∀ j e, errs !! j = Some e →
          Publish env (calls w2 OPublish + j)%nat buf = Some e ∧
          ctxErr env (calls w2 OCtx + j)%nat = None) →
  let tries := failedPublish buf <$> errs in
  let p := (calls w2 OPublish + length errs)%nat in
  let c := (calls w2 OCtx + length errs)%nat in
  (length errs = fuel →
     ∃ w3, PublishActivationTx env conf fuel sig w = (Running, w3) ∧
           same_state w2 w3 ∧ trace w3 = trace w2 ++ tries) ∧
  ((length errs < fuel)%nat →
     (Publish env p buf = None →
        ∃ out w3, PublishActivationTx env conf fuel sig w = (out, w3) ∧
          match resetStateErr env (calls w2 OReset),
                localDBFault env (calls w2 OLocalDB) with
          | Some e1, _ =>
              out = Fail (Errorf "reset nipost builder state" e1) ∧
              trace w3 = trace w2 ++ tries ++
                [EvPublish buf None; EvResetState sig (Some e1)] ∧
              same_state w2 w3
          | None, Some e2 =>
              out = Fail (Errorf "discarding challenge after published ATX" e2) ∧
              trace w3 = trace w2 ++ tries ++
                [EvPublish buf None; EvResetState sig None;
                 EvRemoveChallenge sig (Some e2)] ∧
              (sig ∉ proverState w3) ∧ challenges w3 = challenges w2
          | None, None =>
              out = Return tt ∧
              trace w3 = trace w2 ++ tries ++
                [EvPublish buf None; EvResetState sig None;
                 EvRemoveChallenge sig None;
                 EvAtxPublished (PublishEpoch (atx_Challenge atx))
                                (TargetEpoch (atx_Challenge atx))] ∧
              (sig ∉ proverState w3) ∧ challenges w3 !! sig = None
          end) ∧
     (∀ e ce, Publish env p buf = Some e → ctxErr env c = Some ce →
        ∃ w3, PublishActivationTx env conf fuel sig w
                = (Fail (Errorf "broadcast" ce), w3) ∧
              same_state w2 w3 ∧
              trace w3 = trace w2 ++ tries ++ [failedPublish buf e])).
Proof.
  intros Eb Ec Henc Hfail tries p c.
  rewrite (PublishActivationTx_steps _ _ _ _ _ _ _ Eb), Ec.
  unfold publishAtx. cbv beta iota delta [bind].
  split.
  - intros <-.
    destruct (broadcastLoop_failures env atx buf errs 0%nat w2 Henc Hfail)
      as (w3 & Hs & Ht & _ & _ & _ & _ & Hloop).
    rewrite Nat.add_0_r in Hloop. rewrite Hloop. cbn [broadcastLoop]. go.
    by exists w3.
  - intros Hlt.
    destruct (broadcastLoop_failures env atx buf errs (fuel - length errs)%nat
                w2 Henc Hfail)
      as (w3 & Hs & Ht & Hcp & Hcc & Hcr & Hcd & Hloop).
    replace (length errs + (fuel - length errs))%nat with fuel in Hloop by lia.
    rewrite Hloop.
    destruct (fuel - length errs)%nat as [|fuel'] eqn:Hf; [lia|].
    cbn [broadcastLoop]. unfold broadcast. rewrite Henc. go.
    rewrite Hcp. fold p.
    destruct Hs as (C & I & P & Q & S1 & S2 & S3 & S4).
    split.
    + intros Hp. rewrite Hp. go. rewrite Hcr.
      destruct (resetStateErr env (calls w2 OReset)) as [e1|]; go.
      { eexists _, _. split; [done|]. split; [done|]. go_fields.
        split; [rewrite Ht; by rewrite <- !app_assoc|same_state_now]. }
      rewrite Hcd.
      destruct (localDBFault env (calls w2 OLocalDB)) as [e2|]; go.
      { eexists _, _. split; [done|]. split; [done|]. go_fields.
        split; [rewrite Ht; by rewrite <- !app_assoc|].
        split; [set_solver|done]. }
      eexists _, _. split; [done|]. split; [done|]. go_fields.
      split; [rewrite Ht; by rewrite <- !app_assoc|].
      split; [set_solver|]. unfold nipost.RemoveChallenge. apply lookup_delete_eq.
    + intros e ce Hp Hc. rewrite Hp. go. rewrite Hcc. fold c. rewrite Hc. go.
      eexists. split; [done|]. split; [same_state_now|].
      go_fields. rewrite Ht. by rewrite <- !app_assoc.
Qed.

(** ** C7: stopping *)

Lemma resetSigners_run env : ∀ sigs acc w,
  ∃ steps w',
    resetSigners env sigs acc w = (Return (joinFailures acc (concat steps)), w') ∧
    Forall2 resetSteps sigs steps ∧
    trace w' = trace w ++ concat steps ∧
    started w' = started w ∧ initialPosts w' = initialPosts w ∧
    proverState w' ⊆ proverState w ∧
    (∀ id, challenges w !! id = None → challenges w' !! id = None) ∧
    (∀ id st, postStates w !! id = Some st → id ∉ sigs → postStates w' !! id = Some st) ∧
    (∀ sig, sig ∈ sigs → postStates w' !! sig = Some PostStateIdle) ∧
    (∀ sig, EvResetState sig None ∈ concat steps → sig ∉ proverState w') ∧
    (∀ sig, EvRemoveChallenge sig None ∈ concat steps → challenges w' !! sig = None).
Proof.
  induction sigs as [|sig sigs IH]; intros acc w.
  { exists [], w. cbn. rewrite app_nil_r. repeat split; try done.
    - intros ? H. by apply elem_of_nil in H.
    - intros ? H. by apply elem_of_nil in H.
    - intros ? H. by apply elem_of_nil in H. }
  cbn [resetSigners]. go.
  destruct (resetStateErr env (calls w OReset)) as [e|] eqn:Hr; go.
  - set (w1 := record _ _).
    destruct (IH (errors_Join acc (Some (Errorf "reset builder state for id" e))) w1)
      as (steps & w' & E & F & T & S & I & P & C & Q0 & Q & R1 & R2).
    exists ([EvResetState sig (Some e)] :: steps), w'.
    split; [rewrite E; done|].
    split; [constructor; [left; by eexists|done]|].
    split; [rewrite T; subst w1; go_fields; cbn; by rewrite <- app_assoc|].
    split; [by rewrite S|]. split; [by rewrite I|]. split; [by rewrite P|].
    split; [intros id Hid; by apply C|].
    split.
    { intros id st Hid Hn. apply not_elem_of_cons in Hn as [Hne Hn].
      apply Q0; [|done]. subst w1. go_fields. by rewrite lookup_insert_ne. }
    split.
    { intros s Hs. destruct (decide (s ∈ sigs)) as [Hin|Hnin]; [by apply Q|].
      apply elem_of_cons in Hs as [->|Hs]; [|done].
      apply (Q0 sig PostStateIdle); [|done].
      subst w1. go_fields. apply lookup_insert_eq. }
    split.
    { intros s Hs. cbn in Hs. apply elem_of_cons in Hs as [Hs|Hs]; [done|]. by apply R1. }
    intros s Hs. cbn in Hs. apply elem_of_cons in Hs as [Hs|Hs]; [done|]. by apply R2.
  - destruct (localDBFault env (calls w OLocalDB)) as [e|] eqn:Hd; go.
    + set (w1 := record _ _).
      destruct (IH (errors_Join acc (Some (Errorf "remove nipost challenge for id" e))) w1)
        as (steps & w' & E & F & T & S & I & P & C & Q0 & Q & R1 & R2).
      exists ([EvResetState sig None; EvRemoveChallenge sig (Some e)] :: steps), w'.
      split; [rewrite E; done|].
      split; [constructor; [right; by eexists|done]|].
      split; [rewrite T; subst w1; go_fields; cbn; by rewrite <- !app_assoc|].
      split; [by rewrite S|]. split; [by rewrite I|].
      split; [etrans; [exact P|]; subst w1; go_fields; set_solver|].
      split; [intros id Hid; by apply C|].
      split.
      { intros id st Hid Hn. apply not_elem_of_cons in Hn as [Hne Hn].
        apply Q0; [|done]. subst w1. go_fields. by rewrite lookup_insert_ne. }
      split.
      { intros s Hs. destruct (decide (s ∈ sigs)) as [Hin|Hnin]; [by apply Q|].
        apply elem_of_cons in Hs as [->|Hs]; [|done].
        apply (Q0 sig PostStateIdle); [|done].
        subst w1. go_fields. apply lookup_insert_eq. }
      split.
      { intros s Hs. cbn in Hs. apply elem_of_cons in Hs as [Hs|Hs].
        - injection Hs as ->. assert (sig ∉ proverState w1) by (subst w1; go_fields; set_solver).
          set_solver.
        - apply elem_of_cons in Hs as [Hs|Hs]; [done|]. by apply R1. }
      intros s Hs. cbn in Hs. apply elem_of_cons in Hs as [Hs|Hs]; [done|].
      apply elem_of_cons in Hs as [Hs|Hs]; [done|]. by apply R2.
    + set (w1 := record _ _).
      destruct (IH acc w1)
        as (steps & w' & E & F & T & S & I & P & C & Q0 & Q & R1 & R2).
      exists ([EvResetState sig None; EvRemoveChallenge sig None] :: steps), w'.
      split; [rewrite E; done|].
      split; [constructor; [right; by eexists|done]|].
      split; [rewrite T; subst w1; go_fields; cbn; by rewrite <- !app_assoc|].
      split; [by rewrite S|]. split; [by rewrite I|].
      split; [etrans; [exact P|]; subst w1; go_fields; set_solver|].
      split.
      { intros id Hid. apply C. subst w1. go_fields. unfold nipost.RemoveChallenge.
        destruct (decide (id = sig)) as [->|Hne];
          [apply lookup_delete_eq|by rewrite lookup_delete_ne]. }
      split.
      { intros id st Hid Hn. apply not_elem_of_cons in Hn as [Hne Hn].
        apply Q0; [|done]. subst w1. go_fields. by rewrite lookup_insert_ne. }
      split.
      { intros s Hs. destruct (decide (s ∈ sigs)) as [Hin|Hnin]; [by apply Q|].
        apply elem_of_cons in Hs as [->|Hs]; [|done].
        apply (Q0 sig PostStateIdle); [|done].
        subst w1. go_fields. apply lookup_insert_eq. }
      split.
      { intros s Hs. cbn in Hs. apply elem_of_cons in Hs as [Hs|Hs].
        - injection Hs as ->. assert (sig ∉ proverState w1) by (subst w1; go_fields; set_solver).
          set_solver.
        - apply elem_of_cons in Hs as [Hs|Hs]; [done|]. by apply R1. }
      intros s Hs. cbn in Hs. apply elem_of_cons in Hs as [Hs|Hs]; [done|].
      apply elem_of_cons in Hs as [Hs|Hs].
      * injection Hs as ->. apply C. subst w1. go_fields.
        unfold nipost.RemoveChallenge. apply lookup_delete_eq.
      * by apply R2.
Qed.

(** C7, as the code has it.  [StopSmeshing] returns an error and changes
    nothing when smeshing was not started.  Otherwise it cancels the context
    of the loops and waits for them; when they ended without error or with
    [context.Canceled], smeshing is marked as stopped and, only if the reset
    is asked for, every registered identity is taken in turn: its post state
    is set to idle and the reset of the prover is attempted; the removal of
    the persisted challenge is attempted exactly for the identities whose
    reset succeeded.  A failure for one identity does not keep the loop from
    the next ones, and the error returned is the join, in order, of all the
    failures (none: no error).  When the loops ended with another error, that
    error is returned, wrapped, and nothing is reset. *)
Theorem StopSmeshing_resets env deleteFiles w :
  (started w = false →
     StopSmeshing env deleteFiles w = (Fail (ErrorsNew "not started"), w)) ∧
  (started w = true →
   match egWait env (calls w OEgWait) with
   | None => True
   | Some e => errors_Is e Canceled = true
   end →
   ∃ out w', StopSmeshing env deleteFiles w = (out, w') ∧ started w' = false ∧
     if deleteFiles then
       ∃ steps,
         Forall2 resetSteps (signers w) steps ∧
         trace w' = trace w ++ EvStop :: concat steps ∧
         out = match joinFailures None (concat steps) with
               | Some e => Fail e
               | None => Return tt
               end ∧
         (∀ sig, sig ∈ signers w → postStates w' !! sig = Some PostStateIdle) ∧
         (∀ sig, EvResetState sig None ∈ concat steps → sig ∉ proverState w') ∧
         (∀ sig, EvRemoveChallenge sig None ∈ concat steps →
                 challenges w' !! sig = None)
     else
       out = Return tt ∧ trace w' = trace w ++ [EvStop] ∧
       challenges w' = challenges w ∧ proverState w' = proverState w ∧
       postStates w' = postStates w) ∧
  (started w = true →
   ∀ e, egWait env (calls w OEgWait) = Some e → errors_Is e Canceled = false →
   ∃ w', StopSmeshing env deleteFiles w
           = (Fail (Errorf "failed to stop smeshing" e), w') ∧
         started w' = false ∧ trace w' = trace w ++ [EvStop] ∧
         challenges w' = challenges w ∧ proverState w' = proverState w ∧
         postStates w' = postStates w).
Proof.
  split; [|split; cycle 1].
  - intros Hs. unfold StopSmeshing. go. by rewrite Hs.
  - intros Hs e He Hnc. unfold StopSmeshing. go. rewrite Hs. cbn [negb]. go.
    rewrite He, Hnc. go. eexists. split; [done|]. done.
  - intros Hs Hclean. unfold StopSmeshing. go. rewrite Hs. cbn [negb]. go.
    destruct deleteFiles; cbn [negb].
    + destruct (resetSigners_run env (signers w) None
                  (set_started false (bump OEgWait (record EvStop w))))
        as (steps & w' & E & F & T & S & _ & _ & _ & _ & Q & R1 & R2).
      revert E T S. go_fields. intros E T S.
      exists (match joinFailures None (concat steps) with
              | Some e => Fail e
              | None => Return tt
              end), w'.
      split.
      { destruct (egWait env (calls w OEgWait)) as [e|]; [rewrite Hclean|];
          go; rewrite E; by destruct (joinFailures None (concat steps)). }
      split; [done|]. exists steps. split; [done|].
      split; [rewrite T; by rewrite <- app_assoc|]. done.
    + destruct (egWait env (calls w OEgWait)) as [e|]; [rewrite Hclean|];
        go; eexists _, _; (split; [done|]); done.
Qed.

(** ** The theorems at work on the concrete node *)

Lemma env_steady_healthy : healthy env_steady.
Proof. repeat split; intros n; reflexivity. Qed.

Lemma env_steady_can_build w : can_build env_steady w 1.
Proof. intros n. exact I. Qed.

(** The stale challenge of epoch 5 at epoch 7: it is replaced. *)
Lemma BuildNIPostChallenge_persisted_witness :
  (ctxErr env_steady (calls (demo_world demo_stale) OCtx) = None ∧
   localDBFault env_steady (calls (demo_world demo_stale) OLocalDB) = None ∧
   challenges (demo_world demo_stale) !! 1 = Some demo_stale) ∧
  ∃ out w', BuildNIPostChallenge env_steady demo_conf 1 (demo_world demo_stale)
            = (out, w') ∧
            postStates w' !! 1 = Some PostStateIdle ∧
            ∃ ch', out = Return ch' ∧ 7 < PublishEpoch ch'.
Proof.
  split; [repeat split; reflexivity|].
  destruct (BuildNIPostChallenge_persisted env_steady demo_conf 1
              (demo_world demo_stale) demo_stale eq_refl eq_refl eq_refl)
    as (out & w' & E & _ & Hstale).
  destruct Hstale as (Hidle & _ & Hret & Hprog); [reflexivity|].
  destruct (Hprog env_steady_healthy (env_steady_can_build _)) as [ch' ->].
  exists (Return ch'), w'. split; [exact E|]. split; [exact Hidle|].
  exists ch'. split; [reflexivity|].
  destruct (Hret ch' eq_refl) as (_ & _ & _ & Hep).
  apply Hep.
  - split; vm_compute; [discriminate|reflexivity].
  - intros l [= <-]. split; vm_compute; [discriminate|reflexivity].
Defined.

(** Two identities, one with a challenge. *)
Lemma AddChallenge_second_refused_witness :
  (challenges (demo_world demo_stale) !! 1 = Some demo_stale ∧
   challenges (demo_world demo_stale) !! 2 = None) ∧
  (∃ e, nipost.AddChallenge (challenges (demo_world demo_stale)) 1 demo_fresh = Err e) ∧
  (∃ db', nipost.AddChallenge (challenges (demo_world demo_stale)) 2 demo_fresh = Ok db' ∧
          nipost.Challenge db' 1 = Ok demo_stale).
Proof.
  split; [split; reflexivity|].
  destruct (AddChallenge_second_refused env_steady (demo_world demo_stale) 1 2
              demo_stale demo_fresh eq_refl eq_refl)
    as (Hrefused & _ & _ & db' & Hadd & _ & Hkept).
  split; [exact Hrefused|]. exists db'. split; [exact Hadd|exact Hkept].
Defined.

Lemma world_built_eq env :
  BuildNIPostChallenge env demo_conf 1 (demo_world demo_fresh)
  = (fst (BuildNIPostChallenge env demo_conf 1 (demo_world demo_fresh)),
     world_built env).
Proof. unfold world_built. by destruct (BuildNIPostChallenge _ _ _ _). Qed.

Lemma built_steady :
  BuildNIPostChallenge env_steady demo_conf 1 (demo_world demo_fresh)
  = (Return demo_fresh, world_built env_steady).
Proof. rewrite world_built_eq. reflexivity. Qed.

Lemma built_late :
  BuildNIPostChallenge env_late demo_conf 1 (demo_world demo_fresh)
  = (Return demo_fresh, world_built env_late).
Proof. rewrite world_built_eq. reflexivity. Qed.

Lemma built_unreadable :
  BuildNIPostChallenge env_unreadable demo_conf 1 (demo_world demo_fresh)
  = (Return demo_fresh, world_built env_unreadable).
Proof. rewrite world_built_eq. reflexivity. Qed.

Lemma created_steady :
  createAtx env_steady 1 demo_fresh (bump OClock (world_built env_steady))
  = (Return (demo_atx None), world_created env_steady).
Proof.
  unfold world_created.
  destruct (createAtx _ _ _ _) as [out w2] eqn:E.
  apply (f_equal fst) in E. cbn [fst snd] in *. rewrite <- E. reflexivity.
Qed.

(** Two broadcasts fail, the third succeeds: the challenge is cleared. *)
Lemma PublishActivationTx_broadcast_witness :
  (BuildNIPostChallenge env_steady demo_conf 1 (demo_world demo_fresh)
     = (Return demo_fresh, world_built env_steady) ∧
   createAtx env_steady 1 demo_fresh (bump OClock (world_built env_steady))
     = (Return (demo_atx None), world_created env_steady) ∧
   Encode env_steady (demo_atx None) = Ok [8; 1; 2; 9]) ∧
  ∃ w3, PublishActivationTx env_steady demo_conf 5 1 (demo_world demo_fresh)
        = (Return tt, w3) ∧
        trace w3 = trace (world_created env_steady) ++
          [EvPublish [8; 1; 2; 9] (Some (External 5));
           EvPublish [8; 1; 2; 9] (Some (External 5));
           EvPublish [8; 1; 2; 9] None;
           EvResetState 1 None; EvRemoveChallenge 1 None;
           EvAtxPublished 8 9] ∧
        challenges w3 !! 1 = None.
Proof.
  split; [split; [exact built_steady|split; [exact created_steady|reflexivity]]|].
  destruct (PublishActivationTx_broadcast env_steady demo_conf 5 1
              (demo_world demo_fresh) demo_fresh (world_built env_steady)
              (demo_atx None) (world_created env_steady) [8; 1; 2; 9]
              [External 5; External 5] built_steady created_steady eq_refl)
    as [_ Hgo].
  { intros [|[|j]] e Hj; try done; injection Hj as <-; split; reflexivity. }
  destruct Hgo as [Hok _]; [cbn; lia|].
  destruct Hok as (out & w3 & E & Hend); [reflexivity|].
  change (resetStateErr env_steady (calls (world_created env_steady) OReset))
    with (@None error) in Hend.
  change (localDBFault env_steady (calls (world_created env_steady) OLocalDB))
    with (@None error) in Hend.
  destruct Hend as (-> & Ht & _ & Hc).
  exists w3. split; [exact E|]. split; [exact Ht|exact Hc].
Defined.

(** At epoch 7, with a last ATX of epoch 6 and a poet round of epoch 7
    that has started: the challenge is built for epoch 8 and published in
    epoch 9. *)
Lemma BuildNIPostChallenge_target_epoch_witness :
  match challenges (demo_world demo_stale) !! 1 with
  | Some ch => PublishEpoch ch
               < GetEpoch env_steady (currentLayer env_steady
                                        (calls (demo_world demo_stale) OClock))
  | None => True
  end ∧
  ∃ ch' w', BuildNIPostChallenge env_steady demo_conf 1 (demo_world demo_stale)
            = (Return ch', w') ∧ PublishEpoch ch' = 9.
Proof.
  split; [reflexivity|].
  destruct (BuildNIPostChallenge_target_epoch env_steady demo_conf 1
              (demo_world demo_stale) eq_refl)
    as (out & w' & E & Hret & Hprog).
  destruct (Hprog env_steady_healthy (env_steady_can_build _)) as [ch' ->].
  exists ch', w'. split; [exact E|].
  destruct (Hret ch' eq_refl) as (_ & Hep & _).
  exact Hep.
Defined.

(** The store holds 100 above 101 above 102, and 100 does not verify. *)
Lemma getPositioningAtx_rejection_loop_witness :
  ((∀ n, ctxErr env_steady n = None) ∧ (∀ n, cdbFault env_steady n = None)) ∧
  ∃ w', getPositioningAtx env_steady demo_conf 1 (demo_world demo_stale)
        = (Return 101, w') ∧
        trace w' = [EvVerifyChain 100 (Some (External 7)); EvVerifyChain 101 None].
Proof.
  split; [split; intros n; reflexivity|].
  destruct (getPositioningAtx_rejection_loop env_steady demo_conf 1
              (demo_world demo_stale) (λ _, eq_refl) (λ _, eq_refl))
    as [_ Habc].
  destruct (Habc (demo_hdr 100 30) (demo_hdr 101 20) (External 7))
    as (w' & E & T).
  - apply list_elem_of_here.
  - apply list_elem_of_further, list_elem_of_here.
  - discriminate.
  - reflexivity.
  - intros h Hin.
    apply elem_of_cons in Hin as [->|Hin]; [by left|].
    apply elem_of_cons in Hin as [->|Hin]; [by right; left|].
    apply elem_of_cons in Hin as [->|Hin]; [right; right; reflexivity|].
    by apply elem_of_nil in Hin.
  - intros n. reflexivity.
  - intros n. reflexivity.
  - exists w'. split; [exact E|exact T].
Defined.

(** Stopping with a reset, the first reset failing. *)
Lemma StopSmeshing_resets_witness :
  (started (demo_world demo_stale) = true ∧
   egWait env_reset_fails (calls (demo_world demo_stale) OEgWait) = None) ∧
  ∃ out w', StopSmeshing env_reset_fails true (demo_world demo_stale) = (out, w') ∧
            started w' = false ∧
            postStates w' !! 1 = Some PostStateIdle ∧
            postStates w' !! 2 = Some PostStateIdle.
Proof.
  split; [split; reflexivity|].
  destruct (StopSmeshing_resets env_reset_fails true (demo_world demo_stale))
    as (_ & Hstop & _).
  destruct (Hstop eq_refl I) as (out & w' & E & Hs & steps & _ & _ & _ & Hidle & _).
  exists out, w'. split; [exact E|]. split; [exact Hs|].
  split; apply Hidle.
  - apply list_elem_of_here.
  - apply list_elem_of_further, list_elem_of_here.
Defined.

(** C7 as stated fails: with two identities registered and the reset of
    the prover failing for the first, [StopSmeshing] with the reset asked for
    never attempts the removal of the challenge of that identity, which stays
    persisted; the second identity is still reset and its challenge
    removed. *)
Lemma StopSmeshing_reset_failure_skips_removal :
  1 ∈ signers (demo_world demo_stale) ∧
  fst (StopSmeshing env_reset_fails true (demo_world demo_stale))
    = Fail (Joined [Errorf "reset builder state for id" (External 3)]) ∧
  trace (snd (StopSmeshing env_reset_fails true (demo_world demo_stale)))
    = [EvStop; EvResetState 1 (Some (External 3));
       EvResetState 2 None; EvRemoveChallenge 2 None] ∧
  ¬ (∀ sig, sig ∈ signers (demo_world demo_stale) →
       ∃ r, EvRemoveChallenge sig r
            ∈ trace (snd (StopSmeshing env_reset_fails true (demo_world demo_stale)))) ∧
  challenges (snd (StopSmeshing env_reset_fails true (demo_world demo_stale))) !! 1
    = Some demo_stale.
Proof.
  assert (T : trace (snd (StopSmeshing env_reset_fails true (demo_world demo_stale)))
              = [EvStop; EvResetState 1 (Some (External 3));
                 EvResetState 2 None; EvRemoveChallenge 2 None])
    by (vm_compute; reflexivity).
  split; [apply list_elem_of_here|].
  split; [vm_compute; reflexivity|].
  split; [exact T|].
  split; [|vm_compute; reflexivity].
  intros Hall. destruct (Hall 1) as [r Hin]; [apply list_elem_of_here|].
  rewrite T in Hin.
  repeat (apply elem_of_cons in Hin as [Hin|Hin]; [discriminate|]).
  by apply elem_of_nil in Hin.
Qed.

(** The ATX of the challenge of epoch 8 when the fresh nonce is the
    recorded one: no nonce. *)
Lemma createAtx_vrf_nonce_witness :
  (BuildNIPost env_steady (calls (bump OClock (world_built env_steady)) OBuildNIPost)
     1 demo_fresh = Ok {| ns_NIPost := 1; ns_NumUnits := 2; ns_VRFNonce := 3 |} ∧
   ctxErr env_steady (calls (bump OClock (world_built env_steady)) OCtx) = None ∧
   GetEpoch env_steady
     (currentLayer env_steady (S (calls (bump OClock (world_built env_steady)) OClock)))
     ≤ PublishEpoch demo_fresh) ∧
  ∃ atx w', createAtx env_steady 1 demo_fresh (bump OClock (world_built env_steady))
            = (Return atx, w') ∧ atx_VRFNonce atx = None.
Proof.
  split; [split; [reflexivity|split; [reflexivity|discriminate]]|].
  destruct (createAtx_vrf_nonce env_steady 1 demo_fresh
              (bump OClock (world_built env_steady))
              {| ns_NIPost := 1; ns_NumUnits := 2; ns_VRFNonce := 3 |}
              eq_refl eq_refl)
    as (out & w' & E & Hatx & Hret); [discriminate|].
  destruct (Hret (λ _, eq_refl)) as [atx ->].
  exists atx, w'. split; [exact E|].
  destruct (Hatx atx eq_refl) as (_ & _ & Hreg).
  destruct (Hreg ltac:(discriminate) 3 eq_refl) as [_ Hsame].
  apply Hsame. reflexivity.
Defined.

(** A grace period of 200ns and the draw 12345: the deadline. *)
Lemma awaitBuildStart_deadline_witness :
  0 ≤ GracePeriod demo_conf ∧
  buildNipostChallengeStartDeadline env_steady
    (poetRoundStart env_steady demo_conf 8) (GracePeriod demo_conf)
    (demo_world demo_stale)
  = (Return 80300, bump ORand (demo_world demo_stale)).
Proof.
  split; [discriminate|].
  destruct (awaitBuildStart_deadline env_steady demo_conf 8 (demo_world demo_stale))
    as [Hd _]; [discriminate|].
  exact Hd.
Defined.

(** The recorded nonce cannot be read: the ATX carries none. *)
Lemma createAtx_nonce_unreadable_witness :
  (BuildNIPostChallenge env_unreadable demo_conf 1 (demo_world demo_fresh)
     = (Return demo_fresh, world_built env_unreadable) ∧
   PrevATXID demo_fresh ≠ EmptyATXID ∧
   VRFNonce env_unreadable (calls (world_built env_unreadable) OVRFNonce) 1
     (PublishEpoch demo_fresh) = Err (External 8)) ∧
  ∃ atx w2 out w3 tr,
    createAtx env_unreadable 1 demo_fresh
      (bump OClock (world_built env_unreadable)) = (Return atx, w2) ∧
    atx_VRFNonce atx = None ∧ atx_SmesherID atx = 1 ∧
    PublishActivationTx env_unreadable demo_conf 4 1 (demo_world demo_fresh)
      = (out, w3) ∧
    trace w3 = trace w2 ++ EvPublish [8; 1; 2; 9] (Some (External 5)) :: tr.
Proof.
  split; [split; [exact built_unreadable|split; [discriminate|reflexivity]]|].
  destruct (createAtx_nonce_unreadable env_unreadable demo_conf 3 1
              (demo_world demo_fresh) demo_fresh (world_built env_unreadable)
              {| ns_NIPost := 1; ns_NumUnits := 2; ns_VRFNonce := 3 |}
              (External 8) built_unreadable)
    as (atx & w2 & E & Hn & Hc & _ & Hni & Hnu & _ & _ & Hsm & Hsg & _ & Hcp & Hpub).
  - discriminate.
  - reflexivity.
  - reflexivity.
  - discriminate.
  - reflexivity.
  - intros a. reflexivity.
  - destruct (Hpub [PublishEpoch (atx_Challenge atx); atx_NIPost atx;
                    atx_NumUnits atx; atx_Signature atx] eq_refl)
      as ((out & w3 & tr & Ep & Ht) & _).
    exists atx, w2, out, w3, tr. split; [exact E|]. split; [exact Hn|].
    split; [exact Hsm|]. split; [exact Ep|].
    rewrite Ht, Hc, Hni, Hnu, Hsg, Hcp. reflexivity.
Defined.

(** ** The builder at work *)

(** An identity without ATX: with no ATX stored the positioning ATX is the
    golden one, the challenge has the empty previous ATX id and carries the
    initial proof, and it is persisted. *)
Example initial_challenge :
  ∃ w', BuildNIPostChallenge env_initial demo_conf 1 world_initial
        = (Return {| PublishEpoch := 9; Sequence := 0; PrevATXID := EmptyATXID;
                     PositioningATX := 42; CommitmentATX := Some 55;
                     InitialPost := Some {| post_Nonce := 4;
                                            post_Indices := [1; 2; 3];
                                            post_Pow := 6 |} |}, w') ∧
        is_Some (challenges w' !! 1).
Proof.
  destruct (BuildNIPostChallenge env_initial demo_conf 1 world_initial)
    as [out w'] eqn:E.
  exists w'. split.
  - apply (f_equal fst) in E as E1. cbn [fst] in E1. rewrite <- E1. reflexivity.
  - apply (f_equal snd) in E. cbn [snd] in E. rewrite <- E. by eexists.
Qed.

(** The context cancelled during the sync wait: the error of the context
    is returned, nothing is cleared and no call is traced. *)
Example cancelled_at_sync :
  ∃ w', PublishActivationTx env_cancelled demo_conf 3 1 (demo_world demo_stale)
        = (Fail (Sentinel Canceled), w') ∧
        same_state (demo_world demo_stale) w' ∧ trace w' = [].
Proof.
  eexists. split; [reflexivity|]. split; [same_state_now|reflexivity].
Qed.

(** The run loop on that cancellation: a clean return. *)
Example run_cancelled :
  fst (run_publish env_cancelled demo_conf 3 1 (demo_world demo_stale)) = Return tt.
Proof. reflexivity. Qed.

(** * The lifecycle of the builder *)

Lemma Register_run ri sig w :
  ∃ tasks w1, Register ri sig w = (Return tasks, w1) ∧
    ((sig ∈ signers w ∧ w1 = w ∧ tasks = []) ∨
     ((sig ∉ signers w) ∧
      signers w1 = signers w ++ [sig] ∧
      postStates w1 = <[sig := PostStateIdle]> (postStates w) ∧
      challenges w1 = challenges w ∧ initialPosts w1 = initialPosts w ∧
      proverState w1 = proverState w ∧ started w1 = started w ∧
      coinbaseAccount w1 = coinbaseAccount w ∧ atxStore w1 = atxStore w ∧
      calls w1 = calls w ∧ trace w1 = trace w ∧
      tasks = if started w then startID ri ParentCtx sig else [])).
Proof.
  unfold Register. run_go.
  destruct (decide (sig ∈ signers w)) as [Hin|Hout]; run_go.
  - eexists _, _. split; [done|]. by left.
  - destruct (started w) eqn:Hs; run_go.
    + eexists _, _. split; [done|]. right. run_fields. by rewrite ?Hs.
    + eexists _, _. split; [done|]. right. run_fields. by rewrite ?Hs.
Qed.

Lemma startID_elem ri ctx sig t :
  t ∈ startID ri ctx sig ↔
  t = RunLoop ctx sig ∨ (ri ≠ 0 ∧ t = RegossipLoop ctx sig).
Proof.
  unfold startID. destruct (decide (ri = 0)) as [Hz|Hnz].
  - rewrite list_elem_of_singleton. split; [by left|]. by intros [?|[? _]].
  - rewrite elem_of_cons, list_elem_of_singleton. split.
    + intros [?|?]; [by left|by right].
    + intros [?|[_ ?]]; [by left|by right].
Qed.

Lemma startID_NoDup ri ctx sig : NoDup (startID ri ctx sig).
Proof.
  unfold startID. destruct (decide (ri = 0)).
  - apply NoDup_singleton.
  - apply NoDup_cons. split; [|apply NoDup_singleton].
    rewrite list_elem_of_singleton. discriminate.
Qed.

Lemma started_tasks_elem ri ctx (sigs : list NodeID) t :
  t ∈ concat (startID ri ctx <$> sigs) ↔
  ∃ sig, sig ∈ sigs ∧ t ∈ startID ri ctx sig.
Proof.
  induction sigs as [|s sigs IH]; rewrite ?fmap_cons; cbn [concat].
  - split; [by intros ?%elem_of_nil|]. by intros (? & ?%elem_of_nil & _).
  - rewrite elem_of_app, IH. split.
    + intros [H|(sig & Hin & H)].
      * exists s. split; [apply list_elem_of_here|done].
      * exists sig. split; [by apply list_elem_of_further|done].
    + intros (sig & [->|Hin]%elem_of_cons & H); [by left|].
      right. by exists sig.
Qed.

Lemma started_tasks_NoDup ri ctx (sigs : list NodeID) :
  NoDup sigs → NoDup (concat (startID ri ctx <$> sigs)).
Proof.
  induction 1 as [|s sigs Hs Hnd IH]; rewrite ?fmap_cons; cbn [concat];
    [apply NoDup_nil_2|].
  apply NoDup_app. split; [apply startID_NoDup|]. split; [|done].
  intros t Ht (sig & Hin & Ht')%started_tasks_elem.
  apply startID_elem in Ht, Ht'.
  assert (task_sig t = s) by (by destruct Ht as [->|[_ ->]]).
  assert (task_sig t = sig) by (by destruct Ht' as [->|[_ ->]]).
  congruence.
Qed.

(** X1. [Register] of an identity that is not registered yet adds it to the
    signers, beside those that were there, and sets its post state to idle,
    which is what [PostStates] then reports for it.
    The post states of the other identities, the challenges, the initial
    proofs, the coinbase and the smeshing flag stay as they are, and nothing
    is asked of a collaborator.  Goroutines are started for the identity
    only if smeshing has been started: its run loop and, if the re-gossip
    interval is not zero, its re-gossip loop. *)
Theorem Register_adds ri sig w :
  sig ∉ signers w →
  ∃ tasks w1, Register ri sig w = (Return tasks, w1) ∧
    (∀ id, id ∈ signers w1 ↔ id = sig ∨ id ∈ signers w) ∧
    (NoDup (signers w) → NoDup (signers w1)) ∧
    postStates w1 !! sig = Some PostStateIdle ∧
    (∀ id, id ≠ sig → postStates w1 !! id = postStates w !! id) ∧
    (∃ m, PostStates w1 = (Return m, w1) ∧ m !! sig = Some PostStateIdle) ∧
    challenges w1 = challenges w ∧ initialPosts w1 = initialPosts w ∧
    proverState w1 = proverState w ∧ started w1 = started w ∧
    coinbaseAccount w1 = coinbaseAccount w ∧
    calls w1 = calls w ∧ trace w1 = trace w ∧
    (∀ t, t ∈ tasks ↔
          started w = true ∧
          (t = RunLoop ParentCtx sig ∨ (ri ≠ 0 ∧ t = RegossipLoop ParentCtx sig))).
Proof.
  intros Hnew.
  destruct (Register_run ri sig w) as (tasks & w1 & E & [(Hin & _)|H]); [done|].
  destruct H as (_ & Hs & Hp & Hc & Hi & Hpr & Hst & Hcb & _ & Hcalls & Htr & Ht).
  exists tasks, w1. split; [done|].
  split.
  { intros id. rewrite Hs, elem_of_app, list_elem_of_singleton. tauto. }
  split.
  { intros Hnd. rewrite Hs. apply NoDup_app. split; [done|].
    split; [|apply NoDup_singleton].
    intros id Hid ->%list_elem_of_singleton. done. }
  split; [rewrite Hp; apply lookup_insert_eq|].
  split; [intros id Hne; rewrite Hp; by apply lookup_insert_ne|].
  split.
  { eexists. split; [unfold PostStates; run_go; reflexivity|].
    apply map_lookup_filter_Some. split; [rewrite Hp; apply lookup_insert_eq|].
    cbn. rewrite Hs, elem_of_app, list_elem_of_singleton. by right. }
  repeat (split; [done|]).
  intros t. subst tasks. destruct (started w).
  - rewrite startID_elem. tauto.
  - split; [by intros ?%elem_of_nil|]. by intros [? _].
Qed.

(** X2. Whatever the state, after [Register] the identity is among the
    signers and is listed by [SmesherIDs], signers that were distinct are
    still distinct, and a second [Register] of the same identity changes
    nothing and starts no goroutine, whether smeshing is started or not. *)
Theorem Register_again ri sig w :
  ∃ tasks w1, Register ri sig w = (Return tasks, w1) ∧
    sig ∈ signers w1 ∧
    (∃ ids, SmesherIDs w1 = (Return ids, w1) ∧ sig ∈ ids) ∧
    (NoDup (signers w) → NoDup (signers w1)) ∧
    (length (signers w1) ≤ S (length (signers w)))%nat ∧
    Register ri sig w1 = (Return [], w1).
Proof.
  destruct (Register_run ri sig w) as (tasks & w1 & E & H).
  exists tasks, w1. split; [done|].
  assert (Hin : sig ∈ signers w1).
  { destruct H as [(Hin & -> & _)|(_ & Hs & _)]; [done|].
    rewrite Hs, elem_of_app, list_elem_of_singleton. by right. }
  split; [done|].
  split; [by exists (signers w1)|].
  split.
  { destruct H as [(_ & -> & _)|(Hnew & Hs & _)]; [done|].
    intros Hnd. rewrite Hs. apply NoDup_app. split; [done|].
    split; [|apply NoDup_singleton].
    intros id Hid ->%list_elem_of_singleton. done. }
  split.
  { destruct H as [(_ & -> & _)|(Hnew & Hs & _)]; [lia|].
    rewrite Hs, length_app. cbn. lia. }
  destruct (Register_run ri sig w1) as (tasks' & w2 & E' & [(_ & -> & ->)|(Hn & _)]);
    done.
Qed.

Lemma StartSmeshing_run ri coinbase w :
  StartSmeshing ri coinbase w =
    if started w then (Fail (ErrorsNew "already started"), w)
    else (Return (concat (startID ri SmeshingCtx <$> signers w)),
          set_started true (set_coinbaseAccount coinbase w)).
Proof.
  unfold StartSmeshing. run_go. by destruct (started w).
Qed.

(** X3. [StartSmeshing] on a builder that is not smeshing marks it as
    smeshing, takes the coinbase, and starts goroutines under the context
    that [StopSmeshing] cancels: the run loop of every registered identity
    and of no other, and their re-gossip loops exactly when the re-gossip
    interval is not zero; for distinct signers no goroutine is started
    twice.  The signers, their post states and what is persisted stay as
    they are. *)
Theorem StartSmeshing_starts ri coinbase w :
  started w = false →
  ∃ tasks w1, StartSmeshing ri coinbase w = (Return tasks, w1) ∧
    started w1 = true ∧ coinbaseAccount w1 = coinbase ∧
    signers w1 = signers w ∧ postStates w1 = postStates w ∧
    challenges w1 = challenges w ∧ initialPosts w1 = initialPosts w ∧
    proverState w1 = proverState w ∧ trace w1 = trace w ∧
    (∀ t, t ∈ tasks → task_ctx t = SmeshingCtx) ∧
    (∀ sig, RunLoop SmeshingCtx sig ∈ tasks ↔ sig ∈ signers w) ∧
    (∀ sig, RegossipLoop SmeshingCtx sig ∈ tasks ↔ sig ∈ signers w ∧ ri ≠ 0) ∧
    (NoDup (signers w) → NoDup tasks).
Proof.
  intros Hs. rewrite StartSmeshing_run, Hs. eexists _, _. split; [done|].
  run_fields. repeat (split; [done|]).
  split.
  { intros t (sig & _ & Ht)%started_tasks_elem.
    apply startID_elem in Ht. by destruct Ht as [->|[_ ->]]. }
  split.
  { intros sig. rewrite started_tasks_elem. split.
    - intros (s & Hin & Ht). apply startID_elem in Ht.
      destruct Ht as [Ht|[_ Ht]]; [|done]. by injection Ht as ->.
    - intros Hin. exists sig. split; [done|]. apply startID_elem. by left. }
  split.
  { intros sig. rewrite started_tasks_elem. split.
    - intros (s & Hin & Ht). apply startID_elem in Ht.
      destruct Ht as [Ht|[Hnz Ht]]; [done|]. by injection Ht as ->.
    - intros [Hin Hnz]. exists sig. split; [done|]. apply startID_elem. by right. }
  apply started_tasks_NoDup.
Qed.

(** X4. Once [StartSmeshing] has succeeded, a second [StartSmeshing] fails
    with "already started" and changes nothing: [Smeshing] still reports
    true and [Coinbase] still returns the coinbase of the first call, not
    the one of the second. *)
Theorem StartSmeshing_twice ri c1 c2 w tasks w1 :
  StartSmeshing ri c1 w = (Return tasks, w1) →
  StartSmeshing ri c2 w1 = (Fail (ErrorsNew "already started"), w1) ∧
  Smeshing w1 = (Return true, w1) ∧
  Coinbase w1 = (Return c1, w1).
Proof.
  rewrite !StartSmeshing_run. destruct (started w); [done|].
  intros [= <- <-]. run_go. done.
Qed.

(** X5. An identity that is registered after [StartSmeshing] gets its
    goroutines at once, but under the parent context of the builder: the
    goroutines that [StartSmeshing] started all run under the context that
    [StopSmeshing] cancels, those of the late identity do not. *)
Theorem Register_after_start ri coinbase sig w tasks w1 :
  StartSmeshing ri coinbase w = (Return tasks, w1) →
  sig ∉ signers w →
  ∃ tasks' w2, Register ri sig w1 = (Return tasks', w2) ∧
    started w2 = true ∧ sig ∈ signers w2 ∧
    RunLoop ParentCtx sig ∈ tasks' ∧
    (∀ t, t ∈ tasks → task_ctx t = SmeshingCtx ∧ task_sig t ≠ sig) ∧
    (∀ t, t ∈ tasks' → task_ctx t = ParentCtx ∧ task_sig t = sig).
Proof.
  rewrite StartSmeshing_run. destruct (started w) eqn:Hs; [done|].
  intros [= <- <-] Hnew.
  destruct (Register_run ri sig
              (set_started true (set_coinbaseAccount coinbase w)))
    as (tasks' & w2 & E & [(Hin & _)|H]); [done|].
  destruct H as (_ & Hsig & _ & _ & _ & _ & Hst & _ & _ & _ & _ & Ht).
  revert Hsig Hst Ht. run_fields. intros Hsig Hst ->.
  exists (startID ri ParentCtx sig), w2. split; [done|]. split; [done|].
  split; [rewrite Hsig, elem_of_app, list_elem_of_singleton; by right|].
  split; [apply startID_elem; by left|].
  split.
  - intros t (s & Hin & Ht)%started_tasks_elem. apply startID_elem in Ht.
    destruct Ht as [->|[_ ->]]; cbn; (split; [done|]); by intros ->.
  - intros t Ht%startID_elem. by destruct Ht as [->|[_ ->]].
Qed.

Lemma resetSigners_keeps env : ∀ sigs acc w,
  signers (resetSigners env sigs acc w).2 = signers w ∧
  coinbaseAccount (resetSigners env sigs acc w).2 = coinbaseAccount w ∧
  atxStore (resetSigners env sigs acc w).2 = atxStore w.
Proof.
  induction sigs as [|sig sigs IH]; intros acc w; [done|].
  cbn [resetSigners]. go.
  destruct (resetStateErr env (calls w OReset)); go.
  { match goal with |- context [resetSigners env sigs ?a ?w1] =>
      destruct (IH a w1) as (-> & -> & ->) end. done. }
  destruct (localDBFault env (calls w OLocalDB)); go.
  - match goal with |- context [resetSigners env sigs ?a ?w1] =>
      destruct (IH a w1) as (-> & -> & ->) end. done.
  - match goal with |- context [resetSigners env sigs ?a ?w1] =>
      destruct (IH a w1) as (-> & -> & ->) end. done.
Qed.

Lemma StopSmeshing_run env deleteFiles w :
  started w = true →
  ∃ out w1, StopSmeshing env deleteFiles w = (out, w1) ∧
    started w1 = false ∧ signers w1 = signers w ∧
    coinbaseAccount w1 = coinbaseAccount w ∧ initialPosts w1 = initialPosts w.
Proof.
  intros Hs. unfold StopSmeshing. go. rewrite Hs. cbn [negb]. go.
  set (w0 := set_started false (bump OEgWait (record EvStop w))).
  destruct (resetSigners_run env (signers w0) None w0)
    as (steps & w1 & E & _ & _ & S & I & _).
  destruct (resetSigners_keeps env (signers w0) None w0) as (K1 & K2 & _).
  rewrite E in K1, K2. cbn [snd] in K1, K2.
  change (signers w) with (signers w0).
  destruct deleteFiles; cbn [negb];
    (destruct (egWait env (calls w OEgWait)) as [e|];
       [destruct (errors_Is e Canceled)|]); go; rewrite ?E;
    try destruct (joinFailures None (concat steps));
    eexists _, _; (split; [done|]); rewrite ?S, ?I, ?K1, ?K2; done.
Qed.

(** X6. Once [b.eg.Wait()] has answered, [StopSmeshing] leaves the
    builder stopped, whatever the answer was and whether or not a reset
    failed: [Smeshing] reports false, the signers and the coinbase are kept,
    a second [StopSmeshing] fails with "not started" and changes nothing,
    and [StartSmeshing] succeeds again, taking its new coinbase and starting
    a run loop for every registered identity.  Whether [Wait] answers is not
    part of this: its answer [r] is the one the environment gives. *)
Theorem StopSmeshing_stops env ri deleteFiles coinbase w r :
  started w = true →
  egWait env (calls w OEgWait) = r →
  ∃ out w1, StopSmeshing env deleteFiles w = (out, w1) ∧
    (∀ e, r = Some e → errors_Is e Canceled = false →
          out = Fail (Errorf "failed to stop smeshing" e)) ∧
    signers w1 = signers w ∧ coinbaseAccount w1 = coinbaseAccount w ∧
    Smeshing w1 = (Return false, w1) ∧
    (∀ d, StopSmeshing env d w1 = (Fail (ErrorsNew "not started"), w1)) ∧
    (∃ tasks w2, StartSmeshing ri coinbase w1 = (Return tasks, w2) ∧
       started w2 = true ∧ coinbaseAccount w2 = coinbase ∧
       ∀ sig, RunLoop SmeshingCtx sig ∈ tasks ↔ sig ∈ signers w).
Proof.
  intros Hs Hr.
  destruct (StopSmeshing_run env deleteFiles w Hs)
    as (out & w1 & E & Hst & Hsig & Hcb & _).
  exists out, w1. split; [done|].
  split.
  { intros e -> Hnc. revert E. unfold StopSmeshing. go. rewrite Hs.
    cbn [negb]. go. rewrite Hr, Hnc. go. by intros [= <- _]. }
  split; [done|]. split; [done|].
  split; [run_go; by rewrite Hst|].
  split; [intros d; unfold StopSmeshing; go; by rewrite Hst|].
  rewrite StartSmeshing_run, Hst. eexists _, _. split; [done|].
  run_fields. split; [done|]. split; [done|].
  intros sig. rewrite Hsig, started_tasks_elem. split.
  - intros (s & Hin & Ht). apply startID_elem in Ht.
    destruct Ht as [Ht|[_ Ht]]; [|done]. by injection Ht as ->.
  - intros Hin. exists sig. split; [done|]. apply startID_elem. by left.
Qed.

(** X7. After a [StopSmeshing] that is asked to reset, the goroutines
    having ended without error or with [context.Canceled], [PostStates]
    reports every registered identity as idle, whether or not the reset of
    its prover or the removal of its challenge failed, and reports no
    identity that is not registered, whatever post states are recorded. *)
Theorem PostStates_after_reset env w :
  started w = true →
  match egWait env (calls w OEgWait) with
  | None => True
  | Some e => errors_Is e Canceled = true
  end →
  ∃ out w1 m, StopSmeshing env true w = (out, w1) ∧
    PostStates w1 = (Return m, w1) ∧
    ∀ id, m !! id = if decide (id ∈ signers w) then Some PostStateIdle else None.
Proof.
  intros Hs Hclean.
  set (w0 := set_started false (bump OEgWait (record EvStop w))).
  destruct (resetSigners_run env (signers w0) None w0)
    as (steps & w1 & E & _ & _ & _ & _ & _ & _ & _ & Q & _).
  destruct (resetSigners_keeps env (signers w0) None w0) as (K & _).
  rewrite E in K. cbn [snd] in K.
  exists (match joinFailures None (concat steps) with
          | Some e => Fail e
          | None => Return tt
          end), w1.
  eexists. split.
  { unfold StopSmeshing. go. rewrite Hs. cbn [negb]. go. fold w0.
    destruct (egWait env (calls w OEgWait)) as [e|]; [rewrite Hclean|];
      go; fold w0; change (signers w) with (signers w0); rewrite E;
      by destruct (joinFailures None (concat steps)). }
  split; [unfold PostStates; run_go; done|].
  intros id. rewrite K. change (signers w0) with (signers w).
  destruct (decide (id ∈ signers w)) as [Hin|Hout].
  - apply map_lookup_filter_Some. split; [by apply Q|done].
  - apply map_lookup_filter_None. right. intros st _. done.
Qed.

(** X8. The coinbase of an ATX is the one the builder holds when the ATX
    is assembled: after [SetCoinbase], an ATX that [createAtx] returns (the
    NIPost built, the wait for the publication epoch not cut short, the
    epoch not passed, the finalisation succeeding) carries the reward
    address that was set, whatever coinbase smeshing was started with. *)
Theorem SetCoinbase_createAtx env sig ch rewardAddress w st :
  BuildNIPost env (calls w OBuildNIPost) sig ch = Ok st →
  ctxErr env (calls w OCtx) = None →
  GetEpoch env (currentLayer env (S (calls w OClock))) ≤ PublishEpoch ch →
  (∀ a, Initialize env a = None) →
  ∃ w0 atx w', SetCoinbase rewardAddress w = (Return tt, w0) ∧
    createAtx env sig ch w0 = (Return atx, w') ∧
    atx_Coinbase atx = rewardAddress ∧
    Coinbase w' = (Return rewardAddress, w').
Proof.
  intros Hb Hctx Hcur Hinit.
  exists (set_coinbaseAccount rewardAddress w).
  destruct (createAtx_run env sig ch (set_coinbaseAccount rewardAddress w) st Hb Hctx)
    as (out & w' & E & _ & _ & _ & _ & _ & _ & _ & _ & Hok).
  destruct (Hok Hcur) as [Hatx Hret]. destruct (Hret Hinit) as [atx ->].
  destruct (Hatx atx eq_refl) as (_ & _ & _ & Hcb & _).
  exists atx, w'. split; [done|]. split; [done|]. split; [done|].
  run_go. f_equal. f_equal.
  revert E. unfold createAtx. run_go. rewrite Hb. run_go. rewrite Hctx. run_go.
  destruct (_ <? _); [by destruct (InitialPost ch)|].
  destruct (decide (PrevATXID ch = EmptyATXID)); run_go.
  - unfold SignAndFinalizeAtx. rewrite Hinit. by intros [= _ <-].
  - destruct (VRFNonce env _ sig _); run_go.
    + destruct (decide _); run_go; unfold SignAndFinalizeAtx; rewrite Hinit;
        by intros [= _ <-].
    + unfold SignAndFinalizeAtx. rewrite Hinit. by intros [= _ <-].
Qed.

(** * The initial proof *)

Ltac frame_now :=
  eexists _, _; (split; [reflexivity|]); run_fields;
  repeat match goal with
         | |- _ ∧ _ => split
         | |- extends _ _ => extends_now
         end; try done.

Lemma buildInitialPost_frame env proof nodeID w :
  ∃ out w', buildInitialPost env proof nodeID w = (out, w') ∧
    out ≠ Running ∧
    challenges w' = challenges w ∧ proverState w' = proverState w ∧
    postStates w' = postStates w ∧ signers w' = signers w ∧
    started w' = started w ∧ coinbaseAccount w' = coinbaseAccount w ∧
    atxStore w' = atxStore w ∧
    calls w' OCtx = calls w OCtx ∧ calls w' OClock = calls w OClock ∧
    calls w' OLastAtx = S (calls w OLastAtx) ∧
    calls w' OBuildNIPost = calls w OBuildNIPost ∧
    calls w' OPublish = calls w OPublish ∧
    (∀ id, id ≠ nodeID → initialPosts w' !! id = initialPosts w !! id) ∧
    (out ≠ Return tt → initialPosts w' ⊆ initialPosts w) ∧
    (out = Return tt →
       (∃ h, GetLastAtx env (calls w OLastAtx) nodeID = Ok h) ∨
       is_Some (initialPosts w' !! nodeID)).
Proof.
  unfold buildInitialPost. run_go.
  destruct (GetLastAtx env (calls w OLastAtx) nodeID) as [h|e0]; run_go.
  { frame_now. intros _. left. by eexists. }
  destruct (localDBFault env (calls w OLocalDB)) as [e1|] eqn:Hf1; run_go.
  - destruct (errors_Is e1 ErrNotFound); run_go.
    + destruct proof as [[post info]|e2]; run_go; [|frame_now].
      destruct (pi_Nonce info) as [vrfNonce|]; run_go; [|frame_now].
      destruct (validatePost env (calls w OValidatePost)) as [e3|]; run_go.
      * destruct (localDBFault env (S (calls w OLocalDB))) as [e4|]; run_go.
        -- frame_now.
        -- frame_now.
           ++ intros id Hne. by apply lookup_delete_ne.
           ++ intros _. apply delete_subseteq.
      * destruct (localDBFault env (S (calls w OLocalDB))) as [e4|]; run_go;
          [frame_now|].
        destruct (initialPosts w !! nodeID) as [p|] eqn:Hp; run_go; [frame_now|].
        frame_now.
        -- intros id Hne. by apply lookup_insert_ne.
        -- intros _. right. rewrite lookup_insert_eq. by eexists.
    + frame_now.
  - destruct (initialPosts w !! nodeID) as [p|] eqn:Hp; run_go.
    { frame_now. intros _. right. rewrite Hp. by eexists. }
    change (errors_Is (Sentinel ErrNotFound) ErrNotFound) with true. run_go.
    destruct proof as [[post info]|e2]; run_go; [|frame_now].
    destruct (pi_Nonce info) as [vrfNonce|]; run_go; [|frame_now].
    destruct (validatePost env (calls w OValidatePost)) as [e3|]; run_go.
    + destruct (localDBFault env (S (calls w OLocalDB))) as [e4|]; run_go.
      * frame_now.
      * frame_now.
        -- intros id Hne. by apply lookup_delete_ne.
        -- intros _. apply delete_subseteq.
    + destruct (localDBFault env (S (calls w OLocalDB))) as [e4|]; run_go;
        [frame_now|].
      rewrite Hp. run_go. frame_now.
      * intros id Hne. by apply lookup_insert_ne.
      * intros _. right. rewrite lookup_insert_eq. by eexists.
Qed.

(** X9. [buildInitialPost] has nothing to do for an identity that has an
    ATX, or that has an initial proof stored: it returns nil without asking
    the prover or the validator, whatever the prover would answer, and
    changes nothing. *)
Theorem buildInitialPost_not_needed env proof nodeID w :
  (∃ h, GetLastAtx env (calls w OLastAtx) nodeID = Ok h) ∨
  (localDBFault env (calls w OLocalDB) = None ∧
   is_Some (initialPosts w !! nodeID)) →
  ∃ w', buildInitialPost env proof nodeID w = (Return tt, w') ∧
    same_state w w' ∧ trace w' = trace w ∧
    calls w' OValidatePost = calls w OValidatePost ∧
    calls w' ONow = calls w ONow.
Proof.
  intros H. unfold buildInitialPost. run_go.
  destruct (GetLastAtx env (calls w OLastAtx) nodeID) as [h|e0]; run_go.
  { eexists. split; [done|]. split; [same_state_now|done]. }
  destruct H as [[h H]|[Hf [p Hp]]]; [done|].
  rewrite Hf. run_go. rewrite Hp. run_go.
  eexists. split; [done|]. split; [same_state_now|done].
Qed.

Lemma buildInitialPost_creates env post info vrfNonce nodeID w e :
  GetLastAtx env (calls w OLastAtx) nodeID = Err e →
  localDBFault env (calls w OLocalDB) = None →
  localDBFault env (S (calls w OLocalDB)) = None →
  initialPosts w !! nodeID = None →
  pi_Nonce info = Some vrfNonce →
  validatePost env (calls w OValidatePost) = None →
  ∃ w', buildInitialPost env (Ok (post, info)) nodeID w = (Return tt, w') ∧
    initialPosts w'
      = <[nodeID := initialPostOf post info vrfNonce]> (initialPosts w) ∧
    challenges w' = challenges w ∧ proverState w' = proverState w ∧
    postStates w' = postStates w ∧ trace w' = trace w ∧
    calls w' OLastAtx = S (calls w OLastAtx) ∧
    calls w' OLocalDB = S (S (calls w OLocalDB)) ∧
    calls w' OValidatePost = S (calls w OValidatePost) ∧
    calls w' OCtx = calls w OCtx ∧ calls w' OClock = calls w OClock.
Proof.
  intros Hl Hf1 Hf2 Hp Hn Hv. unfold buildInitialPost. run_go.
  rewrite Hl. run_go. rewrite Hf1. run_go. rewrite Hp. run_go.
  change (errors_Is (Sentinel ErrNotFound) ErrNotFound) with true. run_go.
  rewrite Hn. run_go. rewrite Hv. run_go. rewrite Hf2. run_go.
  rewrite Hp. run_go. eexists. split; [done|]. done.
Qed.

(** X10. For an identity without ATX and without stored initial proof, a
    proof of the prover that carries a VRF nonce and that the validator
    accepts is stored by [buildInitialPost], with its nonce, indices and
    proof of work and the units, commitment ATX and VRF nonce of the post
    info; nothing else changes.  A further [buildInitialPost] then finds the
    stored proof and leaves it as it is, whatever the prover would answer. *)
Theorem buildInitialPost_stores env post info vrfNonce nodeID w e :
  GetLastAtx env (calls w OLastAtx) nodeID = Err e →
  localDBFault env (calls w OLocalDB) = None →
  localDBFault env (S (calls w OLocalDB)) = None →
  initialPosts w !! nodeID = None →
  pi_Nonce info = Some vrfNonce →
  validatePost env (calls w OValidatePost) = None →
  ∃ w', buildInitialPost env (Ok (post, info)) nodeID w = (Return tt, w') ∧
    initialPosts w'
      = <[nodeID := initialPostOf post info vrfNonce]> (initialPosts w) ∧
    challenges w' = challenges w ∧ proverState w' = proverState w ∧
    postStates w' = postStates w ∧ trace w' = trace w ∧
    (localDBFault env (S (S (calls w OLocalDB))) = None →
     ∀ proof', ∃ w'', buildInitialPost env proof' nodeID w' = (Return tt, w'') ∧
                      same_state w' w'' ∧ trace w'' = trace w').
Proof.
  intros Hl Hf1 Hf2 Hp Hn Hv.
  destruct (buildInitialPost_creates env post info vrfNonce nodeID w e
              Hl Hf1 Hf2 Hp Hn Hv)
    as (w' & E & Hi & Hc & Hpr & Hps & Ht & _ & Hdb & _).
  exists w'. repeat (split; [done|]).
  intros Hf3 proof'. unfold buildInitialPost. run_go.
  destruct (GetLastAtx env (calls w' OLastAtx) nodeID) as [h|e0]; run_go.
  { eexists. split; [done|]. split; [same_state_now|done]. }
  rewrite Hdb, Hf3. run_go. rewrite Hi, lookup_insert_eq. run_go.
  eexists. split; [done|]. split; [same_state_now|done].
Qed.

(** X11. A [buildInitialPost] that does not return nil has stored no
    initial proof: the table of initial proofs holds nothing that it did
    not hold before, be the failure one of the database, of the prover or
    of the validation.  The identity had no ATX, and the challenges, the
    proving progress and the post states are as they were. *)
Theorem buildInitialPost_failed env proof nodeID w out w' :
  buildInitialPost env proof nodeID w = (out, w') →
  out ≠ Return tt →
  initialPosts w' ⊆ initialPosts w ∧
  (∃ e, GetLastAtx env (calls w OLastAtx) nodeID = Err e) ∧
  challenges w' = challenges w ∧ proverState w' = proverState w ∧
  postStates w' = postStates w ∧ out ≠ Running.
Proof.
  intros E Hout.
  destruct (buildInitialPost_frame env proof nodeID w)
    as (out' & w'' & E' & Hr & Hc & Hp & Hps & _ & _ & _ & _ & _ & _ & _ & _ & _
        & _ & Hsub & _).
  rewrite E in E'. injection E' as <- <-.
  split; [by apply Hsub|]. split; [|done].
  revert E. unfold buildInitialPost. run_go.
  destruct (GetLastAtx env (calls w OLastAtx) nodeID) as [h|e0]; run_go.
  - intros [= <- _]. done.
  - intros _. by eexists.
Qed.

(** X12. The initial proof goes round: what [buildInitialPost] stored of
    the answer of the prover is what the challenge of the first ATX of the
    identity carries.  [makeChallenge], the identity still without ATX and
    the proof still valid, returns a challenge with that proof as initial
    post and the commitment ATX of the post info, without previous ATX and
    with sequence number 0. *)
Theorem initial_proof_round_trip env post info vrfNonce nodeID current posAtx
    w e e' :
  GetLastAtx env (calls w OLastAtx) nodeID = Err e →
  (∀ n, localDBFault env n = None) →
  initialPosts w !! nodeID = None →
  pi_Nonce info = Some vrfNonce →
  validatePost env (calls w OValidatePost) = None →
  GetLastAtx env (S (calls w OLastAtx)) nodeID = Err e' →
  errors_Is e' ErrNotFound = true →
  validatePost env (S (calls w OValidatePost)) = None →
  ∃ w1 ch w2,
    buildInitialPost env (Ok (post, info)) nodeID w = (Return tt, w1) ∧
    makeChallenge env nodeID current posAtx w1 = (Return ch, w2) ∧
    InitialPost ch = Some post ∧
    CommitmentATX ch = Some (pi_CommitmentATX info) ∧
    PrevATXID ch = EmptyATXID ∧ Sequence ch = 0 ∧
    PublishEpoch ch = wrap32 (current + 1) ∧ PositioningATX ch = posAtx ∧
    initialPosts w2 = initialPosts w1.
Proof.
  intros Hl Hf Hp Hn Hv Hl' He' Hv'.
  destruct (buildInitialPost_creates env post info vrfNonce nodeID w e
              Hl (Hf _) (Hf _) Hp Hn Hv)
    as (w1 & E & Hi & _ & _ & _ & _ & Hla & Hdb & Hvp & _).
  exists w1. unfold makeChallenge. run_go.
  rewrite Hla, Hl'. run_go. rewrite He'. run_go. rewrite Hf. run_go.
  rewrite Hi, lookup_insert_eq. run_go. rewrite Hvp, Hv'. run_go.
  eexists _, _. split; [done|]. split; [done|].
  cbn [InitialPost CommitmentATX PrevATXID Sequence PublishEpoch PositioningATX
       initialPostOf ip_Nonce ip_Indices ip_Pow ip_CommitmentATX].
  repeat split; try done. by destruct post.
Qed.

(** * The first loop of [run] *)

Lemma buildInitialPost_prover_fails env nodeID w e0 e :
  GetLastAtx env (calls w OLastAtx) nodeID = Err e0 →
  localDBFault env (calls w OLocalDB) = None →
  initialPosts w !! nodeID = None →
  ∃ w', buildInitialPost env (Err e) nodeID w
          = (Fail (Errorf "post execution" e), w') ∧
    same_state w w' ∧ trace w' = trace w ∧
    calls w' OLastAtx = S (calls w OLastAtx) ∧
    calls w' OLocalDB = S (calls w OLocalDB) ∧
    calls w' OValidatePost = calls w OValidatePost ∧
    calls w' OCtx = calls w OCtx ∧ calls w' OClock = calls w OClock.
Proof.
  intros Hl Hf Hp. unfold buildInitialPost. run_go.
  rewrite Hl. run_go. rewrite Hf. run_go. rewrite Hp. run_go.
  change (errors_Is (Sentinel ErrNotFound) ErrNotFound) with true. run_go.
  eexists. split; [done|]. split; [same_state_now|done].
Qed.

Lemma awaitedLayers_S env n k :
  awaitedLayers env n (S k)
  = EvAwaitLayer (wrap32 (currentLayer env n + 1)) :: awaitedLayers env (S n) k.
Proof.
  unfold awaitedLayers. cbn [seq fmap list_fmap]. rewrite Nat.add_0_r. f_equal.
  rewrite <- fmap_S_seq, <- list_fmap_compose. apply list_fmap_ext.
  intros i j _. cbn. by rewrite Nat.add_succ_r.
Qed.

(** X13. The first loop of [run] tries until the initial proof is there.
    For an identity without ATX and without stored proof, while the prover
    fails and the context is not done, every failed attempt is followed by a
    wait for the layer after the current one and by another attempt; the
    first proof of the prover that is valid ends the loop and is stored.
    Nothing is stored before, and no challenge is built. *)
Theorem run_initial_retries env proofs sig post info vrfNonce :
  ∀ (k : nat) (fuel attempt : nat) (w : World),
  (∀ n, ∃ e, GetLastAtx env n sig = Err e) →
  (∀ n, localDBFault env n = None) →
  initialPosts w !! sig = None →
  (∀ j, (j < k)%nat → ∃ e, proofs (attempt + j)%nat = Err e) →
  (∀ j, (j < k)%nat → ctxErr env (calls w OCtx + j)%nat = None) →
  proofs (attempt + k)%nat = Ok (post, info) →
  pi_Nonce info = Some vrfNonce →
  validatePost env (calls w OValidatePost) = None →
  ∃ w', run_initial env (S k + fuel) proofs attempt sig w = (Return true, w') ∧
    initialPosts w'
      = <[sig := initialPostOf post info vrfNonce]> (initialPosts w) ∧
    challenges w' = challenges w ∧ proverState w' = proverState w ∧
    postStates w' = postStates w ∧
    trace w' = trace w ++ awaitedLayers env (calls w OClock) k.
Proof.
  induction k as [|k IH]; intros fuel attempt w Hl Hf Hp Hfail Hctx Hok Hn Hv.
  - rewrite Nat.add_0_r in Hok. destruct (Hl (calls w OLastAtx)) as [e0 Hl0].
    destruct (buildInitialPost_creates env post info vrfNonce sig w e0
                Hl0 (Hf _) (Hf _) Hp Hn Hv)
      as (w' & E & Hi & Hc & Hpr & Hps & Ht & _).
    exists w'. cbn [Nat.add run_initial]. cbv beta iota delta [bind try].
    rewrite Hok, E. split; [done|]. repeat (split; [done|]).
    unfold awaitedLayers. cbn. by rewrite app_nil_r.
  - destruct (Hl (calls w OLastAtx)) as [e0 Hl0].
    destruct (Hfail 0%nat) as [e He]; [lia|]. rewrite Nat.add_0_r in He.
    destruct (buildInitialPost_prover_fails env sig w e0 e Hl0 (Hf _) Hp)
      as (w1 & E & Hs & Ht & _ & _ & Hvp & Hcx & Hcl).
    change (S (S k) + fuel)%nat with (S (S k + fuel)).
    cbn [run_initial]. cbv beta iota delta [bind try]. rewrite He, E.
    run_go. rewrite Hcx. pose proof (Hctx 0%nat) as Hc0.
    rewrite Nat.add_0_r in Hc0. rewrite Hc0 by lia.
    set (w2 := bump OCtx _).
    destruct (IH fuel (S attempt) w2) as (w' & E' & Hi & Hc & Hpr & Hps & Ht').
    + done.
    + done.
    + subst w2. run_fields. destruct Hs as (_ & -> & _). done.
    + intros j Hj. destruct (Hfail (S j)) as [e' He']; [lia|].
      exists e'. rewrite <- He'. f_equal. lia.
    + intros j Hj. subst w2. run_fields. rewrite Hcx.
      rewrite <- (Hctx (S j)) by lia. f_equal. lia.
    + rewrite <- Hok. f_equal. lia.
    + done.
    + subst w2. run_fields. by rewrite Hvp.
    + exists w'. split; [exact E'|].
      destruct Hs as (Hs1 & Hs2 & Hs3 & Hs4 & _).
      revert Hi Hc Hpr Hps Ht'. subst w2. run_fields.
      rewrite Hs1, Hs2, Hs3, Hs4, Ht, Hcl. intros -> -> -> -> ->.
      repeat (split; [done|]).
      rewrite awaitedLayers_S, <- app_assoc. done.
Qed.

(** X14. [run] does nothing for an identity whose initial proof cannot be
    made when the context is done: after the failed attempt it returns at
    the wait for the next layer, whatever the error of the context, without
    building a challenge, asking for a NIPost or publishing. *)
Theorem run_stops_before_proof env conf fuel proofs sig w e w1 c :
  buildInitialPost env (proofs 0%nat) sig w = (Fail e, w1) →
  ctxErr env (calls w OCtx) = Some c →
  ∃ w', run env conf (S fuel) proofs sig w = (Return tt, w') ∧
    challenges w' = challenges w ∧ proverState w' = proverState w ∧
    postStates w' = postStates w ∧ initialPosts w' ⊆ initialPosts w ∧
    trace w' = trace w1
                 ++ [EvAwaitLayer (wrap32 (currentLayer env (calls w OClock) + 1))] ∧
    calls w' OBuildNIPost = calls w OBuildNIPost ∧
    calls w' OPublish = calls w OPublish.
Proof.
  intros E Hctx.
  destruct (buildInitialPost_frame env (proofs 0%nat) sig w)
    as (out' & w'' & E' & _ & Hc & Hp & Hps & _ & _ & _ & _ & Hcx & Hcl & _
        & Hb & Hpu & _ & Hsub & _).
  rewrite E in E'. injection E' as <- <-.
  unfold run. cbn [run_initial]. cbv beta iota delta [bind try]. rewrite E.
  run_go. rewrite Hcx, Hctx, Hcl. run_go.
  eexists. split; [done|]. run_fields.
  repeat (split; [done|]). split; [by apply Hsub|]. done.
Qed.

(** * Re-gossip *)

(** X15. [Regossip] changes nothing of what the builder keeps and
    publishes at most one message: the blob stored for the ATX of the
    identity in the current epoch, and only if it is not empty.  It returns
    nil without publishing when the identity has no ATX in the epoch or when
    the blob is empty; a failure of the database or of the publisher is
    returned, under [errors.Is] the error that caused it, and every such
    failure makes it return an error: the one of the search as it is, the
    one of the blob under "get blob", the one of the publisher under
    "republish". *)
Theorem Regossip_publishes env GetIDByEpochAndNodeID GetBlob nodeID w :
  let epoch := GetEpoch env (currentLayer env (calls w OClock)) in
  ∃ out w' tr,
    Regossip env GetIDByEpochAndNodeID GetBlob nodeID w = (out, w') ∧
    same_state w w' ∧ ended out ∧
    trace w' = trace w ++ tr ∧ (length tr ≤ 1)%nat ∧
    calls w' OPublish = (calls w OPublish + length tr)%nat ∧
    (∀ ev, ev ∈ tr →
       ∃ atx blob, GetIDByEpochAndNodeID epoch nodeID = Ok atx ∧
                   GetBlob atx = Ok blob ∧ blob ≠ [] ∧
                   ev = EvPublish blob (Publish env (calls w OPublish) blob)) ∧
    (∀ e, GetIDByEpochAndNodeID epoch nodeID = Err e →
          errors_Is e ErrNotFound = true → out = Return tt ∧ tr = []) ∧
    (∀ atx, GetIDByEpochAndNodeID epoch nodeID = Ok atx →
            GetBlob atx = Ok [] → out = Return tt ∧ tr = []) ∧
    (∀ e, out = Fail e →
       ∃ cause, (∀ s, errors_Is e s = errors_Is cause s) ∧
         (GetIDByEpochAndNodeID epoch nodeID = Err cause ∨
          (∃ atx, GetIDByEpochAndNodeID epoch nodeID = Ok atx ∧
                  (GetBlob atx = Err cause ∨
                   ∃ blob, GetBlob atx = Ok blob ∧
                           Publish env (calls w OPublish) blob = Some cause)))) ∧
    (∀ e, GetIDByEpochAndNodeID epoch nodeID = Err e →
          errors_Is e ErrNotFound = false → out = Fail e ∧ tr = []) ∧
    (∀ atx e, GetIDByEpochAndNodeID epoch nodeID = Ok atx →
              GetBlob atx = Err e →
              out = Fail (Errorf "get blob" e) ∧ tr = []) ∧
    (∀ atx blob, GetIDByEpochAndNodeID epoch nodeID = Ok atx →
                 GetBlob atx = Ok blob → blob ≠ [] →
       tr = [EvPublish blob (Publish env (calls w OPublish) blob)] ∧
       out = match Publish env (calls w OPublish) blob with
             | Some e => Fail (Errorf "republish" e)
             | None => Return tt
             end).
Proof.
  intros epoch. unfold Regossip. run_go. fold epoch.
  destruct (GetIDByEpochAndNodeID epoch nodeID) as [atx|e] eqn:Hid; run_go.
  2: { destruct (errors_Is e ErrNotFound) eqn:Hnf; run_go.
       - exists (Return tt), (bump OClock w), []. split; [done|].
         split; [same_state_now|]. split; [done|].
         split; [by rewrite app_nil_r|]. split; [cbn; lia|].
         split; [run_fields; cbn; lia|].
         split; [by intros ev ?%elem_of_nil|].
         split; [done|]. split; [done|]. split; [done|].
         split; [intros e' [= <-]; by rewrite Hnf|].
         split; [done|]. done.
       - exists (Fail e), (bump OClock w), []. split; [done|].
         split; [same_state_now|]. split; [done|].
         split; [by rewrite app_nil_r|]. split; [cbn; lia|].
         split; [run_fields; cbn; lia|].
         split; [by intros ev ?%elem_of_nil|].
         split; [intros e' [= <-]; by rewrite Hnf|]. split; [done|].
         split.
         { intros e' [= <-]. exists e. split; [done|]. by left. }
         split; [by intros e' [= <-] _|].
         split; [done|]. done. }
  destruct (GetBlob atx) as [blob|e] eqn:Hb; run_go.
  2: { exists (Fail (Errorf "get blob" e)), (bump OClock w), []. split; [done|].
       split; [same_state_now|]. split; [done|].
       split; [by rewrite app_nil_r|]. split; [cbn; lia|].
       split; [run_fields; cbn; lia|].
       split; [by intros ev ?%elem_of_nil|].
       split; [done|].
       split; [intros atx' [= <-]; by rewrite Hb|].
       split.
       { intros e' [= <-]. exists e. split; [intros s; apply errors_Is_Errorf|].
         right. exists atx. split; [done|]. by left. }
       split; [done|].
       split; [intros atx' e' [= <-]; rewrite Hb; by intros [= <-]|].
       intros atx' blob' [= <-]. by rewrite Hb. }
  destruct (decide (length blob = 0%nat)) as [Hz|Hnz]; run_go.
  { exists (Return tt), (bump OClock w), []. split; [done|].
    split; [same_state_now|]. split; [done|].
    split; [by rewrite app_nil_r|]. split; [cbn; lia|].
    split; [run_fields; cbn; lia|].
    split; [by intros ev ?%elem_of_nil|].
    split; [done|]. split; [done|]. split; [done|].
    split; [done|].
    split; [intros atx' e' [= <-]; by rewrite Hb|].
    intros atx' blob' [= <-]. rewrite Hb. intros [= <-] Hne.
    by destruct blob. }
  assert (Hne : blob ≠ []) by (by intros ->).
  destruct (Publish env (calls w OPublish) blob) as [e|] eqn:Hp; run_go.
  - eexists _, _, [EvPublish blob (Some e)]. split; [done|].
    split; [same_state_now|]. split; [done|]. split; [done|].
    split; [cbn; lia|]. split; [run_fields; cbn; lia|].
    split.
    { intros ev ->%list_elem_of_singleton. exists atx, blob. by rewrite Hp. }
    split; [done|].
    split; [intros atx' [= <-]; rewrite Hb; by intros [= ->]|].
    split.
    { intros e' [= <-]. exists e. split; [intros s; apply errors_Is_Errorf|].
      right. exists atx. split; [done|]. right. by exists blob. }
    split; [done|].
    split; [intros atx' e' [= <-]; by rewrite Hb|].
    intros atx' blob' [= <-]. rewrite Hb. intros [= <-] _. by rewrite Hp.
  - eexists _, _, [EvPublish blob None]. split; [done|].
    split; [same_state_now|]. split; [done|]. split; [done|].
    split; [cbn; lia|]. split; [run_fields; cbn; lia|].
    split.
    { intros ev ->%list_elem_of_singleton. exists atx, blob. by rewrite Hp. }
    split; [done|].
    split; [intros atx' [= <-]; rewrite Hb; by intros [= ->]|].
    split; [done|].
    split; [done|].
    split; [intros atx' e' [= <-]; by rewrite Hb|].
    intros atx' blob' [= <-]. rewrite Hb. intros [= <-] _. by rewrite Hp.
Qed.

(** * One identity at a time *)

Lemma isolated_refl id w : isolated id w w.
Proof. by repeat split. Qed.

Lemma isolated_trans id w1 w2 w3 :
  isolated id w1 w2 → isolated id w2 w3 → isolated id w1 w3.
Proof.
  intros (A1 & A2 & A3 & A4 & A5 & A6 & A7 & A8)
         (B1 & B2 & B3 & B4 & B5 & B6 & B7 & B8).
  split; [intros i Hi; by rewrite B1, A1|].
  split; [intros i Hi; by rewrite B2, A2|].
  split; [intros i Hi; by rewrite B3, A3|].
  split; [intros i Hi; by rewrite B4, A4|].
  repeat split; congruence.
Qed.

Lemma same_state_isolated id w w' : same_state w w' → isolated id w w'.
Proof.
  intros (A1 & A2 & A3 & A4 & A5 & A6 & A7 & A8).
  split; [intros i Hi; by rewrite A1|].
  split; [intros i Hi; by rewrite A2|].
  split; [intros i Hi; by rewrite A4|].
  split; [intros i Hi; by rewrite A3|].
  done.
Qed.

Ltac isolated_now :=
  unfold isolated, nipost.RemoveChallenge; run_fields;
  repeat match goal with
         | |- _ ∧ _ => split
         | |- ∀ _, _ => intro
         end;
  rewrite ?lookup_insert_ne, ?lookup_delete_ne by done;
  try done; try set_solver.

Lemma makeChallenge_isolated env nodeID current posAtx w :
  ∃ out w', makeChallenge env nodeID current posAtx w = (out, w') ∧
    isolated nodeID w w' ∧ challenges w' = challenges w ∧ out ≠ Running.
Proof.
  unfold makeChallenge. run_go.
  destruct (GetLastAtx env (calls w OLastAtx) nodeID) as [p|err]; run_go.
  { eexists _, _. split; [done|]. split; [isolated_now|done]. }
  destruct (errors_Is err ErrNotFound); run_go.
  2: { eexists _, _. split; [done|]. split; [isolated_now|done]. }
  destruct (localDBFault env (calls w OLocalDB)); run_go.
  { eexists _, _. split; [done|]. split; [isolated_now|done]. }
  destruct (initialPosts w !! nodeID) as [post|]; run_go.
  2: { eexists _, _. split; [done|]. split; [isolated_now|done]. }
  destruct (validatePost env (calls w OValidatePost)); run_go.
  2: { eexists _, _. split; [done|]. split; [isolated_now|done]. }
  destruct (localDBFault env (S (calls w OLocalDB))); run_go.
  - eexists _, _. split; [done|]. split; [isolated_now|done].
  - eexists _, _. split; [done|]. split; [isolated_now|done].
Qed.

Lemma buildNewChallenge_isolated env conf nodeID current w :
  ∃ out w', buildNewChallenge env conf nodeID current w = (out, w') ∧
    isolated nodeID w w' ∧ out ≠ Running ∧
    ((∀ ch, out ≠ Return ch) → challenges w' = challenges w) ∧
    (∀ ch, out = Return ch → challenges w' = <[nodeID := ch]> (challenges w)).
Proof.
  destruct (chooseEpoch_run env conf nodeID current w)
    as (o1 & w1 & E1 & S1 & T1 & O1).
  cbv zeta in O1.
  unfold buildNewChallenge. cbv beta iota delta [bind]. rewrite E1.
  assert (N1 : ended o1).
  { rewrite O1. destruct (GetLastAtx env _ nodeID); [done|].
    by destruct (errors_Is _ _). }
  clear O1.
  assert (C1 : challenges w1 = challenges w) by (by destruct S1).
  apply (same_state_isolated nodeID) in S1.
  destruct o1 as [target|err| |]; try done.
  2: { eexists _, _. split; [done|]. split; [done|]. split; [done|]. done. }
  destruct (awaitBuildStart_frame env conf target w1)
    as (o2 & w2 & E2 & S2 & _ & N2).
  rewrite E2.
  assert (C2 : challenges w2 = challenges w) by (destruct S2; congruence).
  apply (same_state_isolated nodeID) in S2.
  assert (I2 : isolated nodeID w w2) by (by eapply isolated_trans).
  destruct o2 as [[]|err| |]; try done.
  2: { eexists _, _. split; [done|]. split; [done|]. split; [done|]. done. }
  destruct (getPositioningAtx_frame env conf nodeID w2)
    as (o3 & w3 & E3 & S3 & _ & N3).
  unfold wrapping. rewrite E3.
  assert (C3 : challenges w3 = challenges w) by (destruct S3; congruence).
  apply (same_state_isolated nodeID) in S3.
  assert (I3 : isolated nodeID w w3) by (by eapply isolated_trans).
  destruct o3 as [posAtx|err| |]; try done.
  2: { eexists _, _. split; [done|]. split; [done|]. split; [done|]. done. }
  destruct (makeChallenge_isolated env nodeID target posAtx w3)
    as (o4 & w4 & E4 & S4 & C4 & N4).
  rewrite E4.
  assert (I4 : isolated nodeID w w4) by (by eapply isolated_trans).
  rewrite C3 in C4.
  destruct o4 as [ch|err| |]; try done.
  2-3: eexists _, _; (split; [done|]); split; [done|]; split; [done|]; done.
  run_go. destruct (localDBFault env (calls w4 OLocalDB)) as [err|]; run_go.
  { eexists _, _. split; [done|].
    split; [eapply isolated_trans; [exact I4|isolated_now]|]. done. }
  unfold nipost.AddChallenge.
  destruct (challenges w4 !! nodeID) as [old|] eqn:Hold; run_go.
  { eexists _, _. split; [done|].
    split; [eapply isolated_trans; [exact I4|isolated_now]|]. done. }
  eexists _, _. split; [done|].
  split; [eapply isolated_trans; [exact I4|isolated_now]|].
  split; [done|]. split; [intros H; by destruct (H ch)|].
  intros ch' [= <-]. run_fields. by rewrite C4.
Qed.

Lemma BuildNIPostChallenge_isolated env conf nodeID w :
  ∃ out w', BuildNIPostChallenge env conf nodeID w = (out, w') ∧
    isolated nodeID w w' ∧ out ≠ Running ∧
    (∀ ch, out = Return ch → challenges w' !! nodeID = Some ch) ∧
    ((∀ ch, out ≠ Return ch) →
       challenges w' = challenges w ∨
       challenges w' = delete nodeID (challenges w)).
Proof.
  unfold BuildNIPostChallenge. run_go.
  destruct (ctxErr env (calls w OCtx)); run_go.
  { eexists _, _. split; [done|]. split; [isolated_now|].
    split; [done|]. split; [done|]. by left. }
  destruct (localDBFault env (calls w OLocalDB)) as [err|]; run_go.
  { destruct (errors_Is err ErrNotFound); run_go.
    - set (w1 := bump OLocalDB _).
      destruct (buildNewChallenge_isolated env conf nodeID
                  (GetEpoch env (currentLayer env (calls w OClock))) w1)
        as (out & w' & E & I & N & F & R).
      exists out, w'. split; [done|].
      split; [eapply isolated_trans; [|exact I]; subst w1; isolated_now|].
      split; [done|].
      split; [intros ch ->; rewrite (R ch eq_refl); apply lookup_insert_eq|].
      intros H. left. by rewrite (F H).
    - eexists _, _. split; [done|]. split; [isolated_now|].
      split; [done|]. split; [done|]. by left. }
  unfold nipost.Challenge.
  destruct (challenges w !! nodeID) as [ch0|] eqn:Hch; run_go.
  2: { change (errors_Is (Sentinel ErrNotFound) ErrNotFound) with true. run_go.
       set (w1 := bump OLocalDB _).
       destruct (buildNewChallenge_isolated env conf nodeID
                   (GetEpoch env (currentLayer env (calls w OClock))) w1)
         as (out & w' & E & I & N & F & R).
       exists out, w'. split; [done|].
       split; [eapply isolated_trans; [|exact I]; subst w1; isolated_now|].
       split; [done|].
       split; [intros ch ->; rewrite (R ch eq_refl); apply lookup_insert_eq|].
       intros H. left. by rewrite (F H). }
  destruct (PublishEpoch ch0 <? _); run_go.
  2: { eexists _, _. split; [done|]. split; [isolated_now|].
       split; [done|]. split; [by intros ch [= <-]|]. by left. }
  destruct (resetStateErr env (calls w OReset)); run_go.
  { eexists _, _. split; [done|]. split; [isolated_now|].
    split; [done|]. split; [done|]. by left. }
  destruct (localDBFault env (S (calls w OLocalDB))); run_go.
  { eexists _, _. split; [done|]. split; [isolated_now|].
    split; [done|]. split; [done|]. by left. }
  set (w1 := record _ _).
  destruct (buildNewChallenge_isolated env conf nodeID
              (GetEpoch env (currentLayer env (calls w OClock))) w1)
    as (out & w' & E & I & N & F & R).
  exists out, w'. split; [done|].
  split; [eapply isolated_trans; [|exact I]; subst w1; isolated_now|].
  split; [done|].
  split; [intros ch ->; rewrite (R ch eq_refl); apply lookup_insert_eq|].
  intros H. right. by rewrite (F H).
Qed.

Lemma createAtx_isolated env sig ch w :
  ∃ out w', createAtx env sig ch w = (out, w') ∧ isolated sig w w' ∧
    challenges w' = challenges w ∧ initialPosts w' = initialPosts w ∧
    postStates w' = postStates w ∧ out ≠ Running.
Proof.
  unfold createAtx. run_go.
  destruct (BuildNIPost env (calls w OBuildNIPost) sig ch) as [st|e]; run_go.
  2: { eexists _, _. split; [done|]. split; [isolated_now|done]. }
  destruct (ctxErr env (calls w OCtx)); run_go.
  { eexists _, _. split; [done|]. split; [isolated_now|done]. }
  destruct (_ <? _).
  { destruct (InitialPost ch); run_go;
      eexists _, _; (split; [done|]); (split; [isolated_now|done]). }
  unfold SignAndFinalizeAtx.
  destruct (decide (PrevATXID ch = EmptyATXID)); run_go.
  { destruct (Initialize env _); run_go;
      eexists _, _; (split; [done|]); (split; [isolated_now|done]). }
  destruct (VRFNonce env _ sig _); run_go.
  - destruct (decide _); run_go; destruct (Initialize env _); run_go;
      eexists _, _; (split; [done|]); (split; [isolated_now|done]).
  - destruct (Initialize env _); run_go;
      eexists _, _; (split; [done|]); (split; [isolated_now|done]).
Qed.

Lemma broadcastLoop_same env atx : ∀ fuel w,
  ∃ out w', broadcastLoop env fuel atx w = (out, w') ∧ same_state w w' ∧
            out ≠ Exit.
Proof.
  induction fuel as [|fuel IH]; intros w.
  { eexists _, _. split; [done|]. split; [apply same_state_refl|done]. }
  cbn [broadcastLoop]. unfold broadcast. run_go.
  destruct (Encode env atx) as [buf|e]; run_go.
  - destruct (Publish env (calls w OPublish) buf); run_go.
    + destruct (ctxErr env (calls w OCtx)); run_go.
      * eexists _, _. split; [done|]. split; [same_state_now|done].
      * match goal with |- context [broadcastLoop env fuel atx ?w1] =>
          destruct (IH w1) as (out & w' & E & S & N) end.
        exists out, w'. split; [done|]. split; [|done].
        eapply same_state_trans; [|exact S]. same_state_now.
    + eexists _, _. split; [done|]. split; [same_state_now|done].
  - destruct (ctxErr env (calls w OCtx)); run_go.
    + eexists _, _. split; [done|]. split; [same_state_now|done].
    + match goal with |- context [broadcastLoop env fuel atx ?w1] =>
        destruct (IH w1) as (out & w' & E & S & N) end.
      exists out, w'. split; [done|]. split; [|done].
      eapply same_state_trans; [|exact S]. same_state_now.
Qed.

Lemma publishAtx_isolated env fuel sig atx w :
  ∃ out w', publishAtx env fuel sig atx w = (out, w') ∧ isolated sig w w' ∧
            initialPosts w' = initialPosts w ∧ out ≠ Exit.
Proof.
  unfold publishAtx. cbv beta iota delta [bind].
  destruct (broadcastLoop_same env atx fuel w) as (o1 & w1 & E1 & S1 & N1).
  rewrite E1.
  assert (I0 : initialPosts w1 = initialPosts w) by (by destruct S1 as (_ & ? & _)).
  apply (same_state_isolated sig) in S1.
  destruct o1 as [[]|e| |]; try done.
  2-3: eexists _, _; (split; [done|]); done.
  run_go. destruct (resetStateErr env (calls w1 OReset)); run_go.
  { eexists _, _. split; [done|].
    split; [eapply isolated_trans; [exact S1|isolated_now]|done]. }
  destruct (localDBFault env (calls w1 OLocalDB)); run_go.
  - eexists _, _. split; [done|].
    split; [eapply isolated_trans; [exact S1|isolated_now]|done].
  - eexists _, _. split; [done|].
    split; [eapply isolated_trans; [exact S1|isolated_now]|done].
Qed.

Lemma PublishActivationTx_isolated env conf fuel sig w :
  ∃ out w', PublishActivationTx env conf fuel sig w = (out, w') ∧
            isolated sig w w'.
Proof.
  unfold PublishActivationTx. cbv beta iota delta [bind wrapping].
  destruct (BuildNIPostChallenge_isolated env conf sig w)
    as (o1 & w1 & E1 & I1 & _).
  rewrite E1. destruct o1 as [ch|e| |].
  2-4: eexists _, _; (split; [done|]); done.
  run_go.
  destruct (createAtx_isolated env sig ch (bump OClock w1))
    as (o2 & w2 & E2 & I2 & _).
  rewrite E2.
  assert (I12 : isolated sig w w2).
  { eapply isolated_trans; [exact I1|].
    eapply isolated_trans; [|exact I2]. isolated_now. }
  destruct o2 as [atx|e| |].
  2-4: eexists _, _; (split; [done|]); done.
  destruct (publishAtx_isolated env fuel sig atx w2) as (o3 & w3 & E3 & I3 & _).
  exists o3, w3. split; [done|]. by eapply isolated_trans.
Qed.

Lemma run_recover_isolated env conf sig err w :
  ∃ again w', run_recover env conf sig err w = (Return again, w') ∧
    isolated sig w w' ∧ initialPosts w' = initialPosts w ∧
    (again = false → ctxErr env (calls w OCtx) ≠ None).
Proof.
  unfold run_recover.
  destruct (errors_Is err ErrATXChallengeExpired); run_go.
  { destruct (resetStateErr env (calls w OReset)); run_go;
      destruct (localDBFault env (calls w OLocalDB)); run_go;
      destruct (ctxErr env (calls w OCtx)); run_go;
      eexists _, _; (split; [done|]); (split; [isolated_now|done]). }
  destruct (errors_Is err ErrPoetServiceUnstable); run_go;
    destruct (ctxErr env (calls w OCtx)); run_go;
    eexists _, _; (split; [done|]); (split; [isolated_now|done]).
Qed.

Lemma run_publish_isolated env conf sig : ∀ fuel w,
  ∃ out w', run_publish env conf fuel sig w = (out, w') ∧ isolated sig w w'.
Proof.
  induction fuel as [|fuel IH]; intros w.
  { eexists _, _. split; [done|]. apply isolated_refl. }
  cbn [run_publish]. cbv beta iota delta [bind try].
  destruct (PublishActivationTx_isolated env conf (S fuel) sig w)
    as (o1 & w1 & E1 & I1).
  rewrite E1. destruct o1 as [[]|e| |].
  3-4: eexists _, _; (split; [done|]); done.
  - destruct (IH w1) as (out & w' & E & I). exists out, w'.
    split; [done|]. by eapply isolated_trans.
  - destruct (errors_Is e Canceled).
    { eexists _, _. split; [done|]. done. }
    destruct (run_recover_isolated env conf sig e w1) as (again & w2 & E2 & I2 & _).
    rewrite E2.
    assert (I12 : isolated sig w w2) by (by eapply isolated_trans).
    destruct again.
    + destruct (IH w2) as (out & w' & E & I). exists out, w'.
      split; [done|]. by eapply isolated_trans.
    + eexists _, _. split; [done|]. done.
Qed.

Lemma run_initial_isolated env sig proofs : ∀ fuel attempt w,
  ∃ out w', run_initial env fuel proofs attempt sig w = (out, w') ∧
            isolated sig w w'.
Proof.
  induction fuel as [|fuel IH]; intros attempt w.
  { eexists _, _. split; [done|]. apply isolated_refl. }
  cbn [run_initial]. cbv beta iota delta [bind try].
  destruct (buildInitialPost_frame env (proofs attempt) sig w)
    as (o1 & w1 & E1 & _ & C & P & Ps & Sg & St & Cb & As & _ & _ & _ & _ & _
        & Ip & _).
  rewrite E1.
  assert (I1 : isolated sig w w1).
  { split; [intros i _; by rewrite C|]. split; [done|].
    split; [intros i _; by rewrite Ps|]. split; [intros i _; by rewrite P|].
    done. }
  destruct o1 as [[]|e| |].
  3-4: eexists _, _; (split; [done|]); done.
  { eexists _, _. split; [done|]. done. }
  run_go. destruct (ctxErr env (calls w1 OCtx)); run_go.
  { eexists _, _. split; [done|].
    eapply isolated_trans; [exact I1|isolated_now]. }
  match goal with |- context [run_initial env fuel proofs _ sig ?w2] =>
    destruct (IH (S attempt) w2) as (out & w' & E & I) end.
  exists out, w'. split; [done|].
  eapply isolated_trans; [exact I1|]. eapply isolated_trans; [|exact I].
  isolated_now.
Qed.

(** X16. The goroutine of one identity keeps to that identity.  However
    many turns its loops are granted and however [run] ends, be it still
    running, the challenge, the initial proof and the post state of every
    other identity are as they were, and so is their proving progress, the
    prover being asked to build and to reset for this identity only; the
    signers, the smeshing flag and the coinbase are as they were too. *)
Theorem run_isolated env conf fuel proofs sig w :
  ∃ out w', run env conf fuel proofs sig w = (out, w') ∧ isolated sig w w'.
Proof.
  unfold run. cbv beta iota delta [bind].
  destruct (run_initial_isolated env sig proofs fuel 0%nat w)
    as (o1 & w1 & E1 & I1).
  rewrite E1. destruct o1 as [[]|e| |].
  3-5: eexists _, _; (split; [done|]); done.
  - destruct (run_publish_isolated env conf sig fuel w1) as (out & w' & E & I).
    exists out, w'. split; [done|]. by eapply isolated_trans.
  - eexists _, _. split; [done|]. done.
Qed.

(** * Cancellation, failure and reuse in [BuildNIPostChallenge] *)

(** X17. When the context is done at the wait for the ATXs to be synced,
    [BuildNIPostChallenge] and [PublishActivationTx] return the error of
    the context as it is, not wrapped, before anything is read or changed.
    [run] then returns: at once for [context.Canceled], and for another
    error of the context after the wait for the next layer, at which the
    context is still done; in both cases without a change to what the
    builder keeps. *)
Theorem cancelled_before_sync env conf fuel sig w e :
  ctxErr env (calls w OCtx) = Some e →
  ∃ w', BuildNIPostChallenge env conf sig w = (Fail e, w') ∧
    PublishActivationTx env conf fuel sig w = (Fail e, w') ∧
    same_state w w' ∧ trace w' = trace w ∧
    calls w' OLocalDB = calls w OLocalDB ∧ calls w' OClock = calls w OClock ∧
    (errors_Is e Canceled = true →
     run_publish env conf (S fuel) sig w = (Return tt, w')) ∧
    (errors_Is e Canceled = false →
     errors_Is e ErrATXChallengeExpired = false →
     errors_Is e ErrPoetServiceUnstable = false →
     ctxErr env (S (calls w OCtx)) ≠ None →
     ∃ w'', run_publish env conf (S fuel) sig w = (Return tt, w'') ∧
            same_state w w'' ∧
            trace w'' = trace w ++
              [EvAwaitLayer (wrap32 (currentLayer env (calls w OClock) + 1))]).
Proof.
  intros Hctx.
  assert (E : BuildNIPostChallenge env conf sig w = (Fail e, bump OCtx w)).
  { unfold BuildNIPostChallenge. go. by rewrite Hctx. }
  assert (E' : ∀ f, PublishActivationTx env conf f sig w = (Fail e, bump OCtx w)).
  { intros f. unfold PublishActivationTx. cbv beta iota delta [bind].
    by rewrite E. }
  exists (bump OCtx w). split; [done|]. split; [done|].
  split; [same_state_now|]. split; [done|]. split; [done|]. split; [done|].
  split.
  - intros Hc. cbn [run_publish]. cbv beta iota delta [bind try].
    by rewrite E', Hc.
  - intros Hc Hx Hp Hd. cbn [run_publish]. cbv beta iota delta [bind try].
    rewrite E', Hc. unfold run_recover. rewrite Hx, Hp. go.
    destruct (ctxErr env (S (calls w OCtx))) as [c|]; [|done]. go.
    eexists. split; [done|]. split; [same_state_now|done].
Qed.

(** X18. A challenge that [BuildNIPostChallenge] returns is the one that
    is persisted for the identity, whichever way it came about.  A second
    call, the context not done, the database answering and the epoch not yet
    past the publish epoch of the challenge, returns the same challenge and
    changes nothing. *)
Theorem BuildNIPostChallenge_again env conf nodeID w ch w1 :
  BuildNIPostChallenge env conf nodeID w = (Return ch, w1) →
  challenges w1 !! nodeID = Some ch ∧
  (ctxErr env (calls w1 OCtx) = None →
   localDBFault env (calls w1 OLocalDB) = None →
   GetEpoch env (currentLayer env (calls w1 OClock)) ≤ PublishEpoch ch →
   ∃ w2, BuildNIPostChallenge env conf nodeID w1 = (Return ch, w2) ∧
         same_state w1 w2 ∧ trace w2 = trace w1).
Proof.
  intros E.
  destruct (BuildNIPostChallenge_isolated env conf nodeID w)
    as (out & w' & E' & _ & _ & R & _).
  rewrite E in E'. injection E' as <- <-.
  pose proof (R ch eq_refl) as Hch. split; [done|].
  intros Hctx Hdb Hep. unfold BuildNIPostChallenge. go.
  rewrite Hctx. go. rewrite Hdb. go. unfold nipost.Challenge. rewrite Hch.
  destruct (Z.ltb_spec (PublishEpoch ch)
              (GetEpoch env (currentLayer env (calls w1 OClock)))); [lia|].
  eexists. split; [done|]. split; [same_state_now|done].
Qed.

(** X19. A [BuildNIPostChallenge] that does not return a challenge has
    persisted none: the table of challenges is as it was, or, when the
    challenge of the identity was stale and has been removed, as it was
    without that one.  The call has ended; and the challenges of the other
    identities are as they were. *)
Theorem BuildNIPostChallenge_failed env conf nodeID w out w' :
  BuildNIPostChallenge env conf nodeID w = (out, w') →
  (∀ ch, out ≠ Return ch) →
  out ≠ Running ∧
  (challenges w' = challenges w ∨
   challenges w' = delete nodeID (challenges w)) ∧
  (∀ id, id ≠ nodeID → challenges w' !! id = challenges w !! id).
Proof.
  intros E Hout.
  destruct (BuildNIPostChallenge_isolated env conf nodeID w)
    as (out' & w'' & E' & (I & _) & N & _ & F).
  rewrite E in E'. injection E' as <- <-.
  split; [done|]. split; [by apply F|done].
Qed.

(** * The positioning ATX, whatever the collaborators do *)

Lemma findLoop_verified env pref golden : ∀ fuel rej w out w',
  findLoop env fuel pref golden rej w = (out, w') →
  (∀ id, out = Return id →
     (∃ h, h ∈ atxStore w ∧ hdr_ID h = id) ∧ (id ∉ rej) ∧
     (∃ tr, trace w' = trace w ++ tr ++ [EvVerifyChain id None] ∧
            ∀ e, EvVerifyChain id (Some e) ∉ tr)) ∧
  (∀ e, out = Fail e →
     e = Sentinel ErrNotFound ∨ (∃ n, ctxErr env n = Some e) ∨
     (∃ n, cdbFault env n = Some e)).
Proof.
  induction fuel as [|fuel IH]; intros rej w out w'.
  { cbn [findLoop]. go. by intros [= <- <-]. }
  cbn [findLoop]. go.
  destruct (ctxErr env (calls w OCtx)) as [c|] eqn:Hc; go.
  { intros [= <- <-]. split; [done|]. intros e [= <-]. right. left. by eexists. }
  destruct (cdbFault env (calls w OCdb)) as [c|] eqn:Hd; go.
  { intros [= <- <-]. split; [done|]. intros e [= <-]. right. right. by eexists. }
  destruct (atxs.GetIDWithMaxHeight (atxStore w) pref (notRejected rej))
    as [id|e] eqn:Hget; go.
  2: { intros [= <- <-]. split; [done|]. intros e' [= <-]. left.
       by destruct (GetIDWithMaxHeight_Err _ _ _ _ Hget). }
  destruct (GetIDWithMaxHeight_Ok _ _ _ _ Hget) as (Hf & h & Hin & Hid & _).
  destruct (VerifyChain env (calls w OVerifyChain) id) as [e|] eqn:Hv; go.
  - set (w1 := record _ _). intros E.
    destruct (IH _ _ _ _ E) as [R F]. split; [|exact F].
    intros id' ->. destruct (R id' eq_refl) as (Hs & Hr & tr & Ht & Hn).
    split; [exact Hs|]. split; [set_solver|].
    exists (EvVerifyChain id (Some e) :: tr). split.
    + rewrite Ht. subst w1. go_fields. by rewrite <- app_assoc.
    + intros e' [Heq|Hin']%elem_of_cons; [|by apply (Hn e')].
      injection Heq as -> _. set_solver.
  - intros [= <- <-]. split; [|done]. intros id' [= <-].
    split; [by exists h|]. split.
    { cbn in Hf. by apply bool_decide_eq_true in Hf. }
    exists []. split; [done|]. by intros e ?%elem_of_nil.
Qed.

(** X20. Whatever the context, the database and the validator answer,
    [getPositioningAtx] ends, with an ATX or with an error, and changes
    nothing.  An ATX it returns is the golden ATX, or an ATX whose chain the
    validator has just verified, the last thing done, and whose verification
    has not failed in that search.  An error it returns is one of the
    context or of the database and is never [sql.ErrNotFound], which stands
    for the golden ATX. *)
Theorem getPositioningAtx_verified env conf nodeID w :
  ∃ out w', getPositioningAtx env conf nodeID w = (out, w') ∧
    same_state w w' ∧ ended out ∧
    (∀ id, out = Return id →
       id = GoldenATXID conf ∨
       (∃ tr, trace w' = trace w ++ tr ++ [EvVerifyChain id None] ∧
              ∀ e, EvVerifyChain id (Some e) ∉ tr)) ∧
    (∀ e, out = Fail e →
       errors_Is e ErrNotFound = false ∧
       ((∃ n, ctxErr env n = Some e) ∨ (∃ n, cdbFault env n = Some e))).
Proof.
  destruct (getPositioningAtx_frame env conf nodeID w)
    as (out & w' & E & Hsame & _ & N).
  exists out, w'. split; [done|]. split; [done|]. split; [done|].
  clear Hsame. revert E. unfold getPositioningAtx, findFullyValidHighTickAtx. go.
  destruct (findLoop env (S (length (atxStore w))) nodeID (GoldenATXID conf) ∅
              (bump ONow w)) as [o1 w1] eqn:E1.
  apply findLoop_verified in E1 as [R F]. revert R F. go_fields. intros R F.
  destruct o1 as [id|e| |]; go.
  - intros [= <- <-]. split; [|done]. intros id' [= <-]. right.
    destruct (R id eq_refl) as (_ & _ & Ht). done.
  - destruct (errors_Is e ErrNotFound) eqn:Hnf; go.
    + intros [= <- <-]. split; [|done]. intros id' [= <-]. by left.
    + intros [= <- <-]. split; [done|]. intros e' [= <-]. split; [done|].
      destruct (F e eq_refl) as [->|H]; [done|exact H].
  - intros [= <- <-]. done.
  - intros [= <- <-]. done.
Qed.

(** * Publishing: what cannot be sent, and a poet that is not ready *)

(** X21. An ATX that cannot be serialised is never handed to the
    publisher, and the broadcast loop does not give it up: as long as the
    context is not done the loop goes on, however many turns it is granted,
    without a wait between the attempts; it ends at the first look that
    finds the context done, with the error of the context wrapped, having
    published nothing and changed nothing. *)
Theorem broadcastLoop_unserialisable env atx e c : ∀ (n fuel : nat) (w : World),
  Encode env atx = Err e →
  (∀ j, (j < n)%nat → ctxErr env (calls w OCtx + j)%nat = None) →
  ctxErr env (calls w OCtx + n)%nat = Some c →
  (∃ w', broadcastLoop env (S n + fuel) atx w
           = (Fail (Errorf "broadcast" c), w') ∧
         same_state w w' ∧ trace w' = trace w ∧
         calls w' OPublish = calls w OPublish ∧
         calls w' OCtx = S (calls w OCtx + n)) ∧
  (∀ k, (k ≤ n)%nat → ∃ w', broadcastLoop env k atx w = (Running, w') ∧
                             trace w' = trace w).
Proof.
  induction n as [|n IH]; intros fuel w Henc Hopen Hdone.
  - rewrite Nat.add_0_r in Hdone. split.
    + cbn [Nat.add broadcastLoop]. unfold broadcast. rewrite Henc. go.
      rewrite Hdone. go. eexists. split; [done|]. split; [same_state_now|].
      rewrite Nat.add_0_r. done.
    + intros k Hk. assert (k = 0%nat) as -> by lia. by eexists.
  - pose proof (Hopen 0%nat) as H0. rewrite Nat.add_0_r in H0.
    assert (Hstep : ∀ f, broadcastLoop env (S f) atx w
                         = broadcastLoop env f atx (bump OCtx w)).
    { intros f. cbn [broadcastLoop]. unfold broadcast. rewrite Henc. go.
      rewrite H0 by lia. done. }
    destruct (IH fuel (bump OCtx w) Henc) as [(w' & E & Hs & Ht & Hp & Hc) Hrun].
    { intros j Hj. go_fields. rewrite <- (Hopen (S j)) by lia. f_equal. lia. }
    { go_fields. rewrite <- Hdone. f_equal. lia. }
    split.
    + exists w'. change (S (S n) + fuel)%nat with (S (S n + fuel)).
      rewrite Hstep. split; [exact E|].
      split; [eapply same_state_trans; [|exact Hs]; same_state_now|].
      split; [done|]. split; [done|]. rewrite Hc. go_fields. lia.
    + intros [|k] Hk; [by eexists|]. rewrite Hstep.
      destruct (Hrun k) as (w'' & E'' & Ht''); [lia|]. by exists w''.
Qed.

(** X22. When the NIPost cannot be built because the poet service is not
    ready, [PublishActivationTx] returns an error in which [errors.Is]
    still finds [ErrPoetServiceUnstable] under the two wrappers, and the
    challenge stays persisted.  [run] then arms a timer of the poet retry
    interval instead of waiting for a layer, resets nothing and removes
    nothing, and goes round the loop again unless the context is done. *)
Theorem poet_unstable_retry env conf fuel sig w ch w1 e :
  BuildNIPostChallenge env conf sig w = (Return ch, w1) →
  BuildNIPost env (calls w1 OBuildNIPost) sig ch = Err e →
  errors_Is e ErrPoetServiceUnstable = true →
  errors_Is e ErrATXChallengeExpired = false →
  ∃ err w2 again w3,
    PublishActivationTx env conf fuel sig w = (Fail err, w2) ∧
    errors_Is err ErrPoetServiceUnstable = true ∧
    (∀ s, errors_Is err s = errors_Is e s) ∧
    challenges w2 !! sig = Some ch ∧ trace w2 = trace w1 ∧
    run_recover env conf sig err w2 = (Return again, w3) ∧
    same_state w2 w3 ∧
    trace w3 = trace w2 ++ [EvTimer (poetRetryInterval conf)] ∧
    calls w3 OReset = calls w2 OReset ∧ calls w3 OLocalDB = calls w2 OLocalDB ∧
    again = match ctxErr env (calls w2 OCtx) with Some _ => false | None => true end.
Proof.
  intros E Hb Hp Hx.
  destruct (BuildNIPostChallenge_isolated env conf sig w)
    as (out & w' & E' & _ & _ & R & _).
  rewrite E in E'. injection E' as <- <-.
  pose proof (R ch eq_refl) as Hch.
  exists (Errorf "create ATX" (Errorf "build NIPost" e)).
  rewrite (PublishActivationTx_steps env conf fuel sig w ch w1 E).
  unfold createAtx. go. rewrite Hb. go.
  unfold run_recover. rewrite !errors_Is_Errorf, Hx, Hp.
  destruct (ctxErr env (calls w1 OCtx)) eqn:Hc;
    eexists _, _, _; (split; [reflexivity|]); go; rewrite Hc;
    (split; [done|]); (split; [intros s; by rewrite !errors_Is_Errorf|]);
    (split; [done|]); (split; [done|]); (split; [reflexivity|]);
    (split; [same_state_now|]); done.
Qed.

(** X23. When the wait for the publication epoch is cut short by the
    context, the NIPost being built, [PublishActivationTx] returns an
    error in which [errors.Is] finds the error of the context under the
    two wrappers; nothing is reset and nothing is removed, so that the
    challenge is still persisted for the next start.  For
    [context.Canceled], [run] returns at once. *)
Theorem cancelled_at_publication_wait env conf fuel sig w ch w1 st c :
  BuildNIPostChallenge env conf sig w = (Return ch, w1) →
  BuildNIPost env (calls w1 OBuildNIPost) sig ch = Ok st →
  ctxErr env (calls w1 OCtx) = Some c →
  ∃ err w2,
    PublishActivationTx env conf (S fuel) sig w = (Fail err, w2) ∧
    (∀ s, errors_Is err s = errors_Is c s) ∧
    challenges w2 !! sig = Some ch ∧ challenges w2 = challenges w1 ∧
    initialPosts w2 = initialPosts w1 ∧ sig ∈ proverState w2 ∧
    trace w2 = trace w1 ++ [EvAwaitLayer (FirstLayer env (PublishEpoch ch))] ∧
    calls w2 OReset = calls w1 OReset ∧ calls w2 OPublish = calls w1 OPublish ∧
    (errors_Is c Canceled = true →
     run_publish env conf (S fuel) sig w = (Return tt, w2)).
Proof.
  intros E Hb Hc.
  destruct (BuildNIPostChallenge_isolated env conf sig w)
    as (out & w' & E' & _ & _ & R & _).
  rewrite E in E'. injection E' as <- <-.
  pose proof (R ch eq_refl) as Hch.
  assert (EP : PublishActivationTx env conf (S fuel) sig w
               = (Fail (Errorf "create ATX" (Errorf "wait for publication epoch" c)),
                  bump OCtx (record (EvAwaitLayer (FirstLayer env (PublishEpoch ch)))
                    (bump OClock (set_proverState (λ s, {[sig]} ∪ s)
                       (bump OBuildNIPost (bump OClock w1))))))).
  { rewrite (PublishActivationTx_steps env conf (S fuel) sig w ch w1 E).
    unfold createAtx. go. rewrite Hb. go. rewrite Hc. done. }
  eexists _, _. split; [exact EP|]. go_fields.
  split; [intros s; by rewrite !errors_Is_Errorf|].
  split; [done|]. split; [done|]. split; [done|]. split; [set_solver|].
  split; [done|]. split; [done|]. split; [done|].
  intros Hcan. cbn [run_publish]. cbv beta iota delta [bind try].
  rewrite EP, !errors_Is_Errorf, Hcan. done.
Qed.

(** * An initial proof that is no longer valid *)

(** X24. An initial proof that the validator rejects when the first
    challenge is made is removed from the database, and [makeChallenge]
    fails with "initial POST is invalid".  Nothing in [makeChallenge]
    makes a new one: the next call, the identity still without ATX, fails
    with "get initial post" around [sql.ErrNotFound], without asking the
    validator. *)
Theorem invalid_initial_post_removed env nodeID current posAtx w e p ve e' :
  GetLastAtx env (calls w OLastAtx) nodeID = Err e →
  errors_Is e ErrNotFound = true →
  (∀ n, localDBFault env n = None) →
  initialPosts w !! nodeID = Some p →
  validatePost env (calls w OValidatePost) = Some ve →
  GetLastAtx env (S (calls w OLastAtx)) nodeID = Err e' →
  errors_Is e' ErrNotFound = true →
  ∃ w1 w2,
    makeChallenge env nodeID current posAtx w
      = (Fail (Errorf "initial POST is invalid" ve), w1) ∧
    initialPosts w1 = delete nodeID (initialPosts w) ∧
    trace w1 = trace w ++ [EvRemoveInitialPost nodeID None] ∧
    challenges w1 = challenges w ∧
    makeChallenge env nodeID current posAtx w1
      = (Fail (Errorf "get initial post" (Sentinel ErrNotFound)), w2) ∧
    same_state w1 w2 ∧ trace w2 = trace w1 ∧
    calls w2 OValidatePost = calls w1 OValidatePost.
Proof.
  intros Hl He Hf Hp Hv Hl' He'.
  unfold makeChallenge. go. rewrite Hl. go. rewrite He. go.
  rewrite !Hf. go. rewrite Hp. go. rewrite Hv. go. rewrite Hf. go.
  eexists _, _. split; [reflexivity|]. go_fields.
  split; [done|]. split; [done|]. split; [done|].
  rewrite Hl'. go. rewrite He'. go. rewrite Hf. go.
  rewrite lookup_delete_eq. go.
  split; [reflexivity|]. split; [same_state_now|]. done.
Qed.

(** * The error of [StopSmeshing] *)

Lemma errors_Join_Is acc e s :
  ∃ err, errors_Join acc (Some e) = Some err ∧
    errors_Is err s
    = (match acc with Some a => errors_Is a s | None => false end
       || errors_Is e s).
Proof.
  destruct acc as [a|]; cbn.
  - eexists. split; [done|]. cbn. by rewrite orb_false_r.
  - eexists. split; [done|]. cbn. by rewrite orb_false_r.
Qed.

Lemma joinFailures_Is s : ∀ tr acc,
  (match acc with Some a => errors_Is a s = true | None => False end ∨
   ∃ ev e, ev ∈ tr ∧ failure_of ev = Some e ∧ errors_Is e s = true) →
  ∃ err, joinFailures acc tr = Some err ∧ errors_Is err s = true.
Proof.
  induction tr as [|ev tr IH]; intros acc H.
  - destruct H as [H|(ev & e & ?%elem_of_nil & _)]; [|done].
    destruct acc as [a|]; [|done]. by exists a.
  - unfold joinFailures. cbn [foldl]. fold (joinFailures
      (match failure_of ev with
       | Some e => errors_Join acc (Some e)
       | None => acc
       end) tr).
    apply IH. destruct H as [H|(ev' & e & Hin & Hf & Hs)].
    + left. destruct (failure_of ev) as [e|]; [|done].
      destruct (errors_Join_Is acc e s) as (err & -> & ->).
      destruct acc as [a|]; [|done]. by rewrite H.
    + apply elem_of_cons in Hin as [->|Hin].
      * left. rewrite Hf.
        destruct (errors_Join_Is acc e s) as (err & -> & ->).
        rewrite Hs. apply orb_true_r.
      * right. by exists ev', e.
Qed.

Lemma joinFailures_None : ∀ tr acc,
  joinFailures acc tr = None ↔
  acc = None ∧ ∀ ev, ev ∈ tr → failure_of ev = None.
Proof.
  induction tr as [|ev tr IH]; intros acc.
  - cbn. split; [intros ->; split; [done|]; by intros ? ?%elem_of_nil|by intros [? _]].
  - unfold joinFailures. cbn [foldl]. fold (joinFailures
      (match failure_of ev with
       | Some e => errors_Join acc (Some e)
       | None => acc
       end) tr).
    rewrite IH. destruct (failure_of ev) as [e|] eqn:Hf.
    + split.
      * intros [H _]. by destruct acc.
      * intros [_ H]. specialize (H ev (list_elem_of_here _ _)). congruence.
    + split.
      * intros [-> H]. split; [done|].
        intros ev' [->|Hin]%elem_of_cons; [done|by apply H].
      * intros [-> H]. split; [done|].
        intros ev' Hin. apply H. by apply list_elem_of_further.
Qed.

(** X25. No failure is lost in the error of [StopSmeshing].  After a
    stop that is asked to reset, the goroutines having ended without error
    or with [context.Canceled]: for every reset of a prover and every
    removal of a challenge that failed, [errors.Is] finds in the error
    returned what it finds in the error of that call; and nil is returned
    exactly when no reset and no removal failed. *)
Theorem StopSmeshing_error_causes env w :
  started w = true →
  match egWait env (calls w OEgWait) with
  | None => True
  | Some e => errors_Is e Canceled = true
  end →
  ∃ out w' tr, StopSmeshing env true w = (out, w') ∧
    trace w' = trace w ++ tr ∧
    (∀ sig e s,
       EvResetState sig (Some e) ∈ tr ∨ EvRemoveChallenge sig (Some e) ∈ tr →
       errors_Is e s = true →
       ∃ err, out = Fail err ∧ errors_Is err s = true) ∧
    (out = Return tt ↔
     ∀ sig e, (EvResetState sig (Some e) ∉ tr) ∧
              (EvRemoveChallenge sig (Some e) ∉ tr)).
Proof.
  intros Hs Hclean.
  set (w0 := set_started false (bump OEgWait (record EvStop w))).
  destruct (resetSigners_run env (signers w0) None w0)
    as (steps & w1 & E & _ & T & _).
  exists (match joinFailures None (concat steps) with
          | Some e => Fail e
          | None => Return tt
          end), w1, (EvStop :: concat steps).
  split.
  { unfold StopSmeshing. go. rewrite Hs. cbn [negb]. go. fold w0.
    destruct (egWait env (calls w OEgWait)) as [e|]; [rewrite Hclean|];
      go; fold w0; change (signers w) with (signers w0); rewrite E;
      by destruct (joinFailures None (concat steps)). }
  split; [rewrite T; subst w0; go_fields; by rewrite <- app_assoc|].
  split.
  - intros sig e s Hin Hes.
    destruct (joinFailures_Is s (concat steps) None) as (err & -> & Herr).
    { right. destruct Hin as [Hin|Hin];
        apply elem_of_cons in Hin as [?|Hin]; try done.
      - exists (EvResetState sig (Some e)), (Errorf "reset builder state for id" e).
        split; [done|]. split; [done|]. by rewrite errors_Is_Errorf.
      - exists (EvRemoveChallenge sig (Some e)),
               (Errorf "remove nipost challenge for id" e).
        split; [done|]. split; [done|]. by rewrite errors_Is_Errorf. }
    by exists err.
  - destruct (joinFailures None (concat steps)) as [err|] eqn:Hj.
    + split; [done|]. intros H. exfalso.
      assert (Hn : joinFailures None (concat steps) = None); [|congruence].
      apply joinFailures_None. split; [done|]. intros ev Hin.
      destruct ev as [sig [e|]|sig [e|]| | | | | | | | | |]; try done.
      * destruct (H sig e) as [H1 _]. exfalso. apply H1.
        by apply list_elem_of_further.
      * destruct (H sig e) as [_ H2]. exfalso. apply H2.
        by apply list_elem_of_further.
    + split; [|done]. intros _ sig e.
      apply joinFailures_None in Hj as [_ Hj].
      split; intros [?|Hin]%elem_of_cons; try done.
      * by specialize (Hj _ Hin).
      * by specialize (Hj _ Hin).
Qed.

(** * An identity left without initial proof *)

(** The world of an outcome that is given: what its counters are. *)
Ltac world_of_pair :=
  let H := fresh in
  intros H;
  first [ discriminate H
        | apply (f_equal snd) in H; cbn [snd] in H; rewrite <- H; go_fields;
          done ].

Lemma PublishActivationTx_without_initial_proof env conf fuel sig w :
  healthy env →
  (∀ n, ∃ e, GetLastAtx env n sig = Err e ∧ errors_Is e ErrNotFound = true) →
  challenges w !! sig = None → initialPosts w !! sig = None →
  ∃ w1, PublishActivationTx env conf fuel sig w
          = (Fail (Errorf "get initial post" (Sentinel ErrNotFound)), w1) ∧
        same_state w w1 ∧
        calls w1 OBuildNIPost = calls w OBuildNIPost ∧
        calls w1 OPublish = calls w OPublish.
Proof.
  intros (Hctx & Hdb & Hreset & Hcdb) Hlast Hch Hip.
  unfold PublishActivationTx, BuildNIPostChallenge. go.
  rewrite Hctx. go. rewrite Hdb. go. unfold nipost.Challenge. rewrite Hch.
  change (errors_Is (Sentinel ErrNotFound) ErrNotFound) with true.
  cbv beta iota.
  set (w0 := bump OLocalDB (bump OClock (bump OCtx w))).
  set (current := GetEpoch env (currentLayer env (calls w OClock))).
  assert (S0 : same_state w w0) by (subst w0; same_state_now).
  assert (B0 : calls w0 OBuildNIPost = calls w OBuildNIPost
               ∧ calls w0 OPublish = calls w OPublish) by done.
  destruct (chooseEpoch_run env conf sig current w0)
    as (o1 & w1 & E1 & S1 & T1 & O1).
  cbv zeta in O1.
  assert (K1 : calls w1 OBuildNIPost = calls w0 OBuildNIPost
               ∧ calls w1 OPublish = calls w0 OPublish).
  { revert E1. unfold chooseEpoch. go.
    destruct (GetLastAtx env (calls w0 OLastAtx) sig) as [p|err]; go.
    - destruct (_ <=? _); go; world_of_pair.
    - destruct (errors_Is err ErrNotFound); go; [|world_of_pair].
      destruct (_ <=? _); go; world_of_pair. }
  unfold buildNewChallenge. cbv beta iota delta [bind]. rewrite E1.
  assert (O1' : ∃ target, o1 = Return target).
  { destruct (Hlast (calls w0 OLastAtx)) as (e & He & Hnf).
    rewrite He, Hnf in O1. by eexists. }
  clear O1. destruct O1' as [target ->].
  destruct (awaitBuildStart_run env conf target w1)
    as (o2 & w2 & E2 & S2 & O2).
  rewrite E2.
  assert (o2 = Return tt) as ->.
  { destruct (decide _); [|by destruct O2 as (_ & -> & _)].
    destruct O2 as [_ ->]. by rewrite Hctx. }
  assert (K2 : calls w2 OBuildNIPost = calls w1 OBuildNIPost
               ∧ calls w2 OPublish = calls w1 OPublish).
  { revert E2. unfold awaitBuildStart. go.
    destruct (0 <? _); go; [|world_of_pair].
    destruct (ctxErr env (calls w1 OCtx)); go; world_of_pair. }
  destruct (getPositioningAtx_run env conf sig w2 Hctx Hcdb)
    as (rejected & posAtx & w3 & E3 & S3 & _).
  unfold wrapping. rewrite E3.
  assert (K3 : calls w3 OBuildNIPost = calls w2 OBuildNIPost
               ∧ calls w3 OPublish = calls w2 OPublish).
  { revert E3. unfold getPositioningAtx, findFullyValidHighTickAtx. go.
    assert (K : ∀ fuel rej v o v',
              findLoop env fuel sig (GoldenATXID conf) rej v = (o, v') →
              calls v' OBuildNIPost = calls v OBuildNIPost
              ∧ calls v' OPublish = calls v OPublish).
    { induction fuel0 as [|fuel0 IH]; intros rej v o v'; cbn [findLoop]; go.
      { world_of_pair. }
      destruct (ctxErr env (calls v OCtx)); go; [world_of_pair|].
      destruct (cdbFault env (calls v OCdb)); go; [world_of_pair|].
      destruct (atxs.GetIDWithMaxHeight _ _ _); go; [|world_of_pair].
      destruct (VerifyChain env _ _); go; [|world_of_pair].
      intros E. apply IH in E. revert E. go_fields. done. }
    destruct (findLoop env (S (length (atxStore w2))) sig (GoldenATXID conf) ∅
                (bump ONow w2)) as [o v'] eqn:E.
    apply K in E. revert E. go_fields. intros E.
    destruct o as [id|e| |]; go.
    - intros [= _ <-]. exact E.
    - destruct (errors_Is e ErrNotFound); go; intros [= _ <-]; exact E.
    - done.
    - done. }
  assert (S03 : same_state w w3).
  { eapply same_state_trans; [exact S0|]. eapply same_state_trans; [exact S1|].
    eapply same_state_trans; [exact S2|exact S3]. }
  unfold makeChallenge. go.
  destruct (Hlast (calls w3 OLastAtx)) as (e & He & Hnf).
  rewrite He. go. rewrite Hnf. go. rewrite Hdb. go.
  replace (initialPosts w3 !! sig) with (@None InitialPostRecord)
    by (destruct S03 as (_ & -> & _); done).
  go. eexists. split; [reflexivity|].
  split; [eapply same_state_trans; [exact S03|same_state_now]|].
  go_fields. destruct B0, K1, K2, K3. split; congruence.
Qed.

(** X26. The second loop of [run] never makes an initial proof.  An
    identity that has no ATX, no persisted challenge and no stored initial
    proof, the collaborators not failing and the context not done, gets no
    challenge however long the loop runs: every [PublishActivationTx] fails
    with "get initial post" around [sql.ErrNotFound] and [run] tries again
    after the wait for the next layer; the prover is never asked for a
    NIPost, nothing is published and nothing the builder keeps changes. *)
Theorem run_publish_without_initial_proof env conf sig :
  healthy env →
  (∀ n, ∃ e, GetLastAtx env n sig = Err e ∧ errors_Is e ErrNotFound = true) →
  ∀ (fuel : nat) (w : World),
  challenges w !! sig = None → initialPosts w !! sig = None →
  (∃ w1 w2,
     PublishActivationTx env conf (S fuel) sig w
       = (Fail (Errorf "get initial post" (Sentinel ErrNotFound)), w1) ∧
     same_state w w1 ∧
     run_recover env conf sig (Errorf "get initial post" (Sentinel ErrNotFound)) w1
       = (Return true, w2) ∧
     same_state w1 w2 ∧
     trace w2 = trace w1
                  ++ [EvAwaitLayer (wrap32 (currentLayer env (calls w1 OClock) + 1))]) ∧
  (∃ w', run_publish env conf fuel sig w = (Running, w') ∧ same_state w w' ∧
         calls w' OBuildNIPost = calls w OBuildNIPost ∧
         calls w' OPublish = calls w OPublish).
Proof.
  intros Hh Hlast fuel. pose proof Hh as (Hctx & _).
  assert (Hrec : ∀ w1, ∃ w2,
            run_recover env conf sig
              (Errorf "get initial post" (Sentinel ErrNotFound)) w1
              = (Return true, w2) ∧
            same_state w1 w2 ∧
            trace w2 = trace w1
              ++ [EvAwaitLayer (wrap32 (currentLayer env (calls w1 OClock) + 1))] ∧
            calls w2 OBuildNIPost = calls w1 OBuildNIPost ∧
            calls w2 OPublish = calls w1 OPublish).
  { intros w1. unfold run_recover.
    change (errors_Is (Errorf "get initial post" (Sentinel ErrNotFound))
              ErrATXChallengeExpired) with false.
    change (errors_Is (Errorf "get initial post" (Sentinel ErrNotFound))
              ErrPoetServiceUnstable) with false.
    go. rewrite Hctx. go. eexists. split; [reflexivity|].
    split; [same_state_now|]. done. }
  assert (Hturn : ∀ f w, challenges w !! sig = None → initialPosts w !! sig = None →
            ∃ w1 w2,
              PublishActivationTx env conf f sig w
                = (Fail (Errorf "get initial post" (Sentinel ErrNotFound)), w1) ∧
              same_state w w1 ∧
              run_recover env conf sig
                (Errorf "get initial post" (Sentinel ErrNotFound)) w1
                = (Return true, w2) ∧
              same_state w1 w2 ∧
              trace w2 = trace w1
                ++ [EvAwaitLayer (wrap32 (currentLayer env (calls w1 OClock) + 1))]).
  { intros f w Hch Hip.
    destruct (PublishActivationTx_without_initial_proof env conf f sig w
                Hh Hlast Hch Hip) as (w1 & E & Hs & _).
    destruct (Hrec w1) as (w2 & Er & Hs2 & Ht & _).
    by exists w1, w2. }
  induction fuel as [|fuel IH]; intros w Hch Hip.
  - split; [by apply Hturn|].
    exists w. split; [done|]. split; [apply same_state_refl|done].
  - split; [by apply Hturn|].
    destruct (PublishActivationTx_without_initial_proof env conf (S fuel)
                sig w Hh Hlast Hch Hip) as (w1 & E & Hs & Kb & Kp).
    destruct (Hrec w1) as (w2 & Er & Hs2 & _ & Kb2 & Kp2).
    cbn [run_publish]. cbv beta iota delta [bind try]. rewrite E.
    change (errors_Is (Errorf "get initial post" (Sentinel ErrNotFound)) Canceled)
      with false.
    cbv beta iota. rewrite Er.
    assert (S2 : same_state w w2) by (by eapply same_state_trans).
    destruct (IH w2) as (_ & w' & E' & Hs' & Kb' & Kp').
    { destruct S2 as (-> & _). done. }
    { destruct S2 as (_ & -> & _). done. }
    exists w'. split; [exact E'|].
    split; [by eapply same_state_trans|].
    split; congruence.
Qed.

(** ** The theorems at work on the concrete node: lifecycle *)

(** A third identity is registered while the node is smeshing. *)
Lemma Register_adds_witness :
  (3 ∉ signers (demo_world demo_stale)) ∧
  ∃ tasks w1, Register 60 3 (demo_world demo_stale) = (Return tasks, w1) ∧
    postStates w1 !! 3 = Some PostStateIdle ∧
    RunLoop ParentCtx 3 ∈ tasks.
Proof.
  assert (Hnew : 3 ∉ signers (demo_world demo_stale)).
  { apply (bool_decide_unpack _). vm_compute. exact I. }
  split; [exact Hnew|].
  destruct (Register_adds 60 3 (demo_world demo_stale) Hnew)
    as (tasks & w1 & E & _ & _ & Hidle & _ & _ & _ & _ & _ & _ & _ & _ & _ & Ht).
  exists tasks, w1. split; [exact E|]. split; [exact Hidle|].
  apply Ht. split; [reflexivity|]. left. reflexivity.
Defined.

Lemma StartSmeshing_starts_witness :
  started world_stopped = false ∧
  ∃ tasks w1, StartSmeshing 60 88 world_stopped = (Return tasks, w1) ∧
    coinbaseAccount w1 = 88 ∧ RunLoop SmeshingCtx 2 ∈ tasks.
Proof.
  split; [reflexivity|].
  destruct (StartSmeshing_starts 60 88 world_stopped eq_refl)
    as (tasks & w1 & E & _ & Hc & _ & _ & _ & _ & _ & _ & _ & Hrun & _).
  exists tasks, w1. split; [exact E|]. split; [exact Hc|].
  apply Hrun. apply list_elem_of_further, list_elem_of_here.
Defined.

Lemma StartSmeshing_twice_witness :
  StartSmeshing 60 88 world_stopped = (Return demo_tasks, world_started) ∧
  StartSmeshing 60 99 world_started
    = (Fail (ErrorsNew "already started"), world_started) ∧
  Coinbase world_started = (Return 88, world_started).
Proof.
  split; [reflexivity|].
  destruct (StartSmeshing_twice 60 88 99 world_stopped demo_tasks world_started
              eq_refl) as (Hfail & _ & Hc).
  split; [exact Hfail|exact Hc].
Defined.

Lemma Register_after_start_witness :
  (StartSmeshing 60 88 world_stopped = (Return demo_tasks, world_started) ∧
   (3 ∉ signers world_stopped)) ∧
  ∃ tasks' w2, Register 60 3 world_started = (Return tasks', w2) ∧
    RunLoop ParentCtx 3 ∈ tasks'.
Proof.
  assert (Hnew : 3 ∉ signers world_stopped).
  { apply (bool_decide_unpack _). vm_compute. exact I. }
  split; [split; [reflexivity|exact Hnew]|].
  destruct (Register_after_start 60 88 3 world_stopped demo_tasks world_started
              eq_refl Hnew) as (tasks' & w2 & E & _ & _ & Hrun & _).
  exists tasks', w2. split; [exact E|exact Hrun].
Defined.

(** [Wait] has answered nil and the reset of the first identity fails:
    the builder is stopped all the same and can be started again. *)
Lemma StopSmeshing_stops_witness :
  (started (demo_world demo_stale) = true ∧
   egWait env_reset_fails (calls (demo_world demo_stale) OEgWait) = None) ∧
  ∃ out w1, StopSmeshing env_reset_fails true (demo_world demo_stale) = (out, w1) ∧
    Smeshing w1 = (Return false, w1) ∧
    ∃ tasks w2, StartSmeshing 60 99 w1 = (Return tasks, w2) ∧
                coinbaseAccount w2 = 99.
Proof.
  split; [split; reflexivity|].
  destruct (StopSmeshing_stops env_reset_fails 60 true 99 (demo_world demo_stale)
              None eq_refl eq_refl)
    as (out & w1 & E & _ & _ & _ & Hsm & _ & tasks & w2 & E2 & _ & Hc & _).
  exists out, w1. split; [exact E|]. split; [exact Hsm|].
  exists tasks, w2. split; [exact E2|exact Hc].
Defined.

Lemma PostStates_after_reset_witness :
  (started (demo_world demo_stale) = true ∧
   egWait env_reset_fails (calls (demo_world demo_stale) OEgWait) = None) ∧
  ∃ out w1 m, StopSmeshing env_reset_fails true (demo_world demo_stale) = (out, w1) ∧
    PostStates w1 = (Return m, w1) ∧
    m !! 1 = Some PostStateIdle ∧ m !! 2 = Some PostStateIdle ∧ m !! 3 = None.
Proof.
  split; [split; reflexivity|].
  destruct (PostStates_after_reset env_reset_fails (demo_world demo_stale) eq_refl I)
    as (out & w1 & m & E & Ep & Hm).
  exists out, w1, m. split; [exact E|]. split; [exact Ep|].
  split; [exact (Hm 1)|]. split; [exact (Hm 2)|exact (Hm 3)].
Defined.

(** The coinbase is changed to 123 before the ATX of the challenge of
    epoch 8 is assembled. *)
Lemma SetCoinbase_createAtx_witness :
  (BuildNIPost env_steady (calls (bump OClock (world_built env_steady)) OBuildNIPost)
     1 demo_fresh
     = Ok {| ns_NIPost := 1; ns_NumUnits := 2; ns_VRFNonce := 3 |} ∧
   ctxErr env_steady (calls (bump OClock (world_built env_steady)) OCtx) = None ∧
   GetEpoch env_steady
     (currentLayer env_steady (S (calls (bump OClock (world_built env_steady)) OClock)))
     ≤ PublishEpoch demo_fresh ∧
   ∀ a, Initialize env_steady a = None) ∧
  ∃ w0 atx w', SetCoinbase 123 (bump OClock (world_built env_steady))
                 = (Return tt, w0) ∧
    createAtx env_steady 1 demo_fresh w0 = (Return atx, w') ∧
    atx_Coinbase atx = 123.
Proof.
  assert (Hep : GetEpoch env_steady
            (currentLayer env_steady
               (S (calls (bump OClock (world_built env_steady)) OClock)))
            ≤ PublishEpoch demo_fresh).
  { vm_compute. discriminate. }
  split; [split; [reflexivity|split; [reflexivity|split; [exact Hep|reflexivity]]]|].
  destruct (SetCoinbase_createAtx env_steady 1 demo_fresh 123
              (bump OClock (world_built env_steady))
              {| ns_NIPost := 1; ns_NumUnits := 2; ns_VRFNonce := 3 |}
              eq_refl eq_refl Hep (λ _, eq_refl))
    as (w0 & atx & w' & E0 & E & Hc & _).
  exists w0, atx, w'. split; [exact E0|]. split; [exact E|exact Hc].
Defined.

(** ** The theorems at work on the concrete node: the initial proof *)

(** The identity has an ATX: the prover is not needed. *)
Lemma buildInitialPost_not_needed_witness :
  (∃ h, GetLastAtx env_steady (calls (demo_world demo_stale) OLastAtx) 1 = Ok h) ∧
  ∃ w', buildInitialPost env_steady (Err (External 1)) 1 (demo_world demo_stale)
          = (Return tt, w') ∧ trace w' = [].
Proof.
  assert (H : ∃ h, GetLastAtx env_steady (calls (demo_world demo_stale) OLastAtx) 1
                   = Ok h) by (eexists; reflexivity).
  split; [exact H|].
  destruct (buildInitialPost_not_needed env_steady (Err (External 1)) 1
              (demo_world demo_stale) (or_introl H))
    as (w' & E & _ & Ht & _).
  exists w'. split; [exact E|exact Ht].
Defined.

Lemma buildInitialPost_stores_witness :
  (GetLastAtx env_initial (calls world_no_proof OLastAtx) 1
     = Err (Sentinel ErrNotFound) ∧
   localDBFault env_initial (calls world_no_proof OLocalDB) = None ∧
   localDBFault env_initial (S (calls world_no_proof OLocalDB)) = None ∧
   initialPosts world_no_proof !! 1 = None ∧
   pi_Nonce demo_info = Some 3 ∧
   validatePost env_initial (calls world_no_proof OValidatePost) = None) ∧
  ∃ w', buildInitialPost env_initial (Ok (demo_post, demo_info)) 1 world_no_proof
          = (Return tt, w') ∧
        initialPosts w' !! 1 = Some demo_initial_post.
Proof.
  split; [repeat split; reflexivity|].
  destruct (buildInitialPost_stores env_initial demo_post demo_info 3 1
              world_no_proof (Sentinel ErrNotFound)
              eq_refl eq_refl eq_refl eq_refl eq_refl eq_refl)
    as (w' & E & Hi & _).
  exists w'. split; [exact E|]. rewrite Hi. apply lookup_insert_eq.
Defined.

(** The prover fails: nothing is stored. *)
Lemma buildInitialPost_failed_witness :
  (buildInitialPost env_initial (Err (External 1)) 1 world_no_proof
     = (Fail (Errorf "post execution" (External 1)),
        bump ONow (bump OLocalDB (bump OLastAtx world_no_proof))) ∧
   Fail (Errorf "post execution" (External 1)) ≠ Return tt) ∧
  initialPosts (bump ONow (bump OLocalDB (bump OLastAtx world_no_proof)))
    ⊆ initialPosts world_no_proof.
Proof.
  assert (Hne : @Fail unit (Errorf "post execution" (External 1)) ≠ Return tt)
    by discriminate.
  split; [split; [reflexivity|exact Hne]|].
  destruct (buildInitialPost_failed env_initial (Err (External 1)) 1
              world_no_proof _ _ eq_refl Hne) as (Hsub & _).
  exact Hsub.
Defined.

Lemma initial_proof_round_trip_witness :
  (GetLastAtx env_initial (calls world_no_proof OLastAtx) 1
     = Err (Sentinel ErrNotFound) ∧
   (∀ n, localDBFault env_initial n = None) ∧
   initialPosts world_no_proof !! 1 = None ∧
   pi_Nonce demo_info = Some 3 ∧
   validatePost env_initial (calls world_no_proof OValidatePost) = None ∧
   GetLastAtx env_initial (S (calls world_no_proof OLastAtx)) 1
     = Err (Sentinel ErrNotFound) ∧
   errors_Is (Sentinel ErrNotFound) ErrNotFound = true ∧
   validatePost env_initial (S (calls world_no_proof OValidatePost)) = None) ∧
  ∃ w1 ch w2,
    buildInitialPost env_initial (Ok (demo_post, demo_info)) 1 world_no_proof
      = (Return tt, w1) ∧
    makeChallenge env_initial 1 7 101 w1 = (Return ch, w2) ∧
    InitialPost ch = Some demo_post ∧ CommitmentATX ch = Some 55.
Proof.
  split; [repeat split; reflexivity|].
  destruct (initial_proof_round_trip env_initial demo_post demo_info 3 1 7 101
              world_no_proof (Sentinel ErrNotFound) (Sentinel ErrNotFound)
              eq_refl (λ _, eq_refl) eq_refl eq_refl eq_refl eq_refl eq_refl
              eq_refl)
    as (w1 & ch & w2 & E1 & E2 & Hp & Hc & _).
  exists w1, ch, w2. split; [exact E1|]. split; [exact E2|].
  split; [exact Hp|exact Hc].
Defined.

(** The prover fails twice, then returns a valid proof. *)
Lemma run_initial_retries_witness :
  ((∀ n, ∃ e, GetLastAtx env_initial n 1 = Err e) ∧
   (∀ n, localDBFault env_initial n = None) ∧
   initialPosts world_no_proof !! 1 = None ∧
   (∀ j, (j < 2)%nat → ∃ e, demo_proofs (0 + j)%nat = Err e) ∧
   (∀ j, (j < 2)%nat →
         ctxErr env_initial (calls world_no_proof OCtx + j)%nat = None) ∧
   demo_proofs (0 + 2)%nat = Ok (demo_post, demo_info) ∧
   pi_Nonce demo_info = Some 3 ∧
   validatePost env_initial (calls world_no_proof OValidatePost) = None) ∧
  ∃ w', run_initial env_initial 3 demo_proofs 0 1 world_no_proof
          = (Return true, w') ∧
        initialPosts w' !! 1 = Some demo_initial_post ∧
        trace w' = [EvAwaitLayer 71; EvAwaitLayer 71].
Proof.
  assert (H1 : ∀ n, ∃ e, GetLastAtx env_initial n 1 = Err e)
    by (intros n; eexists; reflexivity).
  assert (H2 : ∀ j, (j < 2)%nat → ∃ e, demo_proofs (0 + j)%nat = Err e).
  { intros [|[|j]] Hj; [eexists; reflexivity|eexists; reflexivity|lia]. }
  split.
  { split; [exact H1|]. split; [reflexivity|]. split; [reflexivity|].
    split; [exact H2|]. repeat split; reflexivity. }
  destruct (run_initial_retries env_initial demo_proofs 1 demo_post demo_info 3
              2 0 0 world_no_proof H1 (λ _, eq_refl) eq_refl H2
              (λ _ _, eq_refl) eq_refl eq_refl eq_refl)
    as (w' & E & Hi & _ & _ & _ & Ht).
  exists w'. split; [exact E|].
  split; [rewrite Hi; apply lookup_insert_eq|exact Ht].
Defined.

(** The prover fails and the context is done. *)
Lemma run_stops_before_proof_witness :
  (buildInitialPost env_initial_cancelled (demo_proofs 0) 1 world_no_proof
     = (Fail (Errorf "post execution" (External 1)),
        bump ONow (bump OLocalDB (bump OLastAtx world_no_proof))) ∧
   ctxErr env_initial_cancelled (calls world_no_proof OCtx)
     = Some (Sentinel Canceled)) ∧
  ∃ w', run env_initial_cancelled demo_conf 3 demo_proofs 1 world_no_proof
          = (Return tt, w') ∧
        challenges w' = ∅ ∧ trace w' = [EvAwaitLayer 71].
Proof.
  split; [split; reflexivity|].
  destruct (run_stops_before_proof env_initial_cancelled demo_conf 2 demo_proofs 1
              world_no_proof _ _ (Sentinel Canceled) eq_refl eq_refl)
    as (w' & E & Hc & _ & _ & _ & Ht & _).
  exists w'. split; [exact E|]. split; [exact Hc|exact Ht].
Defined.

(** ** The theorems at work on the concrete node: cancellation and failure *)

Lemma cancelled_before_sync_witness :
  ctxErr env_cancelled (calls (demo_world demo_stale) OCtx)
    = Some (Sentinel Canceled) ∧
  ∃ w', PublishActivationTx env_cancelled demo_conf 3 1 (demo_world demo_stale)
          = (Fail (Sentinel Canceled), w') ∧
        run_publish env_cancelled demo_conf 4 1 (demo_world demo_stale)
          = (Return tt, w') ∧
        challenges w' !! 1 = Some demo_stale ∧ trace w' = [].
Proof.
  split; [reflexivity|].
  destruct (cancelled_before_sync env_cancelled demo_conf 3 1
              (demo_world demo_stale) (Sentinel Canceled) eq_refl)
    as (w' & _ & E & (Hc & _) & Ht & _ & _ & Hrun & _).
  exists w'. split; [exact E|]. split; [exact (Hrun eq_refl)|].
  split; [rewrite Hc; reflexivity|exact Ht].
Defined.

Lemma BuildNIPostChallenge_again_witness :
  BuildNIPostChallenge env_steady demo_conf 1 (demo_world demo_fresh)
    = (Return demo_fresh, world_built env_steady) ∧
  challenges (world_built env_steady) !! 1 = Some demo_fresh ∧
  ∃ w2, BuildNIPostChallenge env_steady demo_conf 1 (world_built env_steady)
          = (Return demo_fresh, w2) ∧
        trace w2 = trace (world_built env_steady).
Proof.
  split; [exact built_steady|].
  destruct (BuildNIPostChallenge_again env_steady demo_conf 1
              (demo_world demo_fresh) demo_fresh (world_built env_steady)
              built_steady) as (Hch & Hagain).
  split; [exact Hch|].
  destruct Hagain as (w2 & E & _ & Ht).
  - reflexivity.
  - reflexivity.
  - vm_compute. discriminate.
  - exists w2. split; [exact E|exact Ht].
Defined.

Lemma world_reset_failed_eq :
  BuildNIPostChallenge env_reset_fails demo_conf 1 (demo_world demo_stale)
  = (Fail (Errorf "reset nipost builder state" (External 3)), world_reset_failed).
Proof.
  unfold world_reset_failed.
  destruct (BuildNIPostChallenge _ _ _ _) as [out w'] eqn:E.
  apply (f_equal fst) in E. cbn [fst snd] in *. rewrite <- E. reflexivity.
Qed.

(** The challenge is stale and the reset of the prover fails: the stale
    challenge is still there, and no other is. *)
Lemma BuildNIPostChallenge_failed_witness :
  (BuildNIPostChallenge env_reset_fails demo_conf 1 (demo_world demo_stale)
     = (Fail (Errorf "reset nipost builder state" (External 3)),
        world_reset_failed) ∧
   ∀ ch : NIPostChallenge,
     Fail (Errorf "reset nipost builder state" (External 3)) ≠ Return ch) ∧
  (challenges world_reset_failed = challenges (demo_world demo_stale) ∨
   challenges world_reset_failed = delete 1 (challenges (demo_world demo_stale))).
Proof.
  assert (Hne : ∀ ch : NIPostChallenge,
            Fail (Errorf "reset nipost builder state" (External 3)) ≠ Return ch)
    by (intros ch; discriminate).
  split; [split; [exact world_reset_failed_eq|exact Hne]|].
  destruct (BuildNIPostChallenge_failed env_reset_fails demo_conf 1
              (demo_world demo_stale) _ _ world_reset_failed_eq Hne)
    as (_ & H & _).
  exact H.
Defined.

(** The encoder fails and the context is done at its third look. *)
Lemma broadcastLoop_unserialisable_witness :
  (Encode env_unserialisable (demo_atx None) = Err (External 6) ∧
   (∀ j, (j < 2)%nat →
         ctxErr env_unserialisable (calls (demo_world demo_fresh) OCtx + j)%nat
         = None) ∧
   ctxErr env_unserialisable (calls (demo_world demo_fresh) OCtx + 2)%nat
     = Some (Sentinel Canceled)) ∧
  (∃ w', broadcastLoop env_unserialisable 5 (demo_atx None) (demo_world demo_fresh)
           = (Fail (Errorf "broadcast" (Sentinel Canceled)), w') ∧
         trace w' = []) ∧
  (∃ w', broadcastLoop env_unserialisable 2 (demo_atx None) (demo_world demo_fresh)
           = (Running, w')).
Proof.
  assert (H : ∀ j, (j < 2)%nat →
            ctxErr env_unserialisable (calls (demo_world demo_fresh) OCtx + j)%nat
            = None).
  { intros [|[|j]] Hj; [reflexivity|reflexivity|lia]. }
  split; [split; [reflexivity|split; [exact H|reflexivity]]|].
  destruct (broadcastLoop_unserialisable env_unserialisable (demo_atx None)
              (External 6) (Sentinel Canceled) 2 2 (demo_world demo_fresh)
              eq_refl H eq_refl)
    as ((w' & E & _ & Ht & _) & Hrun).
  split; [exists w'; split; [exact E|exact Ht]|].
  destruct (Hrun 2%nat) as (w'' & E'' & _); [lia|]. by exists w''.
Defined.

Lemma poet_unstable_retry_witness :
  (BuildNIPostChallenge env_poet_unstable demo_conf 1 (demo_world demo_fresh)
     = (Return demo_fresh, world_built env_poet_unstable) ∧
   BuildNIPost env_poet_unstable (calls (world_built env_poet_unstable) OBuildNIPost)
     1 demo_fresh = Err (Errorf "poet" (Sentinel ErrPoetServiceUnstable)) ∧
   errors_Is (Errorf "poet" (Sentinel ErrPoetServiceUnstable))
     ErrPoetServiceUnstable = true ∧
   errors_Is (Errorf "poet" (Sentinel ErrPoetServiceUnstable))
     ErrATXChallengeExpired = false) ∧
  ∃ err w2 w3,
    PublishActivationTx env_poet_unstable demo_conf 3 1 (demo_world demo_fresh)
      = (Fail err, w2) ∧
    challenges w2 !! 1 = Some demo_fresh ∧
    run_recover env_poet_unstable demo_conf 1 err w2 = (Return true, w3) ∧
    trace w3 = trace w2 ++ [EvTimer 5].
Proof.
  assert (Hb : BuildNIPostChallenge env_poet_unstable demo_conf 1
                 (demo_world demo_fresh)
               = (Return demo_fresh, world_built env_poet_unstable)).
  { rewrite world_built_eq. reflexivity. }
  split; [split; [exact Hb|repeat split; reflexivity]|].
  destruct (poet_unstable_retry env_poet_unstable demo_conf 3 1
              (demo_world demo_fresh) demo_fresh (world_built env_poet_unstable)
              (Errorf "poet" (Sentinel ErrPoetServiceUnstable))
              Hb eq_refl eq_refl eq_refl)
    as (err & w2 & again & w3 & E & _ & _ & Hch & Ht2 & Er & _ & Ht & _ & _ & Ha).
  exists err, w2, w3. split; [exact E|]. split; [exact Hch|].
  split; [|exact Ht].
  rewrite Er. f_equal. f_equal. rewrite Ha.
  change (ctxErr env_poet_unstable (calls w2 OCtx)) with (@None error). reflexivity.
Defined.

Lemma cancelled_at_publication_wait_witness :
  (BuildNIPostChallenge env_cancelled_late demo_conf 1 (demo_world demo_fresh)
     = (Return demo_fresh, world_built env_cancelled_late) ∧
   BuildNIPost env_cancelled_late
     (calls (world_built env_cancelled_late) OBuildNIPost) 1 demo_fresh
     = Ok {| ns_NIPost := 1; ns_NumUnits := 2; ns_VRFNonce := 3 |} ∧
   ctxErr env_cancelled_late (calls (world_built env_cancelled_late) OCtx)
     = Some (Sentinel Canceled)) ∧
  ∃ err w2,
    PublishActivationTx env_cancelled_late demo_conf 3 1 (demo_world demo_fresh)
      = (Fail err, w2) ∧
    errors_Is err Canceled = true ∧ challenges w2 !! 1 = Some demo_fresh ∧
    run_publish env_cancelled_late demo_conf 3 1 (demo_world demo_fresh)
      = (Return tt, w2).
Proof.
  assert (Hb : BuildNIPostChallenge env_cancelled_late demo_conf 1
                 (demo_world demo_fresh)
               = (Return demo_fresh, world_built env_cancelled_late)).
  { rewrite world_built_eq. reflexivity. }
  split; [split; [exact Hb|split; reflexivity]|].
  destruct (cancelled_at_publication_wait env_cancelled_late demo_conf 2 1
              (demo_world demo_fresh) demo_fresh (world_built env_cancelled_late)
              {| ns_NIPost := 1; ns_NumUnits := 2; ns_VRFNonce := 3 |}
              (Sentinel Canceled) Hb eq_refl eq_refl)
    as (err & w2 & E & His & Hch & _ & _ & _ & _ & _ & _ & Hrun).
  exists err, w2. split; [exact E|]. split; [rewrite His; reflexivity|].
  split; [exact Hch|exact (Hrun eq_refl)].
Defined.

(** The validator rejects the stored initial proof. *)
Lemma invalid_initial_post_removed_witness :
  (GetLastAtx env_invalid (calls world_initial OLastAtx) 1
     = Err (Sentinel ErrNotFound) ∧
   errors_Is (Sentinel ErrNotFound) ErrNotFound = true ∧
   (∀ n, localDBFault env_invalid n = None) ∧
   initialPosts world_initial !! 1 = Some demo_initial_post ∧
   validatePost env_invalid (calls world_initial OValidatePost)
     = Some (External 4) ∧
   GetLastAtx env_invalid (S (calls world_initial OLastAtx)) 1
     = Err (Sentinel ErrNotFound)) ∧
  ∃ w1 w2,
    makeChallenge env_invalid 1 7 101 world_initial
      = (Fail (Errorf "initial POST is invalid" (External 4)), w1) ∧
    initialPosts w1 !! 1 = None ∧
    makeChallenge env_invalid 1 7 101 w1
      = (Fail (Errorf "get initial post" (Sentinel ErrNotFound)), w2).
Proof.
  split; [repeat split; reflexivity|].
  destruct (invalid_initial_post_removed env_invalid 1 7 101 world_initial
              (Sentinel ErrNotFound) demo_initial_post (External 4)
              (Sentinel ErrNotFound)
              eq_refl eq_refl (λ _, eq_refl) eq_refl eq_refl eq_refl eq_refl)
    as (w1 & w2 & E1 & Hi & _ & _ & E2 & _).
  exists w1, w2. split; [exact E1|].
  split; [rewrite Hi; apply lookup_delete_eq|exact E2].
Defined.

(** The reset of the first identity fails with an error of the prover. *)
Lemma StopSmeshing_error_causes_witness :
  (started (demo_world demo_stale) = true ∧
   egWait env_reset_fails (calls (demo_world demo_stale) OEgWait) = None) ∧
  ∃ out w', StopSmeshing env_reset_fails true (demo_world demo_stale) = (out, w') ∧
            out ≠ Return tt.
Proof.
  split; [split; reflexivity|].
  destruct (StopSmeshing_error_causes env_reset_fails (demo_world demo_stale)
              eq_refl I)
    as (out & w' & tr & E & Ht & _ & Hnil).
  exists out, w'. split; [exact E|].
  intros Hout. destruct Hnil as [Hnil _].
  destruct (Hnil Hout 1 (External 3)) as [Hno _].
  apply Hno.
  assert (Htr : tr = drop (length (trace (demo_world demo_stale))) (trace w')).
  { rewrite Ht. by rewrite drop_app_length. }
  rewrite Htr. apply (f_equal snd) in E. cbn [snd] in E. rewrite <- E.
  vm_compute. apply list_elem_of_further, list_elem_of_here.
Defined.

(** An identity without ATX whose initial proof is gone. *)
Lemma run_publish_without_initial_proof_witness :
  (healthy env_initial ∧
   (∀ n, ∃ e, GetLastAtx env_initial n 1 = Err e ∧
              errors_Is e ErrNotFound = true) ∧
   challenges world_no_proof !! 1 = None ∧
   initialPosts world_no_proof !! 1 = None) ∧
  ∃ w', run_publish env_initial demo_conf 2 1 world_no_proof = (Running, w') ∧
        challenges w' = ∅ ∧ initialPosts w' = ∅.
Proof.
  assert (Hh : healthy env_initial) by (repeat split; intros n; reflexivity).
  assert (Hl : ∀ n, ∃ e, GetLastAtx env_initial n 1 = Err e ∧
                         errors_Is e ErrNotFound = true).
  { intros n. eexists. split; reflexivity. }
  split; [split; [exact Hh|split; [exact Hl|split; reflexivity]]|].
  destruct (run_publish_without_initial_proof env_initial demo_conf 1 Hh Hl 2
              world_no_proof eq_refl eq_refl)
    as (_ & w' & E & (Hc & Hi & _) & _).
  exists w'. split; [exact E|]. split; [rewrite Hc|rewrite Hi]; reflexivity.
Defined.

(** * C3: a publish epoch that has passed *)

(** The stale path of [BuildNIPostChallenge]: the post state is set to
    idle and the reset of the prover is the first call traced; when it and
    the removal succeed, the stale challenge is gone from the table, which
    then holds for the identity the new challenge if one is returned and
    none otherwise. *)
Lemma BuildNIPostChallenge_stale env conf nodeID w ch :
  ctxErr env (calls w OCtx) = None →
  localDBFault env (calls w OLocalDB) = None →
  challenges w !! nodeID = Some ch →
  PublishEpoch ch < GetEpoch env (currentLayer env (calls w OClock)) →
  ∃ out w', BuildNIPostChallenge env conf nodeID w = (out, w') ∧
    postStates w' !! nodeID = Some PostStateIdle ∧
    (∃ tr, trace w' = trace w
             ++ EvResetState nodeID (resetStateErr env (calls w OReset)) :: tr) ∧
    (resetStateErr env (calls w OReset) = None →
     localDBFault env (S (calls w OLocalDB)) = None →
     (∃ tr, trace w' = trace w ++
              [EvResetState nodeID None; EvRemoveChallenge nodeID None] ++ tr) ∧
     ((∀ ch', out ≠ Return ch') →
        challenges w' = delete nodeID (challenges w)) ∧
     (∀ ch', out = Return ch' →
        challenges w' = <[nodeID := ch']> (delete nodeID (challenges w)) ∧
        initialPosts w' = initialPosts w)).
Proof.
  intros Hctx Hdb Hch Hlt.
  unfold BuildNIPostChallenge. go. rewrite Hctx. go. rewrite Hdb. go.
  unfold nipost.Challenge. rewrite Hch.
  destruct (Z.ltb_spec (PublishEpoch ch)
              (GetEpoch env (currentLayer env (calls w OClock)))) as [_|Hge];
    [|lia].
  go. destruct (resetStateErr env (calls w OReset)) as [err|] eqn:Hreset; go.
  { eexists _, _. split; [done|]. go_fields.
    split; [by rewrite lookup_insert_eq|]. split; [by exists []|]. done. }
  destruct (localDBFault env (S (calls w OLocalDB))) as [err|] eqn:Hrm; go.
  { eexists _, _. split; [done|]. go_fields.
    split; [by rewrite lookup_insert_eq|].
    split; [exists [EvRemoveChallenge nodeID (Some err)]; by rewrite <- app_assoc|].
    done. }
  set (w1 := record _ _).
  set (current := GetEpoch env (currentLayer env (calls w OClock))).
  destruct (buildNewChallenge_frame env conf nodeID current w1)
    as (out & w' & E & P & Q & [tr X] & R).
  destruct (buildNewChallenge_isolated env conf nodeID current w1)
    as (out' & w'' & E' & _ & _ & F & _).
  rewrite E in E'. injection E' as <- <-.
  assert (T1 : trace w1 = trace w ++
                 [EvResetState nodeID None; EvRemoveChallenge nodeID None])
    by (subst w1; go_fields; by rewrite <- app_assoc).
  exists out, w'. split; [exact E|].
  split; [rewrite Q; subst w1; go_fields; by rewrite lookup_insert_eq|].
  split.
  { exists (EvRemoveChallenge nodeID None :: tr).
    rewrite X, T1. by rewrite <- app_assoc. }
  intros _ _. split.
  { exists tr. by rewrite X, T1, <- app_assoc. }
  split.
  - intros Hno. rewrite (F Hno). by subst w1.
  - intros ch' ->. destruct (R ch' eq_refl) as (_ & C & I & _).
    split; [rewrite C; by subst w1|]. rewrite I. by subst w1.
Qed.

(** C3, as the code has it.  When the challenge is built, the NIPost is
    built and the wait for the publication epoch is not cut short by the
    context, but the epoch read after the wait is later than the publish
    epoch of the challenge, [createAtx] fails.  Its error, and the error
    [PublishActivationTx] returns for it, is [ErrATXChallengeExpired]
    exactly when the challenge carries no initial post, and is never
    [context.Canceled].  The switch of the run loop then, for a challenge
    without initial post, calls [ResetState] and [RemoveChallenge] (so that,
    when they succeed, the proving progress and the persisted challenge are
    gone) and waits for the next layer.  For a challenge with an initial
    post the switch only waits for the next layer: the challenge and the
    initial post are still persisted when the loop goes round, which it
    does unless the context is done.  But the loop does not keep that
    challenge: the [BuildNIPostChallenge] of its next turn, the epoch still
    being past the publish epoch, takes the challenge for stale, sets the
    post state to idle, resets the prover and, the reset and the removal
    succeeding, removes the challenge from the table before it builds a new
    one; the initial post is as it was when a new challenge is returned. *)
Theorem createAtx_expired env conf fuel sig w ch w1 st :
  BuildNIPostChallenge env conf sig w = (Return ch, w1) →
  BuildNIPost env (calls w1 OBuildNIPost) sig ch = Ok st →
  ctxErr env (calls w1 OCtx) = None →
  PublishEpoch ch < GetEpoch env (currentLayer env (S (S (calls w1 OClock)))) →
  ∃ e w2,
    createAtx env sig ch (bump OClock w1) = (Fail e, w2) ∧
    (errors_Is e ErrATXChallengeExpired = true ↔ InitialPost ch = None) ∧
    PublishActivationTx env conf (S fuel) sig w = (Fail (Errorf "create ATX" e), w2) ∧
    (errors_Is (Errorf "create ATX" e) ErrATXChallengeExpired = true
       ↔ InitialPost ch = None) ∧
    errors_Is (Errorf "create ATX" e) Canceled = false ∧
    challenges w2 = challenges w1 ∧ initialPosts w2 = initialPosts w1 ∧
    ∃ again w3,
      run_recover env conf sig (Errorf "create ATX" e) w2 = (Return again, w3) ∧
      run_publish env conf (S fuel) sig w =
        (if again then run_publish env conf fuel sig w3 else (Return tt, w3)) ∧
      again = match ctxErr env (calls w2 OCtx) with
              | Some _ => false
              | None => true
              end ∧
      let next := EvAwaitLayer (wrap32 (currentLayer env (calls w2 OClock) + 1)) in
      match InitialPost ch with
      | None =>
          let r1 := resetStateErr env (calls w2 OReset) in
          let r2 := localDBFault env (calls w2 OLocalDB) in
          trace w3 = trace w2 ++ [EvResetState sig r1; EvRemoveChallenge sig r2; next] ∧
          (r1 = None → sig ∉ proverState w3) ∧
          (r2 = None → challenges w3 !! sig = None)
      | Some _ =>
          same_state w2 w3 ∧ trace w3 = trace w2 ++ [next] ∧
          challenges w3 !! sig = Some ch ∧
          (ctxErr env (calls w3 OCtx) = None →
           localDBFault env (calls w3 OLocalDB) = None →
           PublishEpoch ch < GetEpoch env (currentLayer env (calls w3 OClock)) →
           ∃ out w4, BuildNIPostChallenge env conf sig w3 = (out, w4) ∧
             postStates w4 !! sig = Some PostStateIdle ∧
             (∃ tr, trace w4 = trace w3
                      ++ EvResetState sig (resetStateErr env (calls w3 OReset)) :: tr) ∧
             (resetStateErr env (calls w3 OReset) = None →
              localDBFault env (S (calls w3 OLocalDB)) = None →
              (∃ tr, trace w4 = trace w3 ++
                       [EvResetState sig None; EvRemoveChallenge sig None] ++ tr) ∧
              ((∀ ch', out ≠ Return ch') →
                 challenges w4 = delete sig (challenges w3)) ∧
              (∀ ch', out = Return ch' →
                 challenges w4 = <[sig := ch']> (delete sig (challenges w3)) ∧
                 initialPosts w4 = initialPosts w3)))
      end.
Proof.
  intros Eb Hb Hctx Hlt.
  destruct (createAtx_run env sig ch (bump OClock w1) st Hb Hctx)
    as (out & w2 & Ec & C & I & _ & _ & _ & _ & _ & Hexp & _).
  specialize (Hexp Hlt). subst out.
  assert (Hkind : errors_Is (expiredError ch) ErrATXChallengeExpired = true
                  ↔ InitialPost ch = None).
  { unfold expiredError. destruct (InitialPost ch); cbn; split; done. }
  assert (Hnc : errors_Is (expiredError ch) Canceled = false).
  { unfold expiredError. by destruct (InitialPost ch). }
  assert (Ep : PublishActivationTx env conf (S fuel) sig w
               = (Fail (Errorf "create ATX" (expiredError ch)), w2)).
  { rewrite (PublishActivationTx_steps _ _ _ _ _ _ _ Eb). by rewrite Ec. }
  assert (Hch : challenges w2 !! sig = Some ch).
  { destruct (BuildNIPostChallenge_isolated env conf sig w)
      as (o & v & E' & _ & _ & R & _).
    rewrite Eb in E'. injection E' as <- <-. rewrite C. by apply R. }
  exists (expiredError ch), w2.
  split; [done|]. split; [done|]. split; [done|]. split; [done|].
  split; [done|]. split; [done|]. split; [done|].
  rewrite (run_publish_recover _ _ _ _ _ _ _ Ep Hnc).
  unfold run_recover. rewrite !errors_Is_Errorf.
  unfold expiredError in *. destruct (InitialPost ch) as [p|]; cbn [errors_Is].
  - (* an initial post: the default case of the switch *)
    go.
    assert (Hnext : ∀ w3, same_state w2 w3 →
      ctxErr env (calls w3 OCtx) = None →
      localDBFault env (calls w3 OLocalDB) = None →
      PublishEpoch ch < GetEpoch env (currentLayer env (calls w3 OClock)) →
      ∃ out w4, BuildNIPostChallenge env conf sig w3 = (out, w4) ∧
        postStates w4 !! sig = Some PostStateIdle ∧
        (∃ tr, trace w4 = trace w3
                 ++ EvResetState sig (resetStateErr env (calls w3 OReset)) :: tr) ∧
        (resetStateErr env (calls w3 OReset) = None →
         localDBFault env (S (calls w3 OLocalDB)) = None →
         (∃ tr, trace w4 = trace w3 ++
                  [EvResetState sig None; EvRemoveChallenge sig None] ++ tr) ∧
         ((∀ ch', out ≠ Return ch') →
            challenges w4 = delete sig (challenges w3)) ∧
         (∀ ch', out = Return ch' →
            challenges w4 = <[sig := ch']> (delete sig (challenges w3)) ∧
            initialPosts w4 = initialPosts w3))).
    { intros w3 (Hc3 & _) H1 H2 H3.
      apply (BuildNIPostChallenge_stale env conf sig w3 ch H1 H2); [|exact H3].
      by rewrite Hc3. }
    destruct (ctxErr env (calls w2 OCtx)); go.
    + eexists _, _. split; [done|]. split; [reflexivity|]. split; [done|].
      split; [same_state_now|]. split; [done|]. split; [done|].
      apply Hnext. same_state_now.
    + eexists _, _. split; [done|]. split; [reflexivity|]. split; [done|].
      split; [same_state_now|]. split; [done|]. split; [done|].
      apply Hnext. same_state_now.
  - (* no initial post: the challenge expired *)
    rewrite bool_decide_eq_true_2 by done. go.
    destruct (resetStateErr env (calls w2 OReset)) as [e1|] eqn:H1; go;
      destruct (localDBFault env (calls w2 OLocalDB)) as [e2|] eqn:H2; go;
      destruct (ctxErr env (calls w2 OCtx)); go;
      eexists _, _; (split; [done|]); (split; [reflexivity|]);
      (split; [done|]); go_fields;
      (split; [by rewrite <- !app_assoc|]); (split; [intros; try done; set_solver|]);
      intros; try done; unfold nipost.RemoveChallenge; apply lookup_delete_eq.
Qed.

Lemma world_initial_built_eq :
  BuildNIPostChallenge env_initial_late demo_conf 1 world_initial_challenge
  = (Return demo_initial_challenge, world_initial_built).
Proof.
  unfold world_initial_built.
  destruct (BuildNIPostChallenge _ _ _ _) as [out w'] eqn:E.
  apply (f_equal fst) in E. cbn [fst snd] in *. rewrite <- E. reflexivity.
Qed.

(** The first challenge of an identity, with its initial post, for epoch 8,
    when the clock is in epoch 9 after the wait: the error is not the
    expired one, the switch leaves the challenge persisted, and the next
    turn of the loop resets the prover and removes it. *)
Lemma createAtx_expired_witness :
  (BuildNIPostChallenge env_initial_late demo_conf 1 world_initial_challenge
     = (Return demo_initial_challenge, world_initial_built) ∧
   BuildNIPost env_initial_late (calls world_initial_built OBuildNIPost) 1
     demo_initial_challenge
     = Ok {| ns_NIPost := 1; ns_NumUnits := 2; ns_VRFNonce := 3 |} ∧
   ctxErr env_initial_late (calls world_initial_built OCtx) = None ∧
   PublishEpoch demo_initial_challenge
     < GetEpoch env_initial_late
         (currentLayer env_initial_late (S (S (calls world_initial_built OClock))))) ∧
  ∃ e w2 w3 out w4 tr,
    PublishActivationTx env_initial_late demo_conf 3 1 world_initial_challenge
      = (Fail e, w2) ∧
    errors_Is e ErrATXChallengeExpired = false ∧
    run_recover env_initial_late demo_conf 1 e w2 = (Return true, w3) ∧
    challenges w3 !! 1 = Some demo_initial_challenge ∧
    BuildNIPostChallenge env_initial_late demo_conf 1 w3 = (out, w4) ∧
    trace w4 = trace w3 ++ [EvResetState 1 None; EvRemoveChallenge 1 None] ++ tr.
Proof.
  split; [split; [exact world_initial_built_eq|repeat split; reflexivity]|].
  destruct (createAtx_expired env_initial_late demo_conf 2 1
              world_initial_challenge demo_initial_challenge world_initial_built
              {| ns_NIPost := 1; ns_NumUnits := 2; ns_VRFNonce := 3 |}
              world_initial_built_eq eq_refl eq_refl eq_refl)
    as (e & w2 & Ec & Hk & Hp & Hkind & _ & _ & _ & again & w3 & Er & _ & Ha & Hrest).
  cbn [InitialPost demo_initial_challenge] in Hrest.
  destruct Hrest as (_ & _ & Hch & Hnext).
  assert (again = true) as -> by (rewrite Ha; reflexivity).
  assert (Hw2 : w2 = snd (createAtx env_initial_late 1 demo_initial_challenge
                            (bump OClock world_initial_built)))
    by (by rewrite Ec).
  assert (Hw3 : w3 = snd (run_recover env_initial_late demo_conf 1
                            (Errorf "create ATX" e) w2))
    by (by rewrite Er).
  destruct Hnext as (out & w4 & Eb & _ & _ & Hrm).
  - reflexivity.
  - reflexivity.
  - rewrite Hw3.
    assert (He : e = match createAtx env_initial_late 1 demo_initial_challenge
                             (bump OClock world_initial_built) with
                     | (Fail e', _) => e'
                     | _ => e
                     end) by (by rewrite Ec).
    rewrite He, Hw2. vm_compute. reflexivity.
  - destruct Hrm as ([tr Ht] & _); [reflexivity|reflexivity|].
    exists (Errorf "create ATX" e), w2, w3, out, w4, tr.
    split; [exact Hp|]. split.
    { destruct (errors_Is (Errorf "create ATX" e) ErrATXChallengeExpired) eqn:Hx;
        [|reflexivity].
      destruct Hkind as [Hkind _]. discriminate (Hkind eq_refl). }
    split; [exact Er|]. split; [exact Hch|]. split; [exact Eb|exact Ht].
Defined.

(** C3 as stated fails: the run loop does discard the persisted challenge
    that carries an initial post.  With the first challenge of identity 1
    persisted for epoch 8 and the clock in epoch 9 after the wait for the
    publication epoch, [PublishActivationTx] fails with an error that is not
    the expired one and the challenge is still persisted when it returns;
    but the next turn of the loop resets the prover and removes that
    challenge, and persists another one, for epoch 10.  The initial post is
    kept. *)
Lemma run_discards_initial_challenge :
  challenges world_initial_challenge !! 1 = Some demo_initial_challenge ∧
  InitialPost demo_initial_challenge = Some demo_post ∧
  fst initial_turn
    = Fail (Errorf "create ATX"
              (ErrorsNew "atx publish epoch has passed during nipost construction")) ∧
  errors_Is
    (Errorf "create ATX"
       (ErrorsNew "atx publish epoch has passed during nipost construction"))
    ErrATXChallengeExpired = false ∧
  challenges (snd initial_turn) !! 1 = Some demo_initial_challenge ∧
  fst initial_loop = Running ∧
  (∃ ch', trace (snd initial_loop)
          = [EvAwaitLayer 80; EvAwaitLayer 96;
             EvResetState 1 None; EvRemoveChallenge 1 None;
             EvPoetWaitRound 9 10 90300; EvTimer 19300;
             EvAddChallenge 1 ch' None;
             EvAwaitLayer 100; EvPublish [10; 1; 2; 9] (Some (External 5))] ∧
          PublishEpoch ch' = 10 ∧
          challenges (snd initial_loop) !! 1 = Some ch') ∧
  challenges (snd initial_loop) !! 1 ≠ Some demo_initial_challenge ∧
  ¬ (∀ r, EvRemoveChallenge 1 r ∉ trace (snd initial_loop)) ∧
  initialPosts (snd initial_loop) !! 1 = Some demo_initial_post.
Proof.
  assert (T : ∃ ch', trace (snd initial_loop)
          = [EvAwaitLayer 80; EvAwaitLayer 96;
             EvResetState 1 None; EvRemoveChallenge 1 None;
             EvPoetWaitRound 9 10 90300; EvTimer 19300;
             EvAddChallenge 1 ch' None;
             EvAwaitLayer 100; EvPublish [10; 1; 2; 9] (Some (External 5))] ∧
          PublishEpoch ch' = 10 ∧
          challenges (snd initial_loop) !! 1 = Some ch').
  { eexists. split; [vm_compute; reflexivity|]. split; vm_compute; reflexivity. }
  split; [vm_compute; reflexivity|]. split; [reflexivity|].
  split; [vm_compute; reflexivity|]. split; [reflexivity|].
  split; [vm_compute; reflexivity|]. split; [vm_compute; reflexivity|].
  split; [exact T|].
  destruct T as (ch' & T & Hep & Hch).
  split.
  { rewrite Hch. intros [= ->]. discriminate Hep. }
  split; [|vm_compute; reflexivity].
  intros Hno. apply (Hno None). rewrite T.
  do 3 apply list_elem_of_further. apply list_elem_of_here.
Qed.
